(** * quick-threejs, reactive package: the cross-context orchestration layer

    A shallow embedding of the register modules (main thread), the core
    module (worker thread) and the loader controller, with the properties
    the specification states about them.

    Conventions.  A source name [x$] is written [x'] and [x$$] is written
    [x''].  Asynchronous methods are modelled by their sequential effect:
    every [await] in the sources is immediately followed by the next
    statement of the same method. *)

From Stdlib Require Import ZArith QArith Bool List Lia.
From stdpp Require Import base option list gmap strings pretty.

Local Open Scope string_scope.
Local Open Scope list_scope.

(** ** JavaScript values, as far as the sources look at them

    The sources test values for truthiness, for their type and for being
    a key of an object; they do no arithmetic on them.  Numbers are kept
    as integers, with [NaN] apart. *)

Module JS.

Inductive value : Type :=
| Undefined
| Null
| Boolean (b : bool)
| Number (z : Z)
| NaN
| String (s : string)
| Url (href : string)          (* an instance of URL *)
| Element (id : nat)           (* a DOM element, by identity *)
| Object (id : nat).           (* any other object, by identity *)

(** [!!v] *)
Definition truthy (v : value) : bool :=
  match v with
  | Undefined | Null | NaN => false
  | Boolean b => b
  | Number z => negb (z =? 0)%Z
  | String s => negb (s =? "")%string
  | Url _ | Element _ | Object _ => true
  end.

(** [typeof v === "string"] *)
Definition is_string (v : value) : bool :=
  match v with String _ => true | _ => false end.

(** [v instanceof URL] *)
Definition instanceof_URL (v : value) : bool :=
  match v with Url _ => true | _ => false end.

(** [v === undefined] *)
Definition is_undefined (v : value) : bool :=
  match v with Undefined => true | _ => false end.

(** [typeof v === "boolean"] *)
Definition is_boolean (v : value) : bool :=
  match v with Boolean _ => true | _ => false end.

(** The property key a value denotes on the left of [in] *)
Definition to_property_key (v : value) : string :=
  match v with
  | Undefined => "undefined"
  | Null => "null"
  | Boolean true => "true"
  | Boolean false => "false"
  | Number z => pretty z
  | NaN => "NaN"
  | String s => s
  | Url href => href
  | Element _ => "[object HTMLElement]"
  | Object _ => "[object Object]"
  end.

(** An optional boolean option of a TypeScript props object:
    [flag?: boolean] tested as [flag || flag === undefined]. *)
Definition true_or_unset (flag : option bool) : bool :=
  match flag with
  | Some b => b
  | None => true
  end.

(** A boolean field after [register]: itself if it is a boolean, else
    the default *)
Definition boolean_or (default_ : bool) (v : value) : value :=
  match v with
  | Boolean b => Boolean b
  | _ => Boolean default_
  end.

(** [location] is a string or a URL *)
Definition locates (v : value) : Prop :=
  (exists s, v = String s) \/ (exists href, v = Url href).

End JS.

(** ** A state monad with exceptions

    A method of the sources mutates its object and the document, and may
    throw; what it changed before throwing stays changed. *)

Inductive outcome (A : Type) : Type :=
| Returned (a : A)
| Thrown (message : string).
Arguments Returned {A} a.
Arguments Thrown {A} message.

Definition M (S A : Type) : Type := S -> outcome A * S.

Definition ret {S A} (a : A) : M S A := fun s => (Returned a, s).

Definition bind {S A B} (m : M S A) (k : A -> M S B) : M S B :=
  fun s =>
    match m s with
    | (Returned a, s') => k a s'
    | (Thrown e, s') => (Thrown e, s')
    end.

Definition throw {S A} (message : string) : M S A :=
  fun s => (Thrown message, s).

Definition try_catch {S A} (body : M S A) (handler : string -> M S A) : M S A :=
  fun s =>
    match body s with
    | (Returned a, s') => (Returned a, s')
    | (Thrown e, s') => handler e s'
    end.

Definition get {S} : M S S := fun s => (Returned s, s).
Definition modify {S} (f : S -> S) : M S unit := fun s => (Returned tt, f s).
Definition when {S} (b : bool) (m : M S unit) : M S unit :=
  if b then m else ret tt.

Declare Scope js_scope.
Delimit Scope js_scope with js.
Notation "'do' x <- m ; k" := (bind m (fun x => k))
  (at level 10, x name, m at level 100, k at level 200,
   format "'[v' 'do'  x  <-  m ; '/' k ']'") : js_scope.
Notation "'step' m ; k" := (bind m (fun _ => k))
  (at level 10, m at level 100, k at level 200,
   format "'[v' 'step'  m ; '/' k ']'") : js_scope.

Definition returns {S A} (m : M S A) (s : S) : Prop :=
  exists a, fst (m s) = Returned a.

Definition throws {S A} (m : M S A) (s : S) : Prop :=
  exists e, fst (m s) = Thrown e.

Definition exec {S A} (m : M S A) (s : S) : S := snd (m s).

(** ** rxjs subjects

    A [Subject] is modelled by what its subscribers have observed so far
    and whether it has completed; [next] on a completed subject is dropped,
    as rxjs does. *)

Module Rx.

Record Subject (A : Type) : Type := {
  emitted : list A;
  closed : bool
}.
Arguments emitted {A} _.
Arguments closed {A} _.

Definition new {A} : Subject A := {| emitted := []; closed := false |}.

Definition next {A} (a : A) (s : Subject A) : Subject A :=
  if closed s then s
  else {| emitted := emitted s ++ [a]; closed := false |}.

Definition complete {A} (s : Subject A) : Subject A :=
  {| emitted := emitted s; closed := true |}.

End Rx.

(** ** The worker-resident core module
    [packages/reactive/src/core/core.module.ts], the version with a
    lifecycle stream, and [core.controller.ts]. *)

Module CoreModule.

Inductive LifecycleState : Type :=
| INITIALIZED
| UPDATE_STARTED
| UPDATE_ENDED
| DISPOSED.

#[global] Instance LifecycleState_eq_dec : EqDecision LifecycleState.
Proof. solve_decision. Defined.

(** [OffscreenCanvasWithStyle]: the transferred surface; [style] is what
    [init] writes on it. *)
Record OffscreenCanvas : Type := {
  width : Z;
  height : Z;
  style : option (string * string)
}.

(** [CoreModuleMessageEventData].  The flags arrive as arbitrary
    structured-clone values; [_onMessage] coerces them with [!!]. *)
Record CoreModuleMessageEventData : Type := {
  canvas : option OffscreenCanvas;
  startTimer : JS.value;
  useDefaultCamera : JS.value;
  withMiniCamera : JS.value;
  fullScreen : JS.value
}.

(** [CoreModuleMessageEvent]: [event.data] may be missing altogether. *)
Record CoreModuleMessageEvent : Type := {
  data : option CoreModuleMessageEventData
}.

(** Calls into the injected subsystems, in the order they are made. *)
Inductive SubsystemCall : Type :=
| sizes_init (c : OffscreenCanvas)
| timer_init (startTimer : JS.value)
| camera_init (useDefaultCamera withMiniCamera : JS.value)
| world_init
| renderer_init (c : OffscreenCanvas)
| debug_init (props : CoreModuleMessageEventData)
| timer_dispose
| camera_dispose
| renderer_dispose
| sizes_dispose
| world_dispose
| render_frame.

(** [CoreComponent] and the [lifecycle$$] subject of [CoreController],
    together with the trace of subsystem calls. *)
Record State : Type := {
  initialized : bool;
  component_canvas : option OffscreenCanvas;
  lifecycle'' : Rx.Subject LifecycleState;
  calls : list SubsystemCall
}.

Definition fresh : State := {|
  initialized := false;
  component_canvas := None;
  lifecycle'' := Rx.new;
  calls := []
|}.

Definition with_style (c : OffscreenCanvas) : OffscreenCanvas := {|
  width := width c;
  height := height c;
  style := Some (pretty (width c), pretty (height c))
|}.

Definition call (c : SubsystemCall) : M State unit :=
  modify (fun st => {|
    initialized := initialized st;
    component_canvas := component_canvas st;
    lifecycle'' := lifecycle'' st;
    calls := calls st ++ [c] |}).

Definition lifecycle_next (e : LifecycleState) : M State unit :=
  modify (fun st => {|
    initialized := initialized st;
    component_canvas := component_canvas st;
    lifecycle'' := Rx.next e (lifecycle'' st);
    calls := calls st |}).

Definition lifecycle_complete : M State unit :=
  modify (fun st => {|
    initialized := initialized st;
    component_canvas := component_canvas st;
    lifecycle'' := Rx.complete (lifecycle'' st);
    calls := calls st |}).

Definition set_initialized (b : bool) : M State unit :=
  modify (fun st => {|
    initialized := b;
    component_canvas := component_canvas st;
    lifecycle'' := lifecycle'' st;
    calls := calls st |}).

Definition set_canvas (c : OffscreenCanvas) : M State unit :=
  modify (fun st => {|
    initialized := initialized st;
    component_canvas := Some c;
    lifecycle'' := lifecycle'' st;
    calls := calls st |}).

(** [CoreModule.init] *)
Definition init (props : CoreModuleMessageEventData) : M State unit :=
  (do st <- get;
   match canvas props with
   | None => ret tt
   | Some c =>
       if initialized st then ret tt
       else
         step set_initialized true;
         let canvas := with_style c in
         let props := {| canvas := Some canvas;
                         startTimer := startTimer props;
                         useDefaultCamera := useDefaultCamera props;
                         withMiniCamera := withMiniCamera props;
                         fullScreen := fullScreen props |} in
         step set_canvas canvas;
         step call (sizes_init canvas);
         step call (timer_init (startTimer props));
         step call (camera_init (useDefaultCamera props) (withMiniCamera props));
         step call world_init;
         step call (renderer_init canvas);
         step call (debug_init props);
         lifecycle_next INITIALIZED
   end)%js.

(** [CoreModule._onMessage] *)
Definition _onMessage (event : CoreModuleMessageEvent) : M State unit :=
  (do st <- get;
   match data event with
   | None => ret tt
   | Some d =>
       match canvas d with
       | None => ret tt
       | Some c =>
           if initialized st then ret tt
           else
             init {| canvas := Some c;
                     startTimer := JS.Boolean (JS.truthy (startTimer d));
                     useDefaultCamera := JS.Boolean (JS.truthy (useDefaultCamera d));
                     withMiniCamera := JS.Boolean (JS.truthy (withMiniCamera d));
                     fullScreen := JS.Boolean (JS.truthy (fullScreen d)) |}
       end
   end)%js.

(** [CoreModule.dispose].  The [removeEventListener] call is given a
    fresh [bind] of the handler, which is not the registered listener:
    the handler stays registered, and [perform] below goes on handing it
  the messages. *)
Definition dispose : M State unit :=
  (step call timer_dispose;
   step call camera_dispose;
   step call renderer_dispose;
   step call sizes_dispose;
   step call world_dispose;
   step lifecycle_next DISPOSED;
   lifecycle_complete)%js.

(** [CoreModule.isInitialized] *)
Definition isInitialized (st : State) : bool := initialized st.

(** [CoreModule.lifecycle$]: what a subscriber from the start has seen. *)
Definition lifecycle' (st : State) : list LifecycleState :=
  Rx.emitted (lifecycle'' st).

(** Modelled from the spec: the update tick of the renderer, whose
    module is not among the sources.  "Each update tick emits
    UPDATE_STARTED before doing render work and UPDATE_ENDED immediately
    after"; the update states are entered from INITIALIZED only, the
    timer that drives the ticks being set up by [init]. *)
Definition tick : M State unit :=
  (do st <- get;
   if initialized st then
     step lifecycle_next UPDATE_STARTED;
     step call render_frame;
     lifecycle_next UPDATE_ENDED
   else ret tt)%js.

(** What can happen to a module instance from outside. *)
Inductive Op : Type :=
| CallInit (props : CoreModuleMessageEventData)
| Message (event : CoreModuleMessageEvent)
| Tick
| Dispose.

Definition perform (op : Op) : M State unit :=
  match op with
  | CallInit props => init props
  | Message event => _onMessage event
  | Tick => tick
  | Dispose => dispose
  end.

(** The state after a history of operations; no operation throws, see
    [perform_returns] below. *)
Definition after (ops : list Op) (st : State) : State :=
  fold_left (fun st op => exec (perform op) st) ops st.




(** The subsystem setup [init] runs, in order *)
Definition setup_calls (props : CoreModuleMessageEventData) (c : OffscreenCanvas)
  : list SubsystemCall :=
  let canvas' := with_style c in
  [ sizes_init canvas';
    timer_init (startTimer props);
    camera_init (useDefaultCamera props) (withMiniCamera props);
    world_init;
    renderer_init canvas';
    debug_init {| canvas := Some canvas';
                  startTimer := startTimer props;
                  useDefaultCamera := useDefaultCamera props;
                  withMiniCamera := withMiniCamera props;
                  fullScreen := fullScreen props |} ].




End CoreModule.

(** ** The document, as far as the register modules touch it

    Elements are objects with identity; the document records, for each
    element object, whether it is a canvas, where it is attached, its
    [dataset] and its pixel size.  Layout ([clientWidth], the bounding
    rectangle) and selector resolution are the browser's: they are read
    from the document as it stands. *)

Module Dom.

(** [parentElement]: the body, or some other element *)
Inductive Parent : Type :=
| Body
| Elsewhere.

Record HTMLElement : Type := {
  is_canvas : bool;                 (* instanceof HTMLCanvasElement *)
  parentElement : option Parent;
  dataset : gmap string string;
  width : Z;
  height : Z;
  transferred : bool                (* control was given to an OffscreenCanvas *)
}.

Record Layout : Type := {
  clientWidth : Z;
  clientHeight : Z;
  top : Q;                          (* getBoundingClientRect() *)
  left : Q
}.

Record OffscreenCanvas : Type := {
  placeholder : nat;                (* the canvas element it draws to *)
  offscreen_width : Z;
  offscreen_height : Z
}.

Record Document : Type := {
  elements : gmap nat HTMLElement;
  has_body : bool;                                  (* document.body !== null *)
  selectors : string -> outcome (option nat);       (* document.querySelector *)
  layout : nat -> Layout;
  innerWidth : Z;                                   (* window.innerWidth *)
  innerHeight : Z
}.

Definition with_elements (els : gmap nat HTMLElement) (doc : Document) : Document := {|
  elements := els;
  has_body := has_body doc;
  selectors := selectors doc;
  layout := layout doc;
  innerWidth := innerWidth doc;
  innerHeight := innerHeight doc
|}.

Definition new_canvas : HTMLElement := {|
  is_canvas := true;
  parentElement := None;
  dataset := ∅;
  width := 300;
  height := 150;
  transferred := false
|}.

Definition with_parent (p : option Parent) (e : HTMLElement) : HTMLElement := {|
  is_canvas := is_canvas e;
  parentElement := p;
  dataset := dataset e;
  width := width e;
  height := height e;
  transferred := transferred e
|}.

Definition with_data (k v : string) (e : HTMLElement) : HTMLElement := {|
  is_canvas := is_canvas e;
  parentElement := parentElement e;
  dataset := <[k := v]> (dataset e);
  width := width e;
  height := height e;
  transferred := transferred e
|}.

Definition with_transferred (e : HTMLElement) : HTMLElement := {|
  is_canvas := is_canvas e;
  parentElement := parentElement e;
  dataset := dataset e;
  width := width e;
  height := height e;
  transferred := true
|}.

(** [document.createElement("canvas")] *)
Definition createElement_canvas : M Document nat :=
  fun doc =>
    let id := fresh (dom (elements doc)) in
    (Returned id, with_elements (<[id := new_canvas]> (elements doc)) doc).

(** [x instanceof HTMLCanvasElement], for an element object *)
Definition is_canvas_element (id : nat) (doc : Document) : bool :=
  match elements doc !! id with
  | Some e => is_canvas e
  | None => false
  end.

(** [document.querySelector(selector)]; an invalid selector throws. *)
Definition querySelector (selector : string) : M Document (option nat) :=
  fun doc =>
    match selectors doc selector with
    | Returned r => (Returned r, doc)
    | Thrown e => (Thrown e, doc)
    end.

Definition parent_of (id : nat) (doc : Document) : option Parent :=
  elements doc !! id ≫= parentElement.

Definition data_of (id : nat) (k : string) (doc : Document) : option string :=
  elements doc !! id ≫= fun e => dataset e !! k.

(** [document.body.appendChild(el)] *)
Definition body_appendChild (id : nat) : M Document unit :=
  fun doc =>
    if has_body doc then
      (Returned tt,
       with_elements (alter (with_parent (Some Body)) id (elements doc)) doc)
    else (Thrown "Cannot read properties of null (reading 'appendChild')", doc).

(** [document.body.removeChild(el)]; throws unless [el] is a child of
    the body. *)
Definition body_removeChild (id : nat) : M Document unit :=
  fun doc =>
    if has_body doc then
      match parent_of id doc with
      | Some Body =>
          (Returned tt,
           with_elements (alter (with_parent None) id (elements doc)) doc)
      | _ => (Thrown "The node to be removed is not a child of this node.", doc)
      end
    else (Thrown "Cannot read properties of null (reading 'removeChild')", doc).

(** [el.remove()] *)
Definition remove (id : nat) : M Document unit :=
  fun doc =>
    (Returned tt,
     with_elements (alter (with_parent None) id (elements doc)) doc).

(** [el.dataset[k] = v] *)
Definition set_data (id : nat) (k v : string) : M Document unit :=
  fun doc =>
    (Returned tt,
     with_elements (alter (with_data k v) id (elements doc)) doc).

(** [canvas.transferControlToOffscreen()]; throws the second time. *)
Definition transferControlToOffscreen (id : nat) : M Document OffscreenCanvas :=
  fun doc =>
    match elements doc !! id with
    | Some e =>
        if transferred e then
          (Thrown "Cannot transfer control from a canvas for more than one time.", doc)
        else
          (Returned {| placeholder := id;
                       offscreen_width := width e;
                       offscreen_height := height e |},
           with_elements (alter with_transferred id (elements doc)) doc)
    | None => (Thrown "transferControlToOffscreen is not a function", doc)
    end.

(** The element is attached to the document. *)
Definition attached (id : nat) (doc : Document) : bool :=
  bool_decide (is_Some (parent_of id doc)).


End Dom.

(** ** What the worker pool hands back

    [WorkerPool.run] of [@quick-threejs/utils] is outside the sources; its
    answer to a spawn request is an input of the methods that call it. *)

Module Pool.

(** The remote-module proxy of a worker: which of the optional remote
    methods it exposes. *)
Record Thread : Type := {
  thread_id : nat;
  exposes_resize : bool
}.

(** The handle [{thread, worker}]; either part may be missing. *)
Record WorkerThread : Type := {
  thread : option Thread;
  worker : option nat
}.

Definition complete (h : WorkerThread) : bool :=
  bool_decide (is_Some (thread h)) && bool_decide (is_Some (worker h)).

End Pool.

(** ** Loader payloads, shared by both sides of the boundary *)

Module Resource.

(** [Resource]: [{type, ...}] *)
Record Source : Type := {
  type : string;
  path : string
}.

(** [ProgressedResource] and its serialized form, over the type of the
    resource itself *)
Record Progressed (R : Type) : Type := {
  resource : R;
  loadedCount : Z;
  toLoadCount : Z;
  source : Source
}.
Arguments resource {R} _.
Arguments loadedCount {R} _.
Arguments toLoadCount {R} _.
Arguments source {R} _.

(** [loadedCount === toLoadCount] *)
Definition drained {R} (p : Progressed R) : bool :=
  (toLoadCount p =? loadedCount p)%Z.

End Resource.

(** ** The register module of [modules/register/register.module.ts] *)

Module ModulesRegister.

Inductive RegisterLifecycleState : Type :=
| INITIALIZED
| DISPOSED.

(** [RegisterPropsModel]; the fields hold whatever the caller put. *)
Record RegisterPropsModel : Type := {
  canvas : JS.value;
  location : JS.value;
  defaultCamera : JS.value;
  withMiniCamera : JS.value;
  startTimer : JS.value;
  fullScreen : JS.value
}.

(** The resize [ProxyEvent] *)
Record ResizeEvent : Type := {
  type : string;
  x : Z;
  y : Z;
  top : Q;
  left : Q;
  width : Z;
  height : Z
}.

(** [CoreModuleMessageEventData]: the props without [canvas] and
    [location], and the transferred surface *)
Record Subject : Type := {
  subject_defaultCamera : JS.value;
  subject_withMiniCamera : JS.value;
  subject_startTimer : JS.value;
  subject_fullScreen : JS.value;
  subject_canvas : Dom.OffscreenCanvas
}.

(** The props of [loadResources] *)
Record LoadProps : Type := {
  resources : list Resource.Source;
  disposeOnComplete : option bool;
  onMainThread : option bool;
  immediateLoad : option bool;
  onProgress : option nat;              (* the callbacks, by identity *)
  onProgressComplete : option nat
}.

(** What the module does to its collaborators, in order *)
Inductive Effect : Type :=
| registerSerializer_object3D
| console_error (message : string)
| workerPool_run_core (path : JS.value) (subject : Subject)
    (transferSubject : list Dom.OffscreenCanvas)
| workerPool_run_loader (resources : list Resource.Source)
| workerPool_terminateAll
| component_init (core : option Pool.WorkerThread)
| controller_init (canvas : option nat)
| thread_resize (t : Pool.Thread) (payload : ResizeEvent)
| thread_lifecycle_subscribe (t : Pool.Thread)
| thread_progress_subscribe (t : Pool.Thread)
| thread_progressCompleted_subscribe (t : Pool.Thread)
| thread_load (t : Pool.Thread)
| thread_dispose (t : Pool.Thread)
| thread_get (t : Pool.Thread) (what : string)
| callback (f : nat) (arg : Resource.Progressed JS.value).

(** The answer of [workerPool.run] *)
Inductive RunResult : Type :=
| Resolved (h : Pool.WorkerThread)
| Rejected (message : string).

Record State : Type := {
  document : Dom.Document;
  registerProps : RegisterPropsModel;
  component_canvas : option nat;
  component_core : option Pool.WorkerThread;
  lifecycle'' : Rx.Subject RegisterLifecycleState;
  effects : list Effect
}.

Definition construct (doc : Dom.Document) (props : RegisterPropsModel) : State := {|
  document := doc;
  registerProps := props;
  component_canvas := None;
  component_core := None;
  lifecycle'' := Rx.new;
  effects := []
|}.

Definition with_document (d : Dom.Document) (st : State) : State := {|
  document := d;
  registerProps := registerProps st;
  component_canvas := component_canvas st;
  component_core := component_core st;
  lifecycle'' := lifecycle'' st;
  effects := effects st
|}.

(** A document operation, run on the module's document *)
Definition dom {A} (m : M Dom.Document A) : M State A :=
  fun st =>
    let (r, d) := m (document st) in (r, with_document d st).

Definition set_canvas (c : nat) : M State unit :=
  modify (fun st => {|
    document := document st;
    registerProps := registerProps st;
    component_canvas := Some c;
    component_core := component_core st;
    lifecycle'' := lifecycle'' st;
    effects := effects st |}).

Definition set_core (core : Pool.WorkerThread) : M State unit :=
  modify (fun st => {|
    document := document st;
    registerProps := registerProps st;
    component_canvas := component_canvas st;
    component_core := Some core;
    lifecycle'' := lifecycle'' st;
    effects := effects st |}).

Definition lifecycle_next (e : RegisterLifecycleState) : M State unit :=
  modify (fun st => {|
    document := document st;
    registerProps := registerProps st;
    component_canvas := component_canvas st;
    component_core := component_core st;
    lifecycle'' := Rx.next e (lifecycle'' st);
    effects := effects st |}).

Definition effect (e : Effect) : M State unit :=
  modify (fun st => {|
    document := document st;
    registerProps := registerProps st;
    component_canvas := component_canvas st;
    component_core := component_core st;
    lifecycle'' := lifecycle'' st;
    effects := effects st ++ [e] |}).

Definition newline : string := String (Ascii.ascii_of_nat 10) "".

Definition canvas_error (message : string) : string :=
  "🛑 Unable to initialize the canvas:" +:+ newline +:+ message.

(** [RegisterModule._initCanvas] *)
Definition _initCanvas : M State unit :=
  try_catch
    (do fresh_canvas <- dom Dom.createElement_canvas;
     step set_canvas fresh_canvas;
     do st <- get;
     let supplied := canvas (registerProps st) in
     step match supplied with
          | JS.Element id =>
              when (Dom.is_canvas_element id (document st)) (set_canvas id)
          | _ => ret tt
          end;
     step match supplied with
          | JS.String selector =>
              do canvas_ <- dom (Dom.querySelector selector);
              match canvas_ with
              | Some id =>
                  when (Dom.is_canvas_element id (document st)) (set_canvas id)
              | None => ret tt
              end
          | _ => ret tt
          end;
     do st <- get;
     match component_canvas st with
     | Some c =>
         when (negb (Dom.attached c (document st)))
              (dom (Dom.body_appendChild c))
     | None => throw "Cannot read properties of undefined (reading 'parentElement')"
     end)%js
    (fun message => effect (console_error (canvas_error message))).

(** [RegisterModule._initComponent] *)
Definition _initComponent : M State unit :=
  (do st <- get;
   effect (component_init (component_core st)))%js.

(** The payload [_initController] builds *)
Definition resize_payload (st : State) (c : nat) : ResizeEvent :=
  let doc := document st in
  let rect := Dom.layout doc c in
  let full := JS.truthy (fullScreen (registerProps st)) in
  let canvas_width := default 0%Z (Dom.width <$> Dom.elements doc !! c) in
  let canvas_height := default 0%Z (Dom.height <$> Dom.elements doc !! c) in
  {| type := "resize";
     x := if full then Dom.innerWidth doc else canvas_width;
     y := if full then Dom.innerHeight doc else canvas_height;
     top := Dom.top rect;
     left := Dom.left rect;
     width := if full then Dom.innerWidth doc else canvas_width;
     height := if full then Dom.innerHeight doc else canvas_height |}.

(** [RegisterModule._initController] *)
Definition _initController : M State unit :=
  (do st <- get;
   step effect (controller_init (component_canvas st));
   match component_core st with
   | Some {| Pool.thread := Some t; Pool.worker := Some _ |} =>
       match component_canvas st with
       | None => throw "Cannot read properties of undefined (reading 'getBoundingClientRect')"
       | Some c =>
           step when (Pool.exposes_resize t)
                     (effect (thread_resize t (resize_payload st c)));
           effect (thread_lifecycle_subscribe t)
       end
   | _ => ret tt
   end)%js.

(** [RegisterModule._initCore]; [answer] is what [workerPool.run] gives. *)
Definition _initCore (answer : RunResult) : M State unit :=
  (do st <- get;
   match component_canvas st with
   | None => throw "Cannot read properties of undefined (reading 'transferControlToOffscreen')"
   | Some c =>
       do transferred <- dom (Dom.transferControlToOffscreen c);
       let rect := Dom.layout (document st) c in
       let offscreenCanvas :=
         {| Dom.placeholder := Dom.placeholder transferred;
            Dom.offscreen_width := Dom.clientWidth rect;
            Dom.offscreen_height := Dom.clientHeight rect |} in
       let props := registerProps st in
       step effect (workerPool_run_core (location props)
                      {| subject_defaultCamera := defaultCamera props;
                         subject_withMiniCamera := withMiniCamera props;
                         subject_startTimer := startTimer props;
                         subject_fullScreen := fullScreen props;
                         subject_canvas := offscreenCanvas |}
                      [offscreenCanvas]);
       match answer with
       | Rejected message => throw message
       | Resolved core =>
           match Pool.thread core, Pool.worker core with
           | Some _, Some _ => set_core core
           | _, _ => throw "Unable to retrieve core info."
           end
       end
   end)%js.

(** [RegisterModule.init] *)
Definition init (answer : RunResult) : M State unit :=
  (step effect registerSerializer_object3D;
   step _initCanvas;
   step _initCore answer;
   step _initComponent;
   step _initController;
   lifecycle_next INITIALIZED)%js.


(** The subscriber [loadResources] puts on [progress$] *)
Definition on_progress (props : LoadProps)
    (resource : Resource.Progressed JS.value) : M State unit :=
  match onProgress props with
  | Some f => effect (callback f resource)
  | None => ret tt
  end.

(** [RegisterModule.loadResources]: the handle and the subscriptions are
    what the caller gets; the events of the subscribed streams arrive
    later, see [deliver_progressCompleted]. *)
Definition loadResources (props : LoadProps) (answer : RunResult)
  : M State Pool.WorkerThread :=
  (step effect (workerPool_run_loader (resources props));
   match answer with
   | Rejected message => throw message
   | Resolved loaderWorkerThread =>
       match Pool.thread loaderWorkerThread with
       | Some t =>
           step effect (thread_progress_subscribe t);
           step effect (thread_progressCompleted_subscribe t);
           step when (JS.true_or_unset (immediateLoad props))
                     (effect (thread_load t));
           step effect (thread_get t "load");
           step effect (thread_get t "items");
           step effect (thread_get t "items");
           step effect (thread_get t "toLoad");
           step effect (thread_get t "loaded");
           step effect (thread_get t "resources");
           ret loaderWorkerThread
       | None => ret loaderWorkerThread
       end
   end)%js.


(** [RegisterModule.dispose] *)
Definition dispose : M State unit :=
  (step effect workerPool_terminateAll;
   lifecycle_next DISPOSED)%js.

(** How many times the pool was asked for the core worker *)
Definition spawn_requests (effs : list Effect) : nat :=
  length (List.filter
            (fun e => match e with workerPool_run_core _ _ _ => true | _ => false end)
            effs).

(** The orchestration that follows a successful spawn *)
Definition orchestrates (e : Effect) : bool :=
  match e with
  | component_init _ | controller_init _ | thread_resize _ _
  | thread_lifecycle_subscribe _ => true
  | _ => false
  end.

(** The resize events forwarded to the worker, oldest first *)
Definition forwarded_resizes (effs : list Effect) : list ResizeEvent :=
  omap (fun e => match e with thread_resize _ p => Some p | _ => None end) effs.

(** [RegisterModule.canvas] and [RegisterModule.core] *)
Definition canvas_ (st : State) : option nat := component_canvas st.
Definition core (st : State) : option Pool.WorkerThread := component_core st.

(** A step that leaves the core handle and the lifecycle stream alone
    and adds [new] to the effects *)
Definition quiet (st st' : State)
    (new : list Effect) : Prop :=
  component_core st' = component_core st
  /\ lifecycle'' st' = lifecycle'' st
  /\ effects st' = effects st ++ new.

(** What [_initController] adds to the effects *)
Definition controller_effects (st : State) (c : nat) : list Effect :=
  controller_init (Some c) ::
  match component_core st with
  | Some {| Pool.thread := Some t; Pool.worker := Some _ |} =>
      (if Pool.exposes_resize t then [thread_resize t (resize_payload st c)] else [])
      ++ [thread_lifecycle_subscribe t]
  | _ => []
  end.





End ModulesRegister.

(** ** The public entry points *)

Module RegisterEntry.
Import ModulesRegister.

Section WithCameraEnum.

(** The enum object [DefaultCameraType] of [common/enums/camera.enum],
    which is not among the sources: its property keys with their
    values. *)
Variable DefaultCameraType : list (string * JS.value).

(** [isUndefined] and [isBoolean] of [@quick-threejs/utils], which are
    not among the sources *)
Variables isUndefined isBoolean : JS.value -> bool.

(** [DefaultCameraType.PERSPECTIVE] *)
Definition PERSPECTIVE : JS.value :=
  default JS.Undefined (snd <$> List.find (fun kv => (fst kv =? "PERSPECTIVE")%string) DefaultCameraType).

(** [v in DefaultCameraType] *)
Definition in_DefaultCameraType (v : JS.value) : bool :=
  existsb (fun kv => (fst kv =? JS.to_property_key v)%string) DefaultCameraType.

(** [register] of [modules/register/register.module.ts], up to the
    props it registers in the container *)
Definition register (props : option RegisterPropsModel) : outcome RegisterPropsModel :=
  let location_ := default JS.Undefined (location <$> props) in
  if negb (JS.is_string location_) && negb (JS.instanceof_URL location_) then
    Thrown "Invalid register props detected. location path is required"
  else
    match props with
    | None => Thrown "Cannot set properties of undefined (setting 'defaultCamera')"
    | Some props =>
        Returned {|
          canvas := canvas props;
          location := location props;
          defaultCamera :=
            if negb (JS.truthy (defaultCamera props)
                     && in_DefaultCameraType (defaultCamera props))
            then PERSPECTIVE
            else defaultCamera props;
          withMiniCamera :=
            if isUndefined (withMiniCamera props)
               || negb (isBoolean (withMiniCamera props))
            then JS.Boolean false
            else withMiniCamera props;
          startTimer :=
            if isUndefined (startTimer props)
               || negb (isBoolean (startTimer props))
            then JS.Boolean true
            else startTimer props;
          fullScreen :=
            if isUndefined (fullScreen props)
               || negb (isBoolean (fullScreen props))
            then JS.Boolean true
            else fullScreen props
        |}
    end.

End WithCameraEnum.

(** A string enum whose keys are its values *)
Definition string_enum (names : list string) : list (string * JS.value) :=
  (fun n => (n, JS.String n)) <$> names.

End RegisterEntry.

(** The earlier entry point, [src/unnamed/part_000] *)

Module EarlierEntry.

(** [RegisterDto] *)
Record RegisterDto : Type := {
  canvas : JS.value;
  location : JS.value;
  useDefaultCamera : JS.value;
  withMiniCamera : JS.value;
  startTimer : JS.value
}.

(** [register], up to the props it registers in the container *)
Definition register (props : option RegisterDto) : outcome RegisterDto :=
  match props with
  | None => Thrown "Invalid register props detected. location path is required"
  | Some props =>
      if negb (JS.truthy (location props)) then
        Thrown "Invalid register props detected. location path is required"
      else
        Returned {|
          canvas := canvas props;
          location := location props;
          useDefaultCamera :=
            if JS.is_undefined (useDefaultCamera props)
            then JS.Boolean true
            else useDefaultCamera props;
          withMiniCamera := JS.Boolean (JS.truthy (withMiniCamera props));
          startTimer :=
            if JS.is_undefined (startTimer props)
            then JS.Boolean true
            else startTimer props
        |}
  end.

End EarlierEntry.

(** ** The register module of [core/register/register.module.ts] *)

Module CoreRegister.

(** [RegisterPropsBlueprint], as far as the module reads it *)
Record RegisterPropsBlueprint : Type := {
  canvas : JS.value;
  location : JS.value;
  fullScreen : JS.value;
  initOnConstruct : JS.value;
  loaderDataSources : list Resource.Source;
  onReady : option nat                     (* the callback, by identity *)
}.

Inductive Effect : Type :=
| console_error (message : string)
| workerPool_run (path : JS.value) (canvas : Dom.OffscreenCanvas)
    (transferSubject : list Dom.OffscreenCanvas)
| workerPool_terminateAll
| service_init (worker : option nat) (thread : option Pool.Thread)
| controller_init (canvas : nat)
| thread_resize_from_uiEventHandler (t : Pool.Thread)
| proxy_event_observables_assigned
| loader_init (sources : list Resource.Source)
| serializedLoad_subscribe
| offscreen_closePath (c : Dom.OffscreenCanvas)
| onReady_called (f : nat).

(** The answer of [workerPool.run]: [[workerThread, queued]] *)
Inductive RunResult : Type :=
| Resolved (workerThread : option Pool.WorkerThread) (queued : bool)
| Rejected (message : string).

(** The module with its [RegisterService] *)
Record State : Type := {
  document : Dom.Document;
  props : RegisterPropsBlueprint;
  initialized : bool;
  service_canvas : option nat;
  service_offscreenCanvas : option Dom.OffscreenCanvas;
  service_worker : option nat;
  service_thread : option Pool.Thread;
  effects : list Effect
}.

(** The module as the container builds it, before any [init] *)
Definition construct (doc : Dom.Document) (p : RegisterPropsBlueprint) : State := {|
  document := doc;
  props := p;
  initialized := false;
  service_canvas := None;
  service_offscreenCanvas := None;
  service_worker := None;
  service_thread := None;
  effects := []
|}.

Definition with_document (d : Dom.Document) (st : State) : State := {|
  document := d;
  props := props st;
  initialized := initialized st;
  service_canvas := service_canvas st;
  service_offscreenCanvas := service_offscreenCanvas st;
  service_worker := service_worker st;
  service_thread := service_thread st;
  effects := effects st
|}.

Definition dom {A} (m : M Dom.Document A) : M State A :=
  fun st =>
    let (r, d) := m (document st) in (r, with_document d st).

Definition set_canvas (c : option nat) : M State unit :=
  modify (fun st => {|
    document := document st;
    props := props st;
    initialized := initialized st;
    service_canvas := c;
    service_offscreenCanvas := service_offscreenCanvas st;
    service_worker := service_worker st;
    service_thread := service_thread st;
    effects := effects st |}).

Definition set_offscreenCanvas (c : Dom.OffscreenCanvas) : M State unit :=
  modify (fun st => {|
    document := document st;
    props := props st;
    initialized := initialized st;
    service_canvas := service_canvas st;
    service_offscreenCanvas := Some c;
    service_worker := service_worker st;
    service_thread := service_thread st;
    effects := effects st |}).

Definition set_worker_thread (w : option nat) (t : option Pool.Thread) : M State unit :=
  modify (fun st => {|
    document := document st;
    props := props st;
    initialized := initialized st;
    service_canvas := service_canvas st;
    service_offscreenCanvas := service_offscreenCanvas st;
    service_worker := w;
    service_thread := t;
    effects := effects st |}).

Definition set_initialized (b : bool) : M State unit :=
  modify (fun st => {|
    document := document st;
    props := props st;
    initialized := b;
    service_canvas := service_canvas st;
    service_offscreenCanvas := service_offscreenCanvas st;
    service_worker := service_worker st;
    service_thread := service_thread st;
    effects := effects st |}).

Definition effect (e : Effect) : M State unit :=
  modify (fun st => {|
    document := document st;
    props := props st;
    initialized := initialized st;
    service_canvas := service_canvas st;
    service_offscreenCanvas := service_offscreenCanvas st;
    service_worker := service_worker st;
    service_thread := service_thread st;
    effects := effects st ++ [e] |}).

(** The mark [_initCanvas] puts on the canvas it creates *)
Definition reactive : string := "reactive".

Definition marked (c : nat) (doc : Dom.Document) : bool :=
  bool_decide (Dom.data_of c reactive doc = Some "true").

(** [RegisterModule._initCanvas] *)
Definition _initCanvas : M State unit :=
  try_catch
    (do st <- get;
     let supplied := canvas (props st) in
     step match supplied with
          | JS.Element id =>
              when (Dom.is_canvas_element id (document st)) (set_canvas (Some id))
          | _ => ret tt
          end;
     step match supplied with
          | JS.String selector =>
              do canvas_ <- dom (Dom.querySelector selector);
              match canvas_ with
              | Some id =>
                  when (Dom.is_canvas_element id (document st)) (set_canvas (Some id))
              | None => ret tt
              end
          | _ => ret tt
          end;
     do st <- get;
     match service_canvas st with
     | Some _ => ret tt
     | None =>
         do created <- dom Dom.createElement_canvas;
         step set_canvas (Some created);
         step dom (Dom.set_data created reactive "true");
         dom (Dom.body_appendChild created)
     end)%js
    (fun message =>
       effect (console_error (ModulesRegister.canvas_error message))).

(** [RegisterModule._initService] *)
Definition _initService : M State unit :=
  (do st <- get;
   effect (service_init (service_worker st) (service_thread st)))%js.

(** [RegisterModule._initController]; the payload of the resize it
    forwards is built by [RegisterController.uiEventHandler], which is not
    among the sources. *)
Definition _initController : M State unit :=
  (do st <- get;
   match service_canvas st with
   | None => throw "Canvas element is not initialized."
   | Some c =>
       step effect (controller_init c);
       match service_thread st, service_worker st with
       | Some t, Some _ =>
           when (JS.truthy (fullScreen (props st)))
                (effect (thread_resize_from_uiEventHandler t))
       | _, _ => ret tt
       end
   end)%js.

(** [RegisterModule._initWorkerThread]; [answer] is what
    [workerPool.run] gives. *)
Definition _initWorkerThread (answer : RunResult) : M State unit :=
  (do st <- get;
   match service_canvas st with
   | None => throw "Canvas element is not initialized."
   | Some c =>
       do transferred <- dom (Dom.transferControlToOffscreen c);
       let rect := Dom.layout (document st) c in
       let offscreenCanvas :=
         {| Dom.placeholder := Dom.placeholder transferred;
            Dom.offscreen_width := Dom.clientWidth rect;
            Dom.offscreen_height := Dom.clientHeight rect |} in
       step set_offscreenCanvas offscreenCanvas;
       step effect (workerPool_run (location (props st)) offscreenCanvas
                      [offscreenCanvas]);
       match answer with
       | Rejected message => throw message
       | Resolved workerThread queued =>
           match workerThread with
           | None => throw "Unable to retrieve the worker-thread info."
           | Some workerThread =>
               if queued then throw "Unable to retrieve the worker-thread info."
               else set_worker_thread (Pool.worker workerThread)
                                      (Pool.thread workerThread)
           end
       end
   end)%js.

(** [RegisterModule._initObservableProxyEvents] *)
Definition _initObservableProxyEvents : M State unit :=
  effect proxy_event_observables_assigned.

(** [RegisterModule._initLoader] *)
Definition _initLoader : M State unit :=
  (do st <- get;
   step effect (loader_init (loaderDataSources (props st)));
   effect serializedLoad_subscribe)%js.

(** [RegisterModule.init] *)
Definition init (answer : RunResult) : M State unit :=
  (do st <- get;
   if initialized st then ret tt
   else
     step _initCanvas;
     step _initWorkerThread answer;
     step _initService;
     step _initController;
     step _initObservableProxyEvents;
     step _initLoader;
     match onReady (props st) with
     | Some f => effect (onReady_called f)
     | None => ret tt
     end)%js.

(** [RegisterModule.dispose]; [terminateAll], [getContext] and
    [closePath] are taken to return normally. *)
Definition dispose : M State unit :=
  (step effect workerPool_terminateAll;
   do st <- get;
   step match service_offscreenCanvas st with
        | Some c => effect (offscreen_closePath c)
        | None => ret tt
        end;
   step match service_canvas st with
        | Some c =>
            if marked c (document st) then
              step dom (Dom.body_removeChild c);
              step dom (Dom.remove c);
              set_canvas None
            else ret tt
        | None => ret tt
        end;
   set_initialized false)%js.

(** How many times the pool was asked for the worker *)
Definition spawn_requests (effs : list Effect) : nat :=
  length (List.filter
            (fun e => match e with workerPool_run _ _ _ => true | _ => false end)
            effs).

(** The orchestration that follows a successful spawn *)
Definition orchestrates (e : Effect) : bool :=
  match e with
  | service_init _ _ | controller_init _ | thread_resize_from_uiEventHandler _
  | proxy_event_observables_assigned | loader_init _ | serializedLoad_subscribe
  | onReady_called _ => true
  | _ => false
  end.

(** [RegisterModule.getCanvas], [getThread], [getWorker], [isInitialized] *)
Definition getCanvas (st : State) : option nat := service_canvas st.
Definition getThread (st : State) : option Pool.Thread := service_thread st.
Definition getWorker (st : State) : option nat := service_worker st.
Definition isInitialized (st : State) : bool := initialized st.

(** A step that leaves the worker, the thread and the flag alone and
    adds [new] to the effects *)
Definition quiet (st st' : State)
    (new : list Effect) : Prop :=
  service_worker st' = service_worker st
  /\ service_thread st' = service_thread st
  /\ initialized st' = initialized st
  /\ effects st' = effects st ++ new.

(** What [dispose] adds to the effects *)
Definition dispose_effects (st : State) : list Effect :=
  workerPool_terminateAll ::
  match service_offscreenCanvas st with
  | Some c => [offscreen_closePath c]
  | None => []
  end.

(** The state [dispose] leaves, given the document and canvas it leaves *)
Definition disposed (doc : Dom.Document) (canvas : option nat) (st : State) : State := {|
  document := doc;
  props := props st;
  initialized := false;
  service_canvas := canvas;
  service_offscreenCanvas := service_offscreenCanvas st;
  service_worker := service_worker st;
  service_thread := service_thread st;
  effects := effects st ++ dispose_effects st
|}.

End CoreRegister.

(** ** The loader controller of [core/app/loader/loader.controller.ts] *)

Module LoaderController.

Section WithDeserializer.

(** [LOADER_SERIALIZED_LOAD_TOKEN] of [common], which is not among the
    sources *)
Variable LOADER_SERIALIZED_LOAD_TOKEN : string.

(** The scene-graph objects and animation clips of three.js, with
    [deserializeObject3D] of [@quick-threejs/utils] and
    [AnimationClip.parse]; either throws on text it cannot read. *)
Variables Object3D AnimationClip AnimationClipJSON : Type.
Variable deserializeObject3D : string -> outcome Object3D.
Variable AnimationClip_parse : AnimationClipJSON -> outcome AnimationClip.

(** The serialized GLTF resource, each field optional *)
Record SerializedGltf : Type := {
  animations : option (list AnimationClipJSON);
  cameras : option (list string);
  scene : option string;
  scenes : option (list string);
  userData : JS.value
}.

(** [payload.resource]: a GLTF record, or any other value *)
Inductive SerializedResource : Type :=
| plain (v : JS.value)
| gltf (g : SerializedGltf).

Record Gltf : Type := {
  loaded_animations : option (list AnimationClip);
  loaded_cameras : option (list Object3D);
  loaded_scene : Object3D;
  loaded_scenes : option (list Object3D);
  loaded_userData : JS.value
}.

(** A loaded resource: a deserialized GLTF, or the resource as it
    came *)
Inductive LoadedResource : Type :=
| as_it_came (r : SerializedResource)
| loaded_gltf (g : Gltf).

Definition SerializedLoadedResourcePayload : Type :=
  Resource.Progressed SerializedResource.
Definition LoadedResourcePayload : Type :=
  Resource.Progressed LoadedResource.

(** [event.data]: [{token, payload}], or nothing *)
Record Envelope : Type := {
  token : JS.value;
  payload : option SerializedLoadedResourcePayload
}.

Record MessageEvent : Type := {
  data : option Envelope
}.

(** [!!resource] *)
Definition truthy_resource (r : SerializedResource) : bool :=
  match r with
  | plain v => JS.truthy v
  | gltf _ => true
  end.

(** [token === LOADER_SERIALIZED_LOAD_TOKEN] *)
Definition token_matches (v : JS.value) : bool :=
  match v with
  | JS.String s => (s =? LOADER_SERIALIZED_LOAD_TOKEN)%string
  | _ => false
  end.

(** The predicate of the [filter] of [load$] *)
Definition accepted (event : MessageEvent) : bool :=
  match data event with
  | Some envelope =>
      token_matches (token envelope)
      && match payload envelope with
         | Some p => truthy_resource (Resource.resource p)
         | None => false
         end
  | None => false
  end.

(** [xs?.map(f)], where [f] may throw *)
Fixpoint map_throwing {A B} (f : A -> outcome B) (xs : list A) : outcome (list B) :=
  match xs with
  | [] => Returned []
  | x :: xs =>
      match f x with
      | Thrown e => Thrown e
      | Returned y =>
          match map_throwing f xs with
          | Thrown e => Thrown e
          | Returned ys => Returned (y :: ys)
          end
      end
  end.

Definition optional_map_throwing {A B} (f : A -> outcome B)
    (xs : option (list A)) : outcome (option (list B)) :=
  match xs with
  | None => Returned None
  | Some xs =>
      match map_throwing f xs with
      | Thrown e => Thrown e
      | Returned ys => Returned (Some ys)
      end
  end.

(** The resource read as a GLTF record; a value that is not one has
    none of the fields. *)
Definition as_gltf (r : SerializedResource) : SerializedGltf :=
  match r with
  | gltf g => g
  | plain _ => {| animations := None; cameras := None; scene := None;
                  scenes := None; userData := JS.Undefined |}
  end.

Definition with_resource {R R'} (r : R') (p : Resource.Progressed R)
  : Resource.Progressed R' := {|
  Resource.resource := r;
  Resource.loadedCount := Resource.loadedCount p;
  Resource.toLoadCount := Resource.toLoadCount p;
  Resource.source := Resource.source p
|}.

(** The function of the [map] of [load$], on an accepted payload *)
Definition deserialize_payload (p : SerializedLoadedResourcePayload)
  : outcome LoadedResourcePayload :=
  if truthy_resource (Resource.resource p)
     && (Resource.type (Resource.source p) =? "gltfModel")%string
  then
    let resource := as_gltf (Resource.resource p) in
    match optional_map_throwing AnimationClip_parse (animations resource) with
    | Thrown e => Thrown e
    | Returned animations =>
        match optional_map_throwing deserializeObject3D (cameras resource) with
        | Thrown e => Thrown e
        | Returned cameras =>
            match deserializeObject3D (default "" (scene resource)) with
            | Thrown e => Thrown e
            | Returned scene =>
                match optional_map_throwing deserializeObject3D (scenes resource) with
                | Thrown e => Thrown e
                | Returned scenes =>
                    Returned
                      (with_resource
                         (loaded_gltf
                            {| loaded_animations := animations;
                               loaded_cameras := cameras;
                               loaded_scene := scene;
                               loaded_scenes := scenes;
                               loaded_userData := userData resource |})
                         p)
                end
            end
        end
    end
  else Returned (with_resource (as_it_came (Resource.resource p)) p).

(** What a subscriber of a stream has received: the values, and the
    error that ended the stream if one did. *)
Record Observed (A : Type) : Type := {
  values : list A;
  failure : option string
}.
Arguments values {A} _.
Arguments failure {A} _.

(** [load$]: the messages of the worker, filtered and mapped; an
    exception in the mapping ends the stream with that error. *)
Fixpoint load' (events : list MessageEvent) : Observed LoadedResourcePayload :=
  match events with
  | [] => {| values := []; failure := None |}
  | event :: events =>
      if accepted event then
        match data event ≫= payload with
        | Some p =>
            match deserialize_payload p with
            | Returned v =>
                let rest := load' events in
                {| values := v :: values rest; failure := failure rest |}
            | Thrown e => {| values := []; failure := Some e |}
            end
        | None => load' events
        end
      else load' events
  end.

(** [loadCompleted$] *)
Definition loadCompleted' (events : list MessageEvent)
  : Observed LoadedResourcePayload :=
  let loaded := load' events in
  {| values := List.filter Resource.drained (values loaded);
     failure := failure loaded |}.

End WithDeserializer.

Arguments values {A} _.
Arguments failure {A} _.
Arguments animations {AnimationClipJSON} _.
Arguments cameras {AnimationClipJSON} _.
Arguments scene {AnimationClipJSON} _.
Arguments scenes {AnimationClipJSON} _.
Arguments userData {AnimationClipJSON} _.
Arguments plain {AnimationClipJSON} v.
Arguments gltf {AnimationClipJSON} g.
Arguments loaded_animations {Object3D AnimationClip} _.
Arguments loaded_cameras {Object3D AnimationClip} _.
Arguments loaded_scene {Object3D AnimationClip} _.
Arguments loaded_scenes {Object3D AnimationClip} _.
Arguments loaded_userData {Object3D AnimationClip} _.
Arguments as_it_came {Object3D AnimationClip AnimationClipJSON} r.
Arguments loaded_gltf {Object3D AnimationClip AnimationClipJSON} g.
Arguments token {AnimationClipJSON} _.
Arguments payload {AnimationClipJSON} _.
Arguments data {AnimationClipJSON} _.
Arguments truthy_resource {AnimationClipJSON} r.
Arguments as_gltf {AnimationClipJSON} r.
Arguments accepted LOADER_SERIALIZED_LOAD_TOKEN {AnimationClipJSON} event.
Arguments deserialize_payload {Object3D AnimationClip AnimationClipJSON}
  deserializeObject3D AnimationClip_parse p.
Arguments load' LOADER_SERIALIZED_LOAD_TOKEN
  {Object3D AnimationClip AnimationClipJSON}
  deserializeObject3D AnimationClip_parse events.
Arguments loadCompleted' LOADER_SERIALIZED_LOAD_TOKEN
  {Object3D AnimationClip AnimationClipJSON}
  deserializeObject3D AnimationClip_parse events.

End LoaderController.

(** ** The graph serializer

    [serializeObject3D], [deserializeObject3D] and [object3DSerializer] are
    code of [@quick-threejs/utils] and [common/serializers], which is not
    among the sources; only their callers are ([LoaderController.load$],
    [RegisterModule.init]). *)

Module GraphSerializer.

#[local] Set Warnings "-register-all".

Section WithData.

(** The plain data a node carries or refers to *)
Variables Transform Geometry Material Clip : Type.

(** A live scene-graph object: its node type tag, its transform, the
    geometry and material it shares with other nodes, held by
    reference into the heap of its context, and its children in
    order. *)
Inductive Object3D : Type :=
| object3D (kind : string) (transform : Transform)
    (geometry material : option nat) (children : list Object3D).

(** The shared objects of an execution context, by address *)
Record Heap : Type := {
  geometries : gmap nat Geometry;
  materials : gmap nat Material
}.

(** Modelled from the spec: the encoded form of a scene-graph object,
    which is missing with the serializer.  "[{kind: node type tag,
    transform, geometryRef, materialRef, children: ordered sequence of
    SerializedGraphNode}], plus side tables for shared
    geometry/material/animation-clip data to avoid duplication." *)
Inductive SerializedGraphNode : Type :=
| node (kind : string) (transform : Transform)
    (geometryRef materialRef : option nat)
    (children : list SerializedGraphNode).

Record SerializedGraph : Type := {
  root : SerializedGraphNode;
  geometry_table : gmap nat Geometry;
  material_table : gmap nat Material;
  clip_table : list Clip
}.

Definition ref_set (r : option nat) : gset nat :=
  match r with
  | Some a => {[ a ]}
  | None => ∅
  end.

(** The geometries, and the materials, a tree refers to *)
Fixpoint geometry_refs (t : Object3D) : gset nat :=
  match t with
  | object3D _ _ g _ children =>
      ref_set g ∪ ⋃ (List.map geometry_refs children)
  end.

Fixpoint material_refs (t : Object3D) : gset nat :=
  match t with
  | object3D _ _ _ m children =>
      ref_set m ∪ ⋃ (List.map material_refs children)
  end.

(** The tree is a live one of the heap: what it refers to is there. *)
Definition live (h : Heap) (t : Object3D) : Prop :=
  geometry_refs t ⊆ dom (geometries h)
  /\ material_refs t ⊆ dom (materials h).

(** Modelled from the spec: encoding, which is missing.  The nodes are
    copied in order with their references; each shared geometry and
    material the tree refers to goes once into its side table. *)
Fixpoint encode_node (t : Object3D) : SerializedGraphNode :=
  match t with
  | object3D kind transform g m children =>
      node kind transform g m (List.map encode_node children)
  end.

Definition encode (h : Heap) (t : Object3D) (clips : list Clip)
  : SerializedGraph := {|
  root := encode_node t;
  geometry_table :=
    filter (fun entry => entry.1 ∈ geometry_refs t) (geometries h);
  material_table :=
    filter (fun entry => entry.1 ∈ material_refs t) (materials h);
  clip_table := clips
|}.

(** Modelled from the spec: decoding, which is missing.  "Reconstructed
    into a fresh, independently-owned object graph on the receiving
    side": every entry of a side table becomes a new object of the
    receiving heap, and the references of the nodes are resolved in
    the side tables only; a reference that is not there makes the
    decoding fail. *)
Fixpoint allocate {D : Type} (entries : list (nat * D))
    (heap : gmap nat D) (renaming : gmap nat nat)
  : gmap nat D * gmap nat nat :=
  match entries with
  | [] => (heap, renaming)
  | (r, d) :: entries =>
      let a := fresh (dom heap) in
      allocate entries (<[a := d]> heap) (<[r := a]> renaming)
  end.

Definition resolve_ref (renaming : gmap nat nat) (r : option nat)
  : option (option nat) :=
  match r with
  | None => Some None
  | Some r => Some <$> renaming !! r
  end.

Fixpoint decode_node (geometry_at material_at : gmap nat nat)
    (s : SerializedGraphNode) : option Object3D :=
  match s with
  | node kind transform g m children =>
      g' ← resolve_ref geometry_at g;
      m' ← resolve_ref material_at m;
      children' ← mapM (decode_node geometry_at material_at) children;
      Some (object3D kind transform g' m' children')
  end.

Definition decode (receiver : Heap) (s : SerializedGraph)
  : option (Heap * Object3D * list Clip) :=
  let (geometries', geometry_at) :=
    allocate (map_to_list (geometry_table s)) (geometries receiver) ∅ in
  let (materials', material_at) :=
    allocate (map_to_list (material_table s)) (materials receiver) ∅ in
  t ← decode_node geometry_at material_at (root s);
  Some ({| geometries := geometries'; materials := materials' |},
        t, clip_table s).

(** The node type tags in pre-order *)
Fixpoint preorder_kinds (t : Object3D) : list string :=
  match t with
  | object3D kind _ _ _ children =>
      kind :: List.concat (List.map preorder_kinds children)
  end.

(** The shape of the hierarchy *)
Inductive Shape : Type :=
| shape (children : list Shape).

Fixpoint shape_of (t : Object3D) : Shape :=
  match t with
  | object3D _ _ _ _ children => shape (List.map shape_of children)
  end.

(** The tree with the data its references stand for *)
Inductive Resolved : Type :=
| resolved (kind : string) (transform : Transform)
    (geometry : option Geometry) (material : option Material)
    (children : list Resolved).

Definition dereference {D : Type} (heap : gmap nat D) (r : option nat)
  : option (option D) :=
  match r with
  | None => Some None
  | Some a => Some <$> heap !! a
  end.

Fixpoint resolve (h : Heap) (t : Object3D) : option Resolved :=
  match t with
  | object3D kind transform g m children =>
      g' ← dereference (geometries h) g;
      m' ← dereference (materials h) m;
      children' ← mapM (resolve h) children;
      Some (resolved kind transform g' m' children')
  end.

(** The tree with every reference replaced by what it is renamed to *)
Definition rename_ref (renaming : gmap nat nat) (r : option nat) : option nat :=
  r ≫= fun a => renaming !! a.

Fixpoint rename (geometry_at material_at : gmap nat nat) (t : Object3D)
  : Object3D :=
  match t with
  | object3D kind transform g m children =>
      object3D kind transform
        (rename_ref geometry_at g) (rename_ref material_at m)
        (List.map (rename geometry_at material_at) children)
  end.

End WithData.

Arguments object3D {Transform} kind transform geometry material children.
Arguments node {Transform} kind transform geometryRef materialRef children.
Arguments geometries {Geometry Material} _.
Arguments materials {Geometry Material} _.
Arguments Build_Heap {Geometry Material} _ _.
Arguments root {Transform Geometry Material Clip} _.
Arguments geometry_table {Transform Geometry Material Clip} _.
Arguments material_table {Transform Geometry Material Clip} _.
Arguments clip_table {Transform Geometry Material Clip} _.
Arguments geometry_refs {Transform} t.
Arguments material_refs {Transform} t.
Arguments live {Transform Geometry Material} h t.
Arguments encode_node {Transform} t.
Arguments encode {Transform Geometry Material Clip} h t clips.
Arguments decode_node {Transform} geometry_at material_at s.
Arguments decode {Transform Geometry Material Clip} receiver s.
Arguments preorder_kinds {Transform} t.
Arguments shape_of {Transform} t.
Arguments resolved {Transform Geometry Material} kind transform geometry material children.
Arguments resolve {Transform Geometry Material} h t.
Arguments rename {Transform} geometry_at material_at t.

(** Every reference of the tree is renamed. *)
Definition covers (renaming : gmap nat nat) (refs : gset nat) : Prop :=
  forall r, r ∈ refs -> is_Some (renaming !! r).

(** Every reference of [refs] is renamed to an address of [dst] that
    holds what the reference held in [src], and was free in [old]. *)
Definition transports {D : Type} (renaming : gmap nat nat)
    (src old dst : gmap nat D) (refs : gset nat) : Prop :=
  forall r, r ∈ refs ->
    exists a d,
      renaming !! r = Some a /\ src !! r = Some d /\ dst !! a = Some d
      /\ old !! a = None.

End GraphSerializer.

(** ** The surface a canvas input designates

    The order the specification gives: the supplied element if it is a
    canvas element, else the element a supplied selector resolves to if
    that is a canvas element, else none (and a fallback is to be created). *)

Module Surface.

Definition designated (supplied : JS.value) (doc : Dom.Document) : option nat :=
  match supplied with
  | JS.Element id =>
      if Dom.is_canvas_element id doc then Some id else None
  | JS.String selector =>
      match Dom.selectors doc selector with
      | Returned (Some id) =>
          if Dom.is_canvas_element id doc then Some id else None
      | _ => None
      end
  | _ => None
  end.

(** The selector lookup throws: the message of the exception. *)
Definition selector_failure (supplied : JS.value) (doc : Dom.Document)
  : option string :=
  match supplied with
  | JS.String selector =>
      match Dom.selectors doc selector with
      | Thrown e => Some e
      | Returned _ => None
      end
  | _ => None
  end.

(** The element object [document.createElement] will make next *)
Definition next_element (doc : Dom.Document) : nat :=
  fresh (dom (Dom.elements doc)).

(** The fallback canvas of [core/register], as [_initCanvas] leaves it *)
Definition marked_fallback : Dom.HTMLElement :=
  Dom.with_parent (Some Dom.Body)
    (Dom.with_data CoreRegister.reactive "true" Dom.new_canvas).

(** The fallback canvas of [modules/register] *)
Definition plain_fallback : Dom.HTMLElement :=
  Dom.with_parent (Some Dom.Body) Dom.new_canvas.

End Surface.

(** ** Concrete pages, props and scenes *)

Module Fixtures.

(** A page with a body and nothing else; no selector resolves. *)
Definition empty_page : Dom.Document := {|
  Dom.elements := ∅;
  Dom.has_body := true;
  Dom.selectors := fun _ => Returned None;
  Dom.layout := fun _ => {| Dom.clientWidth := 300; Dom.clientHeight := 150;
                            Dom.top := 0; Dom.left := 0 |};
  Dom.innerWidth := 1280;
  Dom.innerHeight := 720
|}.

Definition a_thread : Pool.Thread :=
  {| Pool.thread_id := 1; Pool.exposes_resize := true |}.

Definition a_handle : Pool.WorkerThread :=
  {| Pool.thread := Some a_thread; Pool.worker := Some 1%nat |}.

Definition worker_only : Pool.WorkerThread :=
  {| Pool.thread := None; Pool.worker := Some 1%nat |}.

Definition props_A : ModulesRegister.RegisterPropsModel := {|
  ModulesRegister.canvas := JS.Undefined;
  ModulesRegister.location := JS.String "./main.worker.ts";
  ModulesRegister.defaultCamera := JS.String "PERSPECTIVE";
  ModulesRegister.withMiniCamera := JS.Boolean false;
  ModulesRegister.startTimer := JS.Boolean true;
  ModulesRegister.fullScreen := JS.Boolean true
|}.

Definition props_B : CoreRegister.RegisterPropsBlueprint := {|
  CoreRegister.canvas := JS.Undefined;
  CoreRegister.location := JS.String "./main.worker.ts";
  CoreRegister.fullScreen := JS.Boolean true;
  CoreRegister.initOnConstruct := JS.Boolean true;
  CoreRegister.loaderDataSources := [];
  CoreRegister.onReady := None
|}.

End Fixtures.

Module CanvasFixtures.

(** A page with one canvas in the body, found by [#app]; [#(] is not a
    valid selector. *)
Definition page : Dom.Document := {|
  Dom.elements :=
    {[ 0%nat := {| Dom.is_canvas := true;
                   Dom.parentElement := Some Dom.Body;
                   Dom.dataset := ∅;
                   Dom.width := 800;
                   Dom.height := 600;
                   Dom.transferred := false |} ]};
  Dom.has_body := true;
  Dom.selectors := fun selector =>
    if (selector =? "#app")%string then Returned (Some 0%nat)
    else if (selector =? "#(")%string
         then Thrown "Failed to execute 'querySelector' on 'Document': '#(' is not a valid selector."
         else Returned None;
  Dom.layout := fun _ => {| Dom.clientWidth := 800; Dom.clientHeight := 600;
                            Dom.top := 0; Dom.left := 0 |};
  Dom.innerWidth := 1280;
  Dom.innerHeight := 720
|}.

Definition props_A (canvas : JS.value) : ModulesRegister.RegisterPropsModel := {|
  ModulesRegister.canvas := canvas;
  ModulesRegister.location := JS.String "./main.worker.ts";
  ModulesRegister.defaultCamera := JS.String "PERSPECTIVE";
  ModulesRegister.withMiniCamera := JS.Boolean false;
  ModulesRegister.startTimer := JS.Boolean true;
  ModulesRegister.fullScreen := JS.Boolean true
|}.

Definition props_B (canvas : JS.value) : CoreRegister.RegisterPropsBlueprint := {|
  CoreRegister.canvas := canvas;
  CoreRegister.location := JS.String "./main.worker.ts";
  CoreRegister.fullScreen := JS.Boolean true;
  CoreRegister.initOnConstruct := JS.Boolean true;
  CoreRegister.loaderDataSources := [];
  CoreRegister.onReady := None
|}.

End CanvasFixtures.

Module ResizeFixtures.

(** A page whose only element is a canvas of the given size, in the
    body; the viewport is 1280 by 720. *)
Definition page (w h : Z) : Dom.Document := {|
  Dom.elements :=
    {[ 0%nat := {| Dom.is_canvas := true;
                   Dom.parentElement := Some Dom.Body;
                   Dom.dataset := ∅;
                   Dom.width := w;
                   Dom.height := h;
                   Dom.transferred := true |} ]};
  Dom.has_body := true;
  Dom.selectors := fun _ => Returned None;
  Dom.layout := fun _ => {| Dom.clientWidth := w; Dom.clientHeight := h;
                            Dom.top := 8; Dom.left := 16 |};
  Dom.innerWidth := 1280;
  Dom.innerHeight := 720
|}.

Definition props (fullScreen : bool) : ModulesRegister.RegisterPropsModel := {|
  ModulesRegister.canvas := JS.Element 0;
  ModulesRegister.location := JS.String "./main.worker.ts";
  ModulesRegister.defaultCamera := JS.String "PERSPECTIVE";
  ModulesRegister.withMiniCamera := JS.Boolean false;
  ModulesRegister.startTimer := JS.Boolean true;
  ModulesRegister.fullScreen := JS.Boolean fullScreen
|}.

(** The module after [_initCanvas], [_initCore] and [_initComponent] *)
Definition ready (w h : Z) (fullScreen : bool) : ModulesRegister.State := {|
  ModulesRegister.document := page w h;
  ModulesRegister.registerProps := props fullScreen;
  ModulesRegister.component_canvas := Some 0%nat;
  ModulesRegister.component_core := Some Fixtures.a_handle;
  ModulesRegister.lifecycle'' := Rx.new;
  ModulesRegister.effects := []
|}.

End ResizeFixtures.

Module ReleaseFixtures.

(** A page whose only element is a canvas in the body, which its author
    gave the attribute [data-reactive="true"] or not. *)
Definition page (data : gmap string string) : Dom.Document := {|
  Dom.elements :=
    {[ 0%nat := {| Dom.is_canvas := true;
                   Dom.parentElement := Some Dom.Body;
                   Dom.dataset := data;
                   Dom.width := 800;
                   Dom.height := 600;
                   Dom.transferred := false |} ]};
  Dom.has_body := true;
  Dom.selectors := fun _ => Returned None;
  Dom.layout := fun _ => {| Dom.clientWidth := 800; Dom.clientHeight := 600;
                            Dom.top := 0; Dom.left := 0 |};
  Dom.innerWidth := 1280;
  Dom.innerHeight := 720
|}.

(** The caller supplies that canvas. *)
Definition props : CoreRegister.RegisterPropsBlueprint := {|
  CoreRegister.canvas := JS.Element 0;
  CoreRegister.location := JS.String "./main.worker.ts";
  CoreRegister.fullScreen := JS.Boolean true;
  CoreRegister.initOnConstruct := JS.Boolean true;
  CoreRegister.loaderDataSources := [];
  CoreRegister.onReady := None
|}.


End ReleaseFixtures.

Module EntryFixtures.

Definition cameras : list (string * JS.value) :=
  RegisterEntry.string_enum ["PERSPECTIVE"; "ORTHOGRAPHIC"].

(** Props with a URL for location and nothing else set but a camera *)
Definition bare : ModulesRegister.RegisterPropsModel := {|
  ModulesRegister.canvas := JS.Undefined;
  ModulesRegister.location := JS.Url "http://localhost:5173/src/main.worker.ts";
  ModulesRegister.defaultCamera := JS.String "ORTHOGRAPHIC";
  ModulesRegister.withMiniCamera := JS.Undefined;
  ModulesRegister.startTimer := JS.Number 0;
  ModulesRegister.fullScreen := JS.Boolean false
|}.

Definition earlier (location startTimer withMiniCamera : JS.value)
  : EarlierEntry.RegisterDto := {|
  EarlierEntry.canvas := JS.Undefined;
  EarlierEntry.location := location;
  EarlierEntry.useDefaultCamera := JS.Undefined;
  EarlierEntry.withMiniCamera := withMiniCamera;
  EarlierEntry.startTimer := startTimer
|}.

End EntryFixtures.

Module GraphFixtures.
Import GraphSerializer.

(** A scene with two meshes sharing geometry 5, with materials 2 and 9,
    and a camera in a group; transforms are positions. *)
Definition scene : Object3D (Z * Z * Z) :=
  object3D "Scene" (0, 0, 0)%Z None None
    [ object3D "Mesh" (1, 0, 0)%Z (Some 5%nat) (Some 2%nat) [];
      object3D "Group" (0, 2, 0)%Z None None
        [ object3D "Mesh" (0, 0, 3)%Z (Some 5%nat) (Some 9%nat) [];
          object3D "PerspectiveCamera" (0, 0, 10)%Z None None [] ] ].

Definition sender : Heap string string := {|
  geometries := {[ 5%nat := "TorusKnotGeometry"; 6%nat := "BoxGeometry" ]};
  materials := {[ 2%nat := "MeshNormalMaterial"; 9%nat := "MeshBasicMaterial" ]}
|}.

(** The receiver already owns a geometry at address 0. *)
Definition receiver : Heap string string := {|
  geometries := {[ 0%nat := "PlaneGeometry" ]};
  materials := ∅
|}.

Definition clips : list string := ["Walk"; "Run"].

End GraphFixtures.

(** * The rest of the cited files

    The earlier core module, the core controller, the subscribers the
    register modules install, and the histories of calls a module
    instance goes through. *)

(** ** Frames

    [m] relates every state to the state it leaves, whether it returns or
    throws. *)

Definition keeps {S A} (R : S -> S -> Prop) (m : M S A) : Prop :=
  forall s, R s (exec m s).

(** ** Measures on the trace of the core module *)

Module CoreTrace.
Import CoreModule.

(** The calls [dispose] makes, in order *)
Definition disposal_calls : list SubsystemCall :=
  [timer_dispose; camera_dispose; renderer_dispose; sizes_dispose; world_dispose].

(** The calls that set a subsystem up *)
Definition is_setup_call (c : SubsystemCall) : bool :=
  match c with
  | sizes_init _ | timer_init _ | camera_init _ _ | world_init
  | renderer_init _ | debug_init _ => true
  | _ => false
  end.

Definition setup_trace (cs : list SubsystemCall) : list SubsystemCall :=
  List.filter is_setup_call cs.

(** The props [_onMessage] hands to [init] *)
Definition coerced (d : CoreModuleMessageEventData) : CoreModuleMessageEventData := {|
  canvas := canvas d;
  startTimer := JS.Boolean (JS.truthy (startTimer d));
  useDefaultCamera := JS.Boolean (JS.truthy (useDefaultCamera d));
  withMiniCamera := JS.Boolean (JS.truthy (withMiniCamera d));
  fullScreen := JS.Boolean (JS.truthy (fullScreen d))
|}.

(** The props and the surface an operation brings to [init], if any *)
Definition brought (op : Op)
  : option (CoreModuleMessageEventData * OffscreenCanvas) :=
  match op with
  | CallInit props => (fun c => (props, c)) <$> canvas props
  | Message event =>
      match data event with
      | Some d => (fun c => (coerced d, c)) <$> canvas d
      | None => None
      end
  | Tick | Dispose => None
  end.

(** The setup a history runs: that of the first operation that brings a
    surface *)
Definition first_setup (ops : list Op) : list SubsystemCall :=
  match head (omap brought ops) with
  | Some (props, c) => setup_calls props c
  | None => []
  end.

End CoreTrace.

(** ** The earlier core module
    [packages/reactive/src/core/core.module.ts], the version without a
    lifecycle stream: [init] takes the surface itself and has no guard,
    and what the worker exposes to the main thread as [init] is an empty
    function. *)

Module EarlierCoreModule.

(** Calls into the injected controller and subsystems *)
Inductive Call : Type :=
| controller_resize (width height : Z)
| controller_setPointerLock (status : JS.value)
| controller_move (x y : Z)
| controller_keyEvent (keyEvent : JS.value)
| sizesModule_init (c : CoreModule.OffscreenCanvas)
| timerModule_init
| cameraModule_init
| rendererModule_init (c : CoreModule.OffscreenCanvas).

Definition State : Type := list Call.

Definition call (c : Call) : M State unit := modify (fun cs => cs ++ [c]).

(** [CoreModule.setSize] *)
Definition setSize (width height : Z) : M State unit :=
  call (controller_resize width height).

(** [CoreModule.setPointerLock] *)
Definition setPointerLock (status : JS.value) : M State unit :=
  call (controller_setPointerLock status).

(** [CoreModule.mouseMove] *)
Definition mouseMove (x y : Z) : M State unit := call (controller_move x y).

(** [CoreModule.keyEvent] *)
Definition keyEvent (e : JS.value) : M State unit := call (controller_keyEvent e).

(** [CoreModule.init] *)
Definition init (canvas : CoreModule.OffscreenCanvas) : M State unit :=
  (let canvas := CoreModule.with_style canvas in
   step setSize (CoreModule.width canvas) (CoreModule.height canvas);
   step call (sizesModule_init canvas);
   step call timerModule_init;
   step call cameraModule_init;
   call (rendererModule_init canvas))%js.

(** [self.onmessage], as the constructor sets it *)
Definition onmessage (event : CoreModule.CoreModuleMessageEvent) : M State unit :=
  match CoreModule.data event ≫= CoreModule.canvas with
  | Some canvas => init canvas
  | None => ret tt
  end.

(** The methods handed to [expose]: what the main thread can call *)
Inductive Exposed : Type :=
| exposed_setSize (width height : Z)
| exposed_setPointerLock (status : JS.value)
| exposed_mouseMove (x y : Z)
| exposed_keyEvent (e : JS.value)
| exposed_init.

Definition exposed (e : Exposed) : M State unit :=
  match e with
  | exposed_setSize w h => setSize w h
  | exposed_setPointerLock status => setPointerLock status
  | exposed_mouseMove x y => mouseMove x y
  | exposed_keyEvent e => keyEvent e
  | exposed_init => ret tt
  end.

(** What reaches the worker: a message, or a call of an exposed method *)
Inductive Op : Type :=
| Message (event : CoreModule.CoreModuleMessageEvent)
| Remote (e : Exposed).

Definition perform (op : Op) : M State unit :=
  match op with
  | Message event => onmessage event
  | Remote e => exposed e
  end.

Definition after (ops : list Op) (st : State) : State :=
  fold_left (fun st op => exec (perform op) st) ops st.

(** The surfaces the renderer was set up with, oldest first *)
Definition rendered (cs : list Call) : list CoreModule.OffscreenCanvas :=
  omap (fun c => match c with rendererModule_init c => Some c | _ => None end) cs.

(** The sizes the controller was told, oldest first *)
Definition resized (cs : list Call) : list (Z * Z) :=
  omap (fun c => match c with controller_resize w h => Some (w, h) | _ => None end) cs.

(** The surface a message brings *)
Definition surface_of (op : Op) : option CoreModule.OffscreenCanvas :=
  match op with
  | Message event => CoreModule.data event ≫= CoreModule.canvas
  | Remote _ => None
  end.

(** The size an operation tells the controller *)
Definition size_of (op : Op) : option (Z * Z) :=
  match op with
  | Message event =>
      (fun c => (CoreModule.width c, CoreModule.height c))
        <$> (CoreModule.data event ≫= CoreModule.canvas)
  | Remote (exposed_setSize w h) => Some (w, h)
  | Remote _ => None
  end.

End EarlierCoreModule.

(** ** The core controller, [packages/reactive/src/core/core.controller.ts] *)

Module CoreController.

Section WithPayloads.

(** [Vector2Like] of three.js *)
Variable Vector2Like : Type.

Record State : Type := {
  lifecycle'' : Rx.Subject bool;
  resize'' : Rx.Subject Vector2Like
}.

Definition new : State := {| lifecycle'' := Rx.new; resize'' := Rx.new |}.

(** [CoreController.resize] *)
Definition resize (sizes : Vector2Like) : M State unit :=
  modify (fun st => {|
    lifecycle'' := lifecycle'' st;
    resize'' := Rx.next sizes (resize'' st) |}).

(** [lifecycle$] and [resize$]: the subjects, piped through nothing *)
Definition lifecycle' (st : State) : list bool := Rx.emitted (lifecycle'' st).
Definition resize' (st : State) : list Vector2Like := Rx.emitted (resize'' st).

End WithPayloads.

Arguments lifecycle'' {Vector2Like} _.
Arguments resize'' {Vector2Like} _.
Arguments new {Vector2Like}.
Arguments resize {Vector2Like} sizes.
Arguments lifecycle' {Vector2Like} st.
Arguments resize' {Vector2Like} st.

End CoreController.

(** ** Frames of a field

    [f] has, in the state left, the value it had. *)

Definition same {S T} (f : S -> T) : S -> S -> Prop := fun s s' => f s' = f s.

(** [R] relates the values of [f] *)
Definition on {S T} (f : S -> T) (R : T -> T -> Prop) : S -> S -> Prop :=
  fun s s' => R (f s) (f s').

(** ** How the register modules change the document

    Element objects are created, attached, detached, marked and
    transferred; none ceases to exist, changes its kind or its size, or
    gets back the control it gave to an offscreen canvas, and the
    browser's part of the document is not touched. *)

Module Page.

Definition persists (e e' : Dom.HTMLElement) : Prop :=
  Dom.is_canvas e' = Dom.is_canvas e
  /\ Dom.width e' = Dom.width e
  /\ Dom.height e' = Dom.height e
  /\ (Dom.transferred e = true -> Dom.transferred e' = true).

Definition evolves (doc doc' : Dom.Document) : Prop :=
  Dom.has_body doc' = Dom.has_body doc
  /\ Dom.selectors doc' = Dom.selectors doc
  /\ Dom.layout doc' = Dom.layout doc
  /\ Dom.innerWidth doc' = Dom.innerWidth doc
  /\ Dom.innerHeight doc' = Dom.innerHeight doc
  /\ forall id e,
       Dom.elements doc !! id = Some e ->
       exists e', Dom.elements doc' !! id = Some e' /\ persists e e'.

(** The canvas can still be handed over: it is no element of the
    document yet, or one whose control was not transferred *)
Definition transferable (c : nat) (doc : Dom.Document) : bool :=
  match Dom.elements doc !! c with
  | Some e => negb (Dom.transferred e)
  | None => true
  end.

(** The offscreen canvas the register modules hand over: that of the
    canvas, given the size of its client box *)
Definition offscreen_of (doc : Dom.Document) (c : nat) : Dom.OffscreenCanvas := {|
  Dom.placeholder := c;
  Dom.offscreen_width := Dom.clientWidth (Dom.layout doc c);
  Dom.offscreen_height := Dom.clientHeight (Dom.layout doc c)
|}.

(** The caller named no canvas: neither an element nor a selector *)
Definition no_canvas_input (v : JS.value) : bool :=
  match v with
  | JS.String _ | JS.Element _ => false
  | _ => true
  end.

End Page.

(** ** The register module of [modules/register] in use *)

Module ModulesRegisterUse.
Import ModulesRegister.

(** The public methods that change the module *)
Inductive Call : Type :=
| Init (answer : RunResult)
| LoadResources (props : LoadProps) (answer : RunResult)
| Dispose.

Definition perform (c : Call) : M State unit :=
  match c with
  | Init answer => init answer
  | LoadResources props answer => (step loadResources props answer; ret tt)%js
  | Dispose => dispose
  end.

Definition after (calls : list Call) (st : State) : State :=
  fold_left (fun st c => exec (perform c) st) calls st.

(** What a call puts on the lifecycle stream, given how it ended *)
Definition announced (c : Call) (r : outcome unit) : option RegisterLifecycleState :=
  match c, r with
  | Init _, Returned _ => Some INITIALIZED
  | Dispose, _ => Some DISPOSED
  | _, _ => None
  end.

Fixpoint announcements (calls : list Call) (st : State) : list RegisterLifecycleState :=
  match calls with
  | [] => []
  | c :: calls =>
      option_list (announced c (fst (perform c st)))
      ++ announcements calls (exec (perform c) st)
  end.

(** The canvas [_initCanvas] settles on: the designated one, else the
    one it has just created *)
Definition resolved_canvas (st : State) : nat :=
  default (Surface.next_element (document st))
          (Surface.designated (canvas (registerProps st)) (document st)).

(** The spawn request of [_initCore] *)
Definition spawn_request (props : RegisterPropsModel) (off : Dom.OffscreenCanvas)
  : Effect :=
  workerPool_run_core (location props)
    {| subject_defaultCamera := defaultCamera props;
       subject_withMiniCamera := withMiniCamera props;
       subject_startTimer := startTimer props;
       subject_fullScreen := fullScreen props;
       subject_canvas := off |}
    [off].

End ModulesRegisterUse.

(** ** The register module of [core/register] in use *)

Module CoreRegisterUse.
Import CoreRegister.

(** The public methods that change the module *)
Inductive Call : Type :=
| Init (answer : RunResult)
| Dispose.

Definition perform (c : Call) : M State unit :=
  match c with
  | Init answer => init answer
  | Dispose => dispose
  end.

Definition after (calls : list Call) (st : State) : State :=
  fold_left (fun st c => exec (perform c) st) calls st.


(** The canvas [_initCanvas] leaves in the service: when the selector
    lookup throws, the one it held; else the designated one, else the
    one it held, else the one it creates *)
Definition settled (st : State) : option nat :=
  match Surface.selector_failure (canvas (props st)) (document st) with
  | Some _ => service_canvas st
  | None =>
      Some match Surface.designated (canvas (props st)) (document st) with
           | Some c => c
           | None => default (Surface.next_element (document st)) (service_canvas st)
           end
  end.

(** What [_initCanvas] logs *)
Definition canvas_log (st : State) : list Effect :=
  match Surface.selector_failure (canvas (props st)) (document st) with
  | Some e => [console_error (ModulesRegister.canvas_error e)]
  | None =>
      match Surface.designated (canvas (props st)) (document st), service_canvas st with
      | None, None =>
          if Dom.has_body (document st) then []
          else [console_error
                  (ModulesRegister.canvas_error
                     "Cannot read properties of null (reading 'appendChild')")]
      | _, _ => []
      end
  end.

(** The document [_initCanvas] leaves: with the fallback canvas, marked
    and, if there is a body, appended to it, when the module holds no
    canvas and none is designated *)
Definition canvas_document (st : State) : Dom.Document :=
  let doc := document st in
  match Surface.selector_failure (canvas (props st)) doc,
        Surface.designated (canvas (props st)) doc,
        service_canvas st with
  | None, None, None =>
      Dom.with_elements
        (<[Surface.next_element doc :=
             if Dom.has_body doc then Surface.marked_fallback
             else Dom.with_data reactive "true" Dom.new_canvas]>
           (Dom.elements doc))
        doc
  | _, _, _ => doc
  end.

(** The canvas the service holds, if any, is an element object of the
    document. *)
Definition held (st : State) : Prop :=
  forall c, service_canvas st = Some c -> is_Some (Dom.elements (document st) !! c).

(** What a successful [init] does once the canvas is settled, in order *)
Definition started_effects (p : RegisterPropsBlueprint) (c : nat)
    (off : Dom.OffscreenCanvas) (h : Pool.WorkerThread) : list Effect :=
  [ workerPool_run (location p) off [off];
    service_init (Pool.worker h) (Pool.thread h);
    controller_init c ]
  ++ match Pool.thread h, Pool.worker h with
     | Some t, Some _ =>
         if JS.truthy (fullScreen p) then [thread_resize_from_uiEventHandler t] else []
     | _, _ => []
     end
  ++ [ proxy_event_observables_assigned;
       loader_init (loaderDataSources p);
       serializedLoad_subscribe ]
  ++ match onReady p with
     | Some f => [onReady_called f]
     | None => []
     end.

(** The stages of [init] that follow [_initCanvas]; [ready] is the
    [onReady] of the props *)
Definition later_stages (answer : RunResult) (ready : option nat) : M State unit :=
  (step _initWorkerThread answer;
   step _initService;
   step _initController;
   step _initObservableProxyEvents;
   step _initLoader;
   match ready with
   | Some f => effect (onReady_called f)
   | None => ret tt
   end)%js.

(** The document with the control of the canvas given away *)
Definition transferred_document (c : nat) (doc : Dom.Document) : Dom.Document :=
  Dom.with_elements (alter Dom.with_transferred c (Dom.elements doc)) doc.

(** The answers [_initWorkerThread] accepts *)
Definition accepted (answer : RunResult) : option Pool.WorkerThread :=
  match answer with
  | Resolved (Some h) false => Some h
  | _ => None
  end.

(** The error [_initWorkerThread] throws on the others *)
Definition refusal (answer : RunResult) : string :=
  match answer with
  | Rejected message => message
  | Resolved _ _ => "Unable to retrieve the worker-thread info."
  end.



End CoreRegisterUse.

(** ** More pages *)

Module MoreFixtures.


End MoreFixtures.

(** ** What the loader streams deliver *)

Module LoaderDelivery.
Import LoaderController.

(** What [map] does not touch in a payload *)
Definition progress_of {R} (p : Resource.Progressed R) : Z * Z * Resource.Source :=
  (Resource.loadedCount p, Resource.toLoadCount p, Resource.source p).

(** [ys] are the results of [f] on [xs], one for one; a list that is
    undefined stays undefined. *)
Definition parsed {A B} (f : A -> outcome B)
    (xs : option (list A)) (ys : option (list B)) : Prop :=
  match xs, ys with
  | None, None => True
  | Some xs, Some ys => Forall2 (fun x y => f x = Returned y) xs ys
  | _, _ => False
  end.

Section WithToken.

Variable LOADER_SERIALIZED_LOAD_TOKEN : string.
Variable AnimationClipJSON : Type.

(** The payloads of the messages the [filter] of [load$] lets through,
    oldest first *)
Definition admitted (events : list (MessageEvent AnimationClipJSON))
  : list (Resource.Progressed (SerializedResource AnimationClipJSON)) :=
  omap (fun event =>
          if accepted LOADER_SERIALIZED_LOAD_TOKEN event
          then data event ≫= payload
          else None)
       events.

(** ** The subscriber of [_initLoader] in [core/register]

    [payload.resource] on the main thread is an [ArrayBuffer], or a
    resource in its serialized form. *)
Inductive MainResource : Type :=
| array_buffer (id : nat)
| serialized (r : SerializedResource AnimationClipJSON).

(** What the subscriber posts to the worker *)
Inductive Posted : Type :=
| buffer_alone (id : nat) (transfer : list nat)
| enveloped (token : string) (payload : Resource.Progressed MainResource).

(** The subscriber [_initLoader] puts on [serializedLoad$]; [worker]
    is [_service.worker]. *)
Definition on_serializedLoad (worker : option nat)
    (payload : Resource.Progressed MainResource) : option Posted :=
  match worker with
  | None => None
  | Some _ =>
      match Resource.resource payload with
      | array_buffer id => Some (buffer_alone id [id])
      | serialized _ => Some (enveloped LOADER_SERIALIZED_LOAD_TOKEN payload)
      end
  end.

(** The resource as the worker sees it: an [ArrayBuffer] is an object
    like any other there. *)
Definition as_serialized (r : MainResource) : SerializedResource AnimationClipJSON :=
  match r with
  | array_buffer id => plain (JS.Object id)
  | serialized r => r
  end.

(** The message event of the worker for a posted message: an
    [ArrayBuffer] posted alone has neither [token] nor [payload]. *)
Definition received (m : Posted) : MessageEvent AnimationClipJSON :=
  match m with
  | buffer_alone _ _ =>
      {| data := Some {| token := JS.Undefined; payload := None |} |}
  | enveloped tok p =>
      {| data := Some {| token := JS.String tok;
                         payload := Some (with_resource
                                            (as_serialized (Resource.resource p)) p) |} |}
  end.

(** The payloads of a main-thread stream that reach [load$]: those
    whose resource is serialized and truthy *)
Definition carried (p : Resource.Progressed MainResource)
  : option (Resource.Progressed (SerializedResource AnimationClipJSON)) :=
  match Resource.resource p with
  | serialized r => if truthy_resource r then Some (with_resource r p) else None
  | array_buffer _ => None
  end.

End WithToken.

Arguments array_buffer {AnimationClipJSON} id.
Arguments serialized {AnimationClipJSON} r.
Arguments buffer_alone {AnimationClipJSON} id transfer.
Arguments enveloped {AnimationClipJSON} token payload.
Arguments admitted LOADER_SERIALIZED_LOAD_TOKEN {AnimationClipJSON} events.
Arguments on_serializedLoad LOADER_SERIALIZED_LOAD_TOKEN {AnimationClipJSON} worker payload.
Arguments as_serialized {AnimationClipJSON} r.
Arguments received {AnimationClipJSON} m.
Arguments carried {AnimationClipJSON} p.

End LoaderDelivery.

(** ** Messages for the loader *)

Module LoaderFixtures.
Import LoaderController.

Definition TOKEN : string := "serialized-load".

(** A deserializer that reads any text but the empty one, and a parser
    of clips that reads everything; objects and clips are kept as their
    text. *)
Definition deserializeObject3D (text : string) : outcome string :=
  if (text =? "")%string then Thrown "Unexpected end of JSON input"
  else Returned text.

Definition AnimationClip_parse (json : string) : outcome string := Returned json.

Definition source (type : string) : Resource.Source :=
  {| Resource.type := type; Resource.path := "asset" |}.

Definition message (resource : SerializedResource string) (type : string)
    (loaded toLoad : Z) : MessageEvent string :=
  {| data :=
       Some {| token := JS.String TOKEN;
               payload := Some {| Resource.resource := resource;
                                  Resource.loadedCount := loaded;
                                  Resource.toLoadCount := toLoad;
                                  Resource.source := source type |} |} |}.

(** A texture, and two models: one with its scene, one without *)
Definition texture : MessageEvent string :=
  message (plain (JS.Object 7)) "texture" 1 3.

Definition model : MessageEvent string :=
  message (gltf {| animations := Some ["Walk"; "Run"];
                   cameras := None;
                   scene := Some "Scene";
                   scenes := Some ["Scene"];
                   userData := JS.Undefined |}) "gltfModel" 2 3.

Definition sceneless_model : MessageEvent string :=
  message (gltf {| animations := None;
                   cameras := None;
                   scene := None;
                   scenes := None;
                   userData := JS.Undefined |}) "gltfModel" 3 3.

End LoaderFixtures.

(** * Properties *)

Ltac unfold_monad :=
  unfold exec, returns, throws, when, try_catch, bind, ret, get, modify, throw in *.

Lemma bind_returned {S A B} (m : M S A) (k : A -> M S B) (s : S) (a : A) :
  fst (m s) = Returned a -> bind m k s = k a (exec m s).
Proof. unfold bind, exec. destruct (m s) as [o s']; cbn. now intros ->. Qed.

Lemma bind_thrown {S A B} (m : M S A) (k : A -> M S B) (s : S) (e : string) :
  fst (m s) = Thrown e -> bind m k s = (Thrown e, exec m s).
Proof. unfold bind, exec. destruct (m s) as [o s']; cbn. now intros ->. Qed.

(** ** The lifecycle of the core module *)

Section CoreLifecycle.
Import CoreModule.

Lemma perform_returns (op : Op) (st : State) : returns (perform op) st.
Proof.
  destruct op as [props | [[d|]] | |]; cbn [perform].
  - unfold init; unfold_monad; cbn.
    destruct (canvas props), (initialized st); cbn; eauto.
  - unfold _onMessage, init; unfold_monad; cbn.
    destruct (canvas d), (initialized st) eqn:Hi; cbn; rewrite ?Hi; cbn; eauto.
  - unfold _onMessage; unfold_monad; cbn; eauto.
  - unfold tick; unfold_monad; cbn. destruct (initialized st); cbn; eauto.
  - unfold dispose; unfold_monad; cbn; eauto.
Qed.


Lemma init_when_initialized (props : CoreModuleMessageEventData) (st : State) :
  initialized st = true -> init props st = (Returned tt, st).
Proof.
  intros Hi. unfold init; unfold_monad. rewrite Hi.
  destruct (canvas props); reflexivity.
Qed.

Lemma init_without_canvas (props : CoreModuleMessageEventData) (st : State) :
  canvas props = None -> init props st = (Returned tt, st).
Proof. intros Hc. unfold init; unfold_monad. now rewrite Hc. Qed.


Lemma onMessage_as_init (event : CoreModuleMessageEvent) (st : State) :
  exists props,
    _onMessage event st = init props st
    /\ canvas props = (data event ≫= canvas).
Proof.
  destruct event as [[d|]]; unfold _onMessage, bind at 1, get at 1;
    cbn [data mbind option_bind].
  - destruct (canvas d) as [c|] eqn:Hc.
    + destruct (initialized st) eqn:Hi.
      * eexists {| canvas := Some c; startTimer := JS.Undefined;
                   useDefaultCamera := JS.Undefined;
                   withMiniCamera := JS.Undefined;
                   fullScreen := JS.Undefined |}.
        split; [|reflexivity]. now rewrite init_when_initialized.
      * eexists; split; [reflexivity|]. reflexivity.
    + exists d. split; [|exact Hc]. now rewrite init_without_canvas.
  - eexists {| canvas := None; startTimer := JS.Undefined;
               useDefaultCamera := JS.Undefined;
               withMiniCamera := JS.Undefined;
               fullScreen := JS.Undefined |}.
    split; [|reflexivity]. now rewrite init_without_canvas.
Qed.









Lemma after_cons (op : Op) (ops : list Op) (st : State) :
  after (op :: ops) st = after ops (exec (perform op) st).
Proof. reflexivity. Qed.




End CoreLifecycle.





(** ** Re-entrant initialisation *)

Section CoreReentrant.
Import CoreModule.




End CoreReentrant.



(** ** Messages that are not for the listener *)

Section LoaderMessages.
Import LoaderController.
Context (TOKEN : string) {Object3D AnimationClip AnimationClipJSON : Type}.
Context (deserializeObject3D : string -> outcome Object3D).
Context (AnimationClip_parse : AnimationClipJSON -> outcome AnimationClip).

Lemma accepted_iff (event : MessageEvent AnimationClipJSON) :
  accepted TOKEN event = true <->
  exists envelope p,
    data event = Some envelope
    /\ token envelope = JS.String TOKEN
    /\ payload envelope = Some p
    /\ truthy_resource (Resource.resource p) = true.
Proof.
  unfold accepted. split.
  - destruct (data event) as [envelope|]; [|discriminate].
    intros H. apply andb_prop in H as [Ht Hp].
    destruct (payload envelope) as [p|] eqn:Hpay; [|discriminate].
    exists envelope, p. repeat split; try assumption.
    unfold token_matches in Ht. destruct (token envelope); try discriminate.
    apply String.eqb_eq in Ht. now subst.
  - intros (envelope & p & -> & Ht & -> & Hr).
    rewrite Ht, Hr. cbn. now rewrite String.eqb_refl.
Qed.

Lemma load_skips (event : MessageEvent AnimationClipJSON)
    (events : list (MessageEvent AnimationClipJSON)) :
  accepted TOKEN event = false ->
  load' TOKEN deserializeObject3D AnimationClip_parse (event :: events)
  = load' TOKEN deserializeObject3D AnimationClip_parse events.
Proof. intros H. cbn. now rewrite H. Qed.

End LoaderMessages.

(** C7.  A message without a canvas leaves the core module as it was: no
    [init], no state change, no exception.  A message whose envelope is
    missing, carries another token, or has no (truthy) resource payload is
    filtered out of [load$], and so of [loadCompleted$]: the streams are
    what they would be had the message not arrived. *)
Theorem C7_malformed_message_dropped
    (core_event : CoreModule.CoreModuleMessageEvent) (st : CoreModule.State)
    (TOKEN : string) (Object3D AnimationClip AnimationClipJSON : Type)
    (deserializeObject3D : string -> outcome Object3D)
    (AnimationClip_parse : AnimationClipJSON -> outcome AnimationClip)
    (event : LoaderController.MessageEvent AnimationClipJSON)
    (before later : list (LoaderController.MessageEvent AnimationClipJSON)) :
  (CoreModule.data core_event ≫= CoreModule.canvas = None ->
   CoreModule._onMessage core_event st = (Returned tt, st))
  /\ (~ (exists envelope p,
           LoaderController.data event = Some envelope
           /\ LoaderController.token envelope = JS.String TOKEN
           /\ LoaderController.payload envelope = Some p
           /\ LoaderController.truthy_resource (Resource.resource p) = true) ->
      LoaderController.load' TOKEN deserializeObject3D AnimationClip_parse
        (before ++ event :: later)
      = LoaderController.load' TOKEN deserializeObject3D AnimationClip_parse
          (before ++ later)
      /\ LoaderController.loadCompleted' TOKEN deserializeObject3D AnimationClip_parse
           (before ++ event :: later)
         = LoaderController.loadCompleted' TOKEN deserializeObject3D AnimationClip_parse
             (before ++ later)).
Proof.
  split.
  - intros Hc. destruct (onMessage_as_init core_event st) as (props & Heq & Hp).
    rewrite Heq. apply init_without_canvas. now rewrite Hp.
  - intros Hbad.
    assert (Hacc : LoaderController.accepted TOKEN event = false).
    { destruct (LoaderController.accepted TOKEN event) eqn:E; [|reflexivity].
      exfalso. apply Hbad. now apply accepted_iff. }
    assert (Hload :
      LoaderController.load' TOKEN deserializeObject3D AnimationClip_parse
        (before ++ event :: later)
      = LoaderController.load' TOKEN deserializeObject3D AnimationClip_parse
          (before ++ later)).
    { induction before as [|b before IH].
      - cbn [app]. now apply load_skips.
      - cbn [app LoaderController.load']. now rewrite IH. }
    split; [exact Hload|].
    unfold LoaderController.loadCompleted'. now rewrite Hload.
Qed.

Lemma C7_malformed_message_dropped_witness :
  let core_event :=
    {| CoreModule.data :=
         Some {| CoreModule.canvas := None;
                 CoreModule.startTimer := JS.Boolean true;
                 CoreModule.useDefaultCamera := JS.Undefined;
                 CoreModule.withMiniCamera := JS.Undefined;
                 CoreModule.fullScreen := JS.Undefined |} |} in
  let event : LoaderController.MessageEvent unit :=
    {| LoaderController.data :=
         Some {| LoaderController.token := JS.String "gui-event";
                 LoaderController.payload := None |} |} in
  let unreadable := fun _ : string => @Thrown unit "Unexpected end of JSON input" in
  CoreModule._onMessage core_event CoreModule.fresh = (Returned tt, CoreModule.fresh)
  /\ LoaderController.load' "serialized-load" unreadable (fun _ : unit => Returned tt)
       ([] ++ event :: [])
     = LoaderController.load' "serialized-load" unreadable (fun _ : unit => Returned tt)
         ([] ++ []).
Proof.
  intros core_event event unreadable.
  pose proof (C7_malformed_message_dropped core_event CoreModule.fresh
                "serialized-load" unit unit unit unreadable
                (fun _ : unit => Returned tt) event [] []) as [Hcore Hloader].
  split.
  - apply Hcore. reflexivity.
  - apply Hloader.
    intros (envelope & p & Hd & _ & Hp & _).
    cbn in Hd. injection Hd as <-. discriminate Hp.
Defined.

(** ** The main-thread register module has no such guard *)

(** The register module of [core/register] tests a flag that nothing sets:
    after a complete [init] the module still reports that it is not
    initialised, and a second [init] runs the setup again, up to the
    second transfer of the canvas, which the browser refuses. *)
Example core_register_flag_is_never_set :
  let answer := CoreRegister.Resolved (Some Fixtures.a_handle) false in
  let st1 := exec (CoreRegister.init answer)
               (CoreRegister.construct Fixtures.empty_page Fixtures.props_B) in
  fst (CoreRegister.init answer
         (CoreRegister.construct Fixtures.empty_page Fixtures.props_B))
    = Returned tt
  /\ CoreRegister.isInitialized st1 = false
  /\ fst (CoreRegister.init answer st1)
     = Thrown "Cannot transfer control from a canvas for more than one time.".
Proof. cbv zeta. repeat split; vm_compute; reflexivity. Qed.


(** ** Resolving the rendering surface *)

Section CanvasResolution.

Lemma next_element_fresh (doc : Dom.Document) :
  Dom.elements doc !! Surface.next_element doc = None.
Proof.
  unfold Surface.next_element. apply not_elem_of_dom. apply is_fresh.
Qed.

Lemma is_canvas_after_create (id : nat) (doc : Dom.Document) :
  Dom.is_canvas_element id doc = true ->
  Dom.is_canvas_element id
    (Dom.with_elements
       (<[Surface.next_element doc := Dom.new_canvas]> (Dom.elements doc)) doc)
  = true.
Proof.
  unfold Dom.is_canvas_element. cbn.
  destruct (Dom.elements doc !! id) as [e|] eqn:He; [|discriminate].
  intros Hc. rewrite lookup_insert_ne; [now rewrite He|].
  intros Heq. subst id. rewrite next_element_fresh in He. discriminate.
Qed.

Lemma is_canvas_after_create_inv (id : nat) (doc : Dom.Document) :
  Dom.is_canvas_element id
    (Dom.with_elements
       (<[Surface.next_element doc := Dom.new_canvas]> (Dom.elements doc)) doc)
  = true ->
  Dom.is_canvas_element id doc = true \/ id = Surface.next_element doc.
Proof.
  unfold Dom.is_canvas_element. cbn.
  destruct (decide (id = Surface.next_element doc)) as [->|Hne]; [now right|].
  rewrite lookup_insert_ne by congruence. now left.
Qed.

(** Appending to the body: by cases on whether the canvas is attached
    and whether there is a body. *)
Ltac append_step doc :=
  cbn;
  try (destruct (Dom.attached _ _); cbn; [reflexivity|]);
  unfold Dom.body_appendChild; cbn;
  destruct (Dom.has_body doc); cbn; reflexivity.

(** What [_initCanvas] of [modules/register] comes to *)
Lemma initCanvas_A (st : ModulesRegister.State) :
  let doc := ModulesRegister.document st in
  let supplied := ModulesRegister.canvas (ModulesRegister.registerProps st) in
  let c0 := Surface.next_element doc in
  let doc1 := Dom.with_elements (<[c0 := Dom.new_canvas]> (Dom.elements doc)) doc in
  let chosen := default c0 (Surface.designated supplied doc) in
  let st1 := exec (ModulesRegister.set_canvas chosen)
               (ModulesRegister.with_document doc1 st) in
  ModulesRegister._initCanvas st =
  match Surface.selector_failure supplied doc with
  | Some e =>
      ModulesRegister.effect
        (ModulesRegister.console_error (ModulesRegister.canvas_error e))
        (exec (ModulesRegister.set_canvas c0)
           (ModulesRegister.with_document doc1 st))
  | None =>
      if Dom.attached chosen doc1 then (Returned tt, st1)
      else
        match Dom.body_appendChild chosen doc1 with
        | (Returned _, doc2) =>
            (Returned tt, ModulesRegister.with_document doc2 st1)
        | (Thrown e, _) =>
            ModulesRegister.effect
              (ModulesRegister.console_error (ModulesRegister.canvas_error e)) st1
        end
  end.
Proof.
  cbv zeta.
  unfold ModulesRegister._initCanvas, ModulesRegister.dom.
  unfold_monad. cbn.
  fold (Surface.next_element (ModulesRegister.document st)).
  destruct st as [doc props cc core lc effs]; cbn.
  destruct props as [supplied loc cam mini timer full]; cbn.
  destruct supplied as [ | | | | |selector| |id| ]; cbn; try append_step doc.
  - (* a selector *)
    unfold Dom.querySelector; cbn.
    destruct (Dom.selectors doc selector) as [[id|]|e]; cbn;
      [| append_step doc | reflexivity].
    destruct (Dom.is_canvas_element id doc) eqn:Hc.
    + rewrite (is_canvas_after_create _ _ Hc). append_step doc.
    + destruct (Dom.is_canvas_element id (Dom.with_elements _ doc)) eqn:Hc1;
        [|append_step doc].
      apply is_canvas_after_create_inv in Hc1 as [Hc1| ->]; [congruence|].
      append_step doc.
  - (* an element *)
    destruct (Dom.is_canvas_element id doc) eqn:Hc.
    + rewrite (is_canvas_after_create _ _ Hc). append_step doc.
    + destruct (Dom.is_canvas_element id (Dom.with_elements _ doc)) eqn:Hc1;
        [|append_step doc].
      apply is_canvas_after_create_inv in Hc1 as [Hc1| ->]; [congruence|].
      append_step doc.
Qed.

(** Creating the fallback: by cases on whether the service has a canvas
    and whether there is a body. *)
Ltac fallback_step doc cc :=
  destruct cc as [?c|]; cbn; [reflexivity|];
  fold (Surface.next_element doc);
  unfold Dom.body_appendChild, Dom.set_data; cbn;
  rewrite ?alter_insert_eq;
  destruct (Dom.has_body doc); cbn; reflexivity.

(** What [_initCanvas] of [core/register] comes to *)
Lemma initCanvas_B (st : CoreRegister.State) :
  let doc := CoreRegister.document st in
  let supplied := CoreRegister.canvas (CoreRegister.props st) in
  let c0 := Surface.next_element doc in
  let doc2 :=
    Dom.with_elements
      (<[c0 := Dom.with_data CoreRegister.reactive "true" Dom.new_canvas]>
         (Dom.elements doc)) doc in
  let doc3 :=
    Dom.with_elements (<[c0 := Surface.marked_fallback]> (Dom.elements doc)) doc in
  CoreRegister._initCanvas st =
  match Surface.selector_failure supplied doc with
  | Some e =>
      CoreRegister.effect
        (CoreRegister.console_error (ModulesRegister.canvas_error e)) st
  | None =>
      match Surface.designated supplied doc with
      | Some c => (Returned tt, exec (CoreRegister.set_canvas (Some c)) st)
      | None =>
          match CoreRegister.service_canvas st with
          | Some _ => (Returned tt, st)
          | None =>
              if Dom.has_body doc then
                (Returned tt,
                 exec (CoreRegister.set_canvas (Some c0))
                   (CoreRegister.with_document doc3 st))
              else
                CoreRegister.effect
                  (CoreRegister.console_error
                     (ModulesRegister.canvas_error
                        "Cannot read properties of null (reading 'appendChild')"))
                  (exec (CoreRegister.set_canvas (Some c0))
                     (CoreRegister.with_document doc2 st))
          end
      end
  end.
Proof.
  cbv zeta.
  unfold CoreRegister._initCanvas, CoreRegister.dom.
  unfold_monad. cbn.
  destruct st as [doc props ini cc off w t effs]; cbn.
  destruct props as [supplied loc full ioc lds rdy]; cbn.
  destruct supplied as [ | | | | |selector| |id| ]; cbn; try fallback_step doc cc.
  - (* a selector *)
    unfold Dom.querySelector; cbn.
    destruct (Dom.selectors doc selector) as [[id|]|e]; cbn;
      [| fallback_step doc cc | reflexivity].
    destruct (Dom.is_canvas_element id doc); cbn;
      [reflexivity | fallback_step doc cc].
  - (* an element *)
    destruct (Dom.is_canvas_element id doc); cbn;
      [reflexivity | fallback_step doc cc].
Qed.

Lemma initCanvas_A_returns (st : ModulesRegister.State) :
  fst (ModulesRegister._initCanvas st) = Returned tt.
Proof.
  rewrite initCanvas_A.
  destruct (Surface.selector_failure _ _); [reflexivity|].
  destruct (Dom.attached _ _); [reflexivity|].
  unfold Dom.body_appendChild.
  destruct (Dom.has_body _); reflexivity.
Qed.

Lemma initCanvas_B_returns (st : CoreRegister.State) :
  fst (CoreRegister._initCanvas st) = Returned tt.
Proof.
  rewrite initCanvas_B.
  destruct (Surface.selector_failure _ _); [reflexivity|].
  destruct (Surface.designated _ _); [reflexivity|].
  destruct (CoreRegister.service_canvas st); [reflexivity|].
  destruct (Dom.has_body _); reflexivity.
Qed.

Lemma fresh_canvas_detached (doc : Dom.Document) :
  Dom.attached (Surface.next_element doc)
    (Dom.with_elements
       (<[Surface.next_element doc := Dom.new_canvas]> (Dom.elements doc)) doc)
  = false.
Proof.
  unfold Dom.attached, Dom.parent_of. cbn. rewrite lookup_insert_eq.
  apply bool_decide_eq_false. intros [? ?]. discriminate.
Qed.

End CanvasResolution.

(** C9, as amended.  [_initCanvas] never throws, in either register
    module.  When the selector lookup does not throw and the document has
    a body, the module of [modules/register], and the module of
    [core/register] as it is constructed, take for surface the supplied element if it is a canvas
    element, else the element the supplied selector resolves to if that is
    a canvas element, else a canvas they create and append to the body
    (marked [reactive] in [core/register]); nothing is logged.  When the
    selector lookup throws, or a fallback is needed and the document has
    no body, the failure is logged on the console under "Unable to
    initialize the canvas" and [_initCanvas] returns normally.  In
    [modules/register] a canvas is there in every case for the stages that
    follow.  In [core/register] a selector lookup that throws leaves the
    module without canvas, and [init] then stops at [_initWorkerThread]
    with "Canvas element is not initialized.". *)
Theorem C9_canvas_resolution
    (stA : ModulesRegister.State)
    (docB : Dom.Document) (propsB : CoreRegister.RegisterPropsBlueprint) :
  let docA := ModulesRegister.document stA in
  let suppliedA := ModulesRegister.canvas (ModulesRegister.registerProps stA) in
  let stA' := exec ModulesRegister._initCanvas stA in
  let stB := CoreRegister.construct docB propsB in
  let suppliedB := CoreRegister.canvas propsB in
  let stB' := exec CoreRegister._initCanvas stB in
  (fst (ModulesRegister._initCanvas stA) = Returned tt
   /\ forall st : CoreRegister.State,
        fst (CoreRegister._initCanvas st) = Returned tt)
  /\ (Surface.selector_failure suppliedA docA = None ->
      Dom.has_body docA = true ->
      ModulesRegister.effects stA' = ModulesRegister.effects stA
      /\ match Surface.designated suppliedA docA with
         | Some c => ModulesRegister.component_canvas stA' = Some c
         | None =>
             ModulesRegister.component_canvas stA'
               = Some (Surface.next_element docA)
             /\ Dom.elements docA !! Surface.next_element docA = None
             /\ Dom.elements (ModulesRegister.document stA')
                  !! Surface.next_element docA
                = Some Surface.plain_fallback
         end)
  /\ (Surface.selector_failure suppliedB docB = None ->
      Dom.has_body docB = true ->
      CoreRegister.effects stB' = []
      /\ match Surface.designated suppliedB docB with
         | Some c =>
             CoreRegister.service_canvas stB' = Some c
             /\ CoreRegister.document stB' = docB
         | None =>
             CoreRegister.service_canvas stB'
               = Some (Surface.next_element docB)
             /\ Dom.elements docB !! Surface.next_element docB = None
             /\ Dom.elements (CoreRegister.document stB')
                  !! Surface.next_element docB
                = Some Surface.marked_fallback
         end)
  /\ (forall e,
        Surface.selector_failure suppliedA docA = Some e ->
        ModulesRegister.effects stA'
        = ModulesRegister.effects stA
            ++ [ModulesRegister.console_error (ModulesRegister.canvas_error e)])
  /\ (forall e,
        Surface.selector_failure suppliedB docB = Some e ->
        CoreRegister.effects stB'
        = [CoreRegister.console_error (ModulesRegister.canvas_error e)])
  /\ (Surface.selector_failure suppliedA docA = None ->
      Surface.designated suppliedA docA = None ->
      Dom.has_body docA = false ->
      exists e,
        ModulesRegister.effects stA'
        = ModulesRegister.effects stA
            ++ [ModulesRegister.console_error (ModulesRegister.canvas_error e)])
  /\ (Surface.selector_failure suppliedB docB = None ->
      Surface.designated suppliedB docB = None ->
      Dom.has_body docB = false ->
      exists e,
        CoreRegister.effects stB'
        = [CoreRegister.console_error (ModulesRegister.canvas_error e)])
  /\ is_Some (ModulesRegister.component_canvas stA')
  /\ (forall e answer,
        Surface.selector_failure suppliedB docB = Some e ->
        CoreRegister.service_canvas stB' = None
        /\ CoreRegister.init answer stB
           = (Thrown "Canvas element is not initialized.", stB')).
Proof.
  cbv zeta.
  assert (HA := initCanvas_A stA). cbv zeta in HA.
  assert (HB := initCanvas_B (CoreRegister.construct docB propsB)).
  cbv zeta in HB. cbn [CoreRegister.construct CoreRegister.document
                       CoreRegister.props CoreRegister.service_canvas] in HB.
  assert (Hatt0 := fresh_canvas_detached (ModulesRegister.document stA)).
  split; [split; [apply initCanvas_A_returns | apply initCanvas_B_returns]|].
  split.
  { (* A, order *)
    intros Hf Hb. unfold exec. rewrite HA, Hf. clear HA HB.
    destruct (Surface.designated
                (ModulesRegister.canvas (ModulesRegister.registerProps stA))
                (ModulesRegister.document stA)) as [c|]; cbn [from_option id].
    - destruct (Dom.attached c _); [split; reflexivity|].
      unfold Dom.body_appendChild. cbn. rewrite Hb. split; reflexivity.
    - rewrite Hatt0. unfold Dom.body_appendChild. cbn. rewrite Hb. cbn.
      split; [reflexivity|]. split; [reflexivity|].
      split; [apply next_element_fresh|].
      rewrite lookup_alter_eq, lookup_insert_eq. reflexivity. }
  split.
  { (* B, order *)
    intros Hf Hb. unfold exec. rewrite HB, Hf. clear HA HB.
    destruct (Surface.designated (CoreRegister.canvas propsB) docB) as [c|].
    - repeat split; reflexivity.
    - rewrite Hb. cbn. split; [reflexivity|]. split; [reflexivity|].
      split; [apply next_element_fresh|]. now rewrite lookup_insert_eq. }
  split.
  { intros e He. unfold exec. rewrite HA, He. reflexivity. }
  split.
  { intros e He. unfold exec. rewrite HB, He. reflexivity. }
  split.
  { intros Hf Hd Hb. unfold exec. rewrite HA, Hf, Hd. cbn [from_option id].
    rewrite Hatt0. unfold Dom.body_appendChild. cbn. rewrite Hb.
    eexists. reflexivity. }
  split.
  { intros Hf Hd Hb. unfold exec. rewrite HB, Hf, Hd, Hb.
    eexists. reflexivity. }
  split.
  { unfold exec. rewrite HA. clear HA HB Hatt0.
    destruct (Surface.selector_failure _ _); [cbn; eauto|].
    destruct (Dom.attached _ _); [cbn; eauto|].
    unfold Dom.body_appendChild. destruct (Dom.has_body _); cbn; eauto. }
  { intros e answer He.
    assert (Hst : exec CoreRegister._initCanvas (CoreRegister.construct docB propsB)
                  = exec (CoreRegister.effect
                            (CoreRegister.console_error (ModulesRegister.canvas_error e)))
                      (CoreRegister.construct docB propsB)).
    { unfold exec. now rewrite HB, He. }
    split; [rewrite Hst; reflexivity|].
    unfold CoreRegister.init.
    rewrite (bind_returned _ _ _ (CoreRegister.construct docB propsB)) by reflexivity.
    change (exec get (CoreRegister.construct docB propsB))
      with (CoreRegister.construct docB propsB).
    cbn [CoreRegister.initialized CoreRegister.construct].
    rewrite (bind_returned _ _ _ tt) by apply initCanvas_B_returns.
    rewrite (bind_thrown _ _ _ "Canvas element is not initialized.")
      by (rewrite Hst; reflexivity).
    f_equal. rewrite Hst. reflexivity. }
Qed.

(** A selector that resolves to the canvas of the page, no canvas input at
    all, and a selector that makes [querySelector] throw. *)
Lemma C9_canvas_resolution_witness :
  (let st := ModulesRegister.construct CanvasFixtures.page
               (CanvasFixtures.props_A (JS.String "#app")) in
   ModulesRegister.effects (exec ModulesRegister._initCanvas st) = []
   /\ ModulesRegister.component_canvas (exec ModulesRegister._initCanvas st)
      = Some 0%nat)
  /\ (let st := CoreRegister.construct CanvasFixtures.page
                  (CanvasFixtures.props_B JS.Undefined) in
      CoreRegister.effects (exec CoreRegister._initCanvas st) = []
      /\ CoreRegister.service_canvas (exec CoreRegister._initCanvas st)
         = Some 1%nat
      /\ Dom.elements CanvasFixtures.page !! 1%nat = None
      /\ Dom.elements (CoreRegister.document (exec CoreRegister._initCanvas st))
           !! 1%nat
         = Some Surface.marked_fallback)
  /\ (let st := CoreRegister.construct CanvasFixtures.page
                  (CanvasFixtures.props_B (JS.String "#(")) in
      fst (CoreRegister._initCanvas st) = Returned tt
      /\ CoreRegister.effects (exec CoreRegister._initCanvas st)
         = [CoreRegister.console_error
              (ModulesRegister.canvas_error
                 "Failed to execute 'querySelector' on 'Document': '#(' is not a valid selector.")]).
Proof.
  split; [|split].
  - exact (proj1 (proj2 (C9_canvas_resolution
                           (ModulesRegister.construct CanvasFixtures.page
                              (CanvasFixtures.props_A (JS.String "#app")))
                           CanvasFixtures.page (CanvasFixtures.props_B JS.Undefined)))
             eq_refl eq_refl).
  - exact (proj1 (proj2 (proj2 (C9_canvas_resolution
                           (ModulesRegister.construct CanvasFixtures.page
                              (CanvasFixtures.props_A (JS.String "#app")))
                           CanvasFixtures.page (CanvasFixtures.props_B JS.Undefined))))
             eq_refl eq_refl).
  - pose proof (C9_canvas_resolution
                  (ModulesRegister.construct CanvasFixtures.page
                     (CanvasFixtures.props_A (JS.String "#app")))
                  CanvasFixtures.page (CanvasFixtures.props_B (JS.String "#(")))
      as ((_ & Hret) & _ & _ & _ & Hlog & _).
    split; [apply Hret | apply Hlog; reflexivity].
Defined.

(** C9, as the specification states it, fails on the register module of
    [core/register]: with a selector that [querySelector] rejects, the
    failure of the canvas stage is logged and [init] then ends with a
    thrown error. *)
Lemma C9_counterexample :
  let st := CoreRegister.construct CanvasFixtures.page
              (CanvasFixtures.props_B (JS.String "#(")) in
  let init := CoreRegister.init
                (CoreRegister.Resolved (Some Fixtures.a_handle) false) in
  fst (CoreRegister._initCanvas st) = Returned tt
  /\ CoreRegister.getCanvas (exec CoreRegister._initCanvas st) = None
  /\ fst (init st) = Thrown "Canvas element is not initialized."
  /\ CoreRegister.effects (exec init st)
     = [CoreRegister.console_error
          (ModulesRegister.canvas_error
             "Failed to execute 'querySelector' on 'Document': '#(' is not a valid selector.")].
Proof. cbv zeta. repeat split; vm_compute; reflexivity. Qed.

(** ** The handle of the spawned worker *)

Section SpawnHandle.

Lemma complete_iff (h : Pool.WorkerThread) :
  Pool.complete h = true <-> is_Some (Pool.thread h) /\ is_Some (Pool.worker h).
Proof.
  unfold Pool.complete. rewrite andb_true_iff, !bool_decide_eq_true. tauto.
Qed.

(** What [_initCore] of [modules/register] comes to, on a handle *)
Lemma initCore_A (h : Pool.WorkerThread) (st : ModulesRegister.State) :
  (exists e,
      fst (ModulesRegister._initCore (ModulesRegister.Resolved h) st) = Thrown e
      /\ ModulesRegister.component_core
           (exec (ModulesRegister._initCore (ModulesRegister.Resolved h)) st)
         = ModulesRegister.component_core st)
  \/ (fst (ModulesRegister._initCore (ModulesRegister.Resolved h) st) = Returned tt
      /\ Pool.complete h = true
      /\ ModulesRegister.component_core
           (exec (ModulesRegister._initCore (ModulesRegister.Resolved h)) st)
         = Some h).
Proof.
  unfold ModulesRegister._initCore, ModulesRegister.dom,
    Dom.transferControlToOffscreen.
  unfold_monad. cbn.
  destruct (ModulesRegister.component_canvas st) as [c|]; [|left; eauto].
  destruct (Dom.elements (ModulesRegister.document st) !! c) as [e|];
    [|cbn; left; eauto].
  destruct (Dom.transferred e); cbn; [left; eauto|].
  destruct h as [[t|] [w|]]; cbn; [right|left; eauto..].
  repeat split; reflexivity.
Qed.

Lemma initCanvas_A_quiet (st : ModulesRegister.State) :
  exists new,
    ModulesRegister.quiet st (exec ModulesRegister._initCanvas st) new
    /\ (new = [] \/ exists m, new = [ModulesRegister.console_error m]).
Proof.
  unfold exec, ModulesRegister.quiet. rewrite initCanvas_A.
  destruct (Surface.selector_failure _ _) as [e|].
  { eexists. split; [cbn; repeat split; reflexivity|]. right. eauto. }
  destruct (Dom.attached _ _).
  { exists []. cbn. rewrite app_nil_r. auto. }
  unfold Dom.body_appendChild.
  destruct (Dom.has_body _).
  - exists []. cbn. rewrite app_nil_r. auto.
  - eexists. split; [cbn; repeat split; reflexivity|]. right. eauto.
Qed.

Lemma initCore_A_incomplete (h : Pool.WorkerThread) (st : ModulesRegister.State) :
  Pool.complete h = false ->
  exists e new,
    fst (ModulesRegister._initCore (ModulesRegister.Resolved h) st) = Thrown e
    /\ ModulesRegister.quiet st (exec (ModulesRegister._initCore (ModulesRegister.Resolved h)) st) new
    /\ (new = [] \/ exists p s t, new = [ModulesRegister.workerPool_run_core p s t]).
Proof.
  intros Hh.
  unfold ModulesRegister._initCore, ModulesRegister.dom,
    Dom.transferControlToOffscreen, ModulesRegister.quiet.
  unfold_monad. cbn.
  destruct (ModulesRegister.component_canvas st) as [c|];
    [|eexists _, []; cbn; rewrite app_nil_r; auto].
  destruct (Dom.elements (ModulesRegister.document st) !! c) as [e|];
    [|eexists _, []; cbn; rewrite app_nil_r; auto].
  destruct (Dom.transferred e); cbn;
    [eexists _, []; cbn; rewrite app_nil_r; auto|].
  destruct h as [[t|] [w|]]; cbn; try discriminate Hh;
    (eexists _, _; split; [reflexivity|]; split; [repeat split; reflexivity|];
     right; eauto).
Qed.

Lemma init_A_incomplete (h : Pool.WorkerThread) (st : ModulesRegister.State) :
  Pool.complete h = false ->
  exists e new,
    fst (ModulesRegister.init (ModulesRegister.Resolved h) st) = Thrown e
    /\ ModulesRegister.quiet st (exec (ModulesRegister.init (ModulesRegister.Resolved h)) st) new
    /\ (ModulesRegister.spawn_requests new <= 1)%nat
    /\ forallb (fun e => negb (ModulesRegister.orchestrates e)) new = true.
Proof.
  intros Hh.
  set (st0 := exec (ModulesRegister.effect ModulesRegister.registerSerializer_object3D) st).
  destruct (initCanvas_A_quiet st0) as (new1 & (Hc1 & Hl1 & He1) & Hnew1).
  pose proof (initCanvas_A_returns st0) as Hret.
  set (st1 := exec ModulesRegister._initCanvas st0) in *.
  destruct (initCore_A_incomplete h st1 Hh)
    as (e & new2 & Hthrow & (Hc2 & Hl2 & He2) & Hnew2).
  set (st2 := exec (ModulesRegister._initCore (ModulesRegister.Resolved h)) st1) in *.
  assert (Hinit : ModulesRegister.init (ModulesRegister.Resolved h) st = (Thrown e, st2)).
  { unfold ModulesRegister.init.
    rewrite (bind_returned _ _ st tt) by reflexivity. fold st0.
    rewrite (bind_returned _ _ st0 tt) by exact Hret. fold st1.
    rewrite (bind_thrown _ _ st1 e) by exact Hthrow. reflexivity. }
  exists e, (ModulesRegister.registerSerializer_object3D :: new1 ++ new2).
  unfold exec. rewrite Hinit. cbn [fst snd].
  split; [reflexivity|]. split.
  - unfold ModulesRegister.quiet. rewrite Hc2, Hc1, Hl2, Hl1, He2, He1. cbn.
    repeat split. rewrite <- !app_assoc. reflexivity.
  - destruct Hnew1 as [-> | [m ->]], Hnew2 as [-> | (p & s & t & ->)]; cbn; auto.
Qed.

Lemma initCanvas_B_quiet (st : CoreRegister.State) :
  exists new,
    CoreRegister.quiet st (exec CoreRegister._initCanvas st) new
    /\ (new = [] \/ exists m, new = [CoreRegister.console_error m]).
Proof.
  unfold exec, CoreRegister.quiet. rewrite initCanvas_B.
  destruct (Surface.selector_failure _ _) as [e|].
  { eexists. split; [cbn; repeat split; reflexivity|]. right. eauto. }
  destruct (Surface.designated _ _).
  { exists []. cbn. rewrite app_nil_r. auto. }
  destruct (CoreRegister.service_canvas st).
  { exists []. cbn. rewrite app_nil_r. auto. }
  destruct (Dom.has_body _).
  - exists []. cbn. rewrite app_nil_r. auto.
  - eexists. split; [cbn; repeat split; reflexivity|]. right. eauto.
Qed.

(** What [_initWorkerThread] of [core/register] comes to *)
Lemma initWorkerThread_B (wt : option Pool.WorkerThread) (queued : bool)
    (st : CoreRegister.State) :
  let m := CoreRegister._initWorkerThread (CoreRegister.Resolved wt queued) in
  (exists e new,
      fst (m st) = Thrown e
      /\ CoreRegister.quiet st (exec m st) new
      /\ (new = [] \/ exists p c t, new = [CoreRegister.workerPool_run p c t]))
  \/ (exists h,
       wt = Some h /\ queued = false
       /\ fst (m st) = Returned tt
       /\ CoreRegister.service_worker (exec m st) = Pool.worker h
       /\ CoreRegister.service_thread (exec m st) = Pool.thread h).
Proof.
  cbv zeta.
  unfold CoreRegister._initWorkerThread, CoreRegister.dom,
    Dom.transferControlToOffscreen, CoreRegister.quiet.
  unfold_monad. cbn.
  destruct (CoreRegister.service_canvas st) as [c|];
    [|left; eexists _, []; cbn; rewrite app_nil_r; repeat split; auto].
  destruct (Dom.elements (CoreRegister.document st) !! c) as [e|];
    [|left; eexists _, []; cbn; rewrite app_nil_r; repeat split; auto].
  destruct (Dom.transferred e); cbn;
    [left; eexists _, []; cbn; rewrite app_nil_r; repeat split; auto|].
  destruct wt as [h|]; cbn.
  - destruct queued; cbn.
    + left. eexists _, _. split; [reflexivity|].
      split; [repeat split; reflexivity|]. right. eauto.
    + right. exists h. repeat split; reflexivity.
  - left. eexists _, _. split; [reflexivity|].
    split; [repeat split; reflexivity|]. right. eauto.
Qed.

Lemma initWorkerThread_B_refused (wt : option Pool.WorkerThread) (queued : bool)
    (st : CoreRegister.State) :
  wt = None \/ queued = true ->
  let m := CoreRegister._initWorkerThread (CoreRegister.Resolved wt queued) in
  exists e new,
    fst (m st) = Thrown e
    /\ CoreRegister.quiet st (exec m st) new
    /\ (new = [] \/ exists p c t, new = [CoreRegister.workerPool_run p c t]).
Proof.
  intros Hbad.
  destruct (initWorkerThread_B wt queued st) as [H | (h & -> & -> & _)];
    [exact H|].
  destruct Hbad; discriminate.
Qed.

Lemma init_B_refused (wt : option Pool.WorkerThread) (queued : bool)
    (st : CoreRegister.State) :
  wt = None \/ queued = true ->
  CoreRegister.initialized st = false ->
  let m := CoreRegister.init (CoreRegister.Resolved wt queued) in
  exists e new,
    fst (m st) = Thrown e
    /\ CoreRegister.quiet st (exec m st) new
    /\ (CoreRegister.spawn_requests new <= 1)%nat
    /\ forallb (fun e => negb (CoreRegister.orchestrates e)) new = true.
Proof.
  intros Hbad Hi. cbv zeta.
  destruct (initCanvas_B_quiet st) as (new1 & (Hw1 & Ht1 & Hi1 & He1) & Hnew1).
  pose proof (initCanvas_B_returns st) as Hret.
  set (st1 := exec CoreRegister._initCanvas st) in *.
  destruct (initWorkerThread_B_refused wt queued st1 Hbad)
    as (e & new2 & Hthrow & (Hw2 & Ht2 & Hi2 & He2) & Hnew2).
  set (st2 := exec (CoreRegister._initWorkerThread
                      (CoreRegister.Resolved wt queued)) st1) in *.
  assert (Hinit : CoreRegister.init (CoreRegister.Resolved wt queued) st
                  = (Thrown e, st2)).
  { unfold CoreRegister.init.
    rewrite (bind_returned _ _ st st) by reflexivity.
    change (exec get st) with st. rewrite Hi.
    rewrite (bind_returned _ _ st tt) by exact Hret. fold st1.
    rewrite (bind_thrown _ _ st1 e) by exact Hthrow. reflexivity. }
  exists e, (new1 ++ new2).
  unfold exec. rewrite Hinit. cbn [fst snd].
  split; [reflexivity|]. split.
  - unfold CoreRegister.quiet. rewrite Hw2, Hw1, Ht2, Ht1, Hi2, Hi1, He2, He1.
    repeat split. now rewrite app_assoc.
  - destruct Hnew1 as [-> | [m ->]], Hnew2 as [-> | (p & c & t & ->)]; cbn; auto.
Qed.

End SpawnHandle.

(** C1, as amended.  In [modules/register], [_initCore] accepts the handle
    that [run] resolved with only when it has both a thread and a worker;
    with either missing, [init] fails with a thrown error: the handle is
    not stored, nothing of the later orchestration is done, INITIALIZED is
    not emitted, and the pool is asked at most once.  In [core/register],
    [_initWorkerThread] returns normally only on a handle that is present
    and not queued, whose worker and thread it stores as they are; with no
    handle or a queued one, [init] fails with a thrown error in the same
    way. *)
Theorem C1_spawn_handle_checked
    (h : Pool.WorkerThread) (stA : ModulesRegister.State)
    (wt : option Pool.WorkerThread) (queued : bool) (stB : CoreRegister.State) :
  let initCore := ModulesRegister._initCore (ModulesRegister.Resolved h) in
  let initA := ModulesRegister.init (ModulesRegister.Resolved h) in
  let initWorkerThread :=
    CoreRegister._initWorkerThread (CoreRegister.Resolved wt queued) in
  let initB := CoreRegister.init (CoreRegister.Resolved wt queued) in
  (fst (initCore stA) = Returned tt ->
   is_Some (Pool.thread h) /\ is_Some (Pool.worker h)
   /\ ModulesRegister.core (exec initCore stA) = Some h)
  /\ (Pool.thread h = None \/ Pool.worker h = None ->
      exists e new,
        fst (initA stA) = Thrown e
        /\ ModulesRegister.core (exec initA stA) = ModulesRegister.core stA
        /\ ModulesRegister.lifecycle'' (exec initA stA)
           = ModulesRegister.lifecycle'' stA
        /\ ModulesRegister.effects (exec initA stA)
           = ModulesRegister.effects stA ++ new
        /\ (ModulesRegister.spawn_requests new <= 1)%nat
        /\ forallb (fun e => negb (ModulesRegister.orchestrates e)) new = true)
  /\ (fst (initWorkerThread stB) = Returned tt ->
      exists h',
        wt = Some h' /\ queued = false
        /\ CoreRegister.getWorker (exec initWorkerThread stB) = Pool.worker h'
        /\ CoreRegister.getThread (exec initWorkerThread stB) = Pool.thread h')
  /\ (wt = None \/ queued = true ->
      CoreRegister.isInitialized stB = false ->
      exists e new,
        fst (initB stB) = Thrown e
        /\ CoreRegister.getWorker (exec initB stB) = CoreRegister.getWorker stB
        /\ CoreRegister.getThread (exec initB stB) = CoreRegister.getThread stB
        /\ CoreRegister.effects (exec initB stB)
           = CoreRegister.effects stB ++ new
        /\ (CoreRegister.spawn_requests new <= 1)%nat
        /\ forallb (fun e => negb (CoreRegister.orchestrates e)) new = true).
Proof.
  cbv zeta. repeat apply conj.
  - intros Hret.
    destruct (initCore_A h stA) as [(e & He & _) | (_ & Hc & Hcore)];
      [rewrite Hret in He; discriminate|].
    apply complete_iff in Hc as [Ht Hw]. auto.
  - intros Hmiss.
    assert (Hh : Pool.complete h = false).
    { destruct (Pool.complete h) eqn:E; [|reflexivity].
      apply complete_iff in E as [[t Ht] [w Hw]].
      destruct Hmiss; congruence. }
    destruct (init_A_incomplete h stA Hh)
      as (e & new & Hthrow & (Hc & Hl & He) & Hs & Ho).
    exists e, new. auto 10.
  - intros Hret.
    destruct (initWorkerThread_B wt queued stB)
      as [(e & new & He & _) | (h' & -> & -> & _ & Hw & Ht)];
      [rewrite Hret in He; discriminate|].
    exists h'. auto.
  - intros Hbad Hi.
    destruct (init_B_refused wt queued stB Hbad Hi)
      as (e & new & Hthrow & (Hw & Ht & _ & He) & Hs & Ho).
    exists e, new. auto 10.
Qed.

Lemma C1_spawn_handle_checked_witness :
  let stA := ModulesRegister.construct Fixtures.empty_page Fixtures.props_A in
  let stB := CoreRegister.construct Fixtures.empty_page Fixtures.props_B in
  (exists e new,
      fst (ModulesRegister.init (ModulesRegister.Resolved Fixtures.worker_only) stA)
        = Thrown e
      /\ ModulesRegister.core
           (exec (ModulesRegister.init (ModulesRegister.Resolved Fixtures.worker_only)) stA)
         = ModulesRegister.core stA
      /\ ModulesRegister.lifecycle''
           (exec (ModulesRegister.init (ModulesRegister.Resolved Fixtures.worker_only)) stA)
         = ModulesRegister.lifecycle'' stA
      /\ ModulesRegister.effects
           (exec (ModulesRegister.init (ModulesRegister.Resolved Fixtures.worker_only)) stA)
         = ModulesRegister.effects stA ++ new
      /\ (ModulesRegister.spawn_requests new <= 1)%nat
      /\ forallb (fun e => negb (ModulesRegister.orchestrates e)) new = true)
  /\ (exists e new,
      fst (CoreRegister.init (CoreRegister.Resolved (Some Fixtures.a_handle) true) stB)
        = Thrown e
      /\ CoreRegister.getWorker
           (exec (CoreRegister.init (CoreRegister.Resolved (Some Fixtures.a_handle) true)) stB)
         = CoreRegister.getWorker stB
      /\ CoreRegister.getThread
           (exec (CoreRegister.init (CoreRegister.Resolved (Some Fixtures.a_handle) true)) stB)
         = CoreRegister.getThread stB
      /\ CoreRegister.effects
           (exec (CoreRegister.init (CoreRegister.Resolved (Some Fixtures.a_handle) true)) stB)
         = CoreRegister.effects stB ++ new
      /\ (CoreRegister.spawn_requests new <= 1)%nat
      /\ forallb (fun e => negb (CoreRegister.orchestrates e)) new = true).
Proof.
  intros stA stB.
  pose proof (C1_spawn_handle_checked Fixtures.worker_only stA
                (Some Fixtures.a_handle) true stB) as (_ & HA & _ & HB).
  split.
  - apply HA. left. reflexivity.
  - apply HB; [right; reflexivity | reflexivity].
Defined.

(** C1, as the specification states it, fails: a handle with a worker and
    no thread, not queued, passes [_initWorkerThread] of [core/register]
    and [init] goes on to the end with it; and [loadResources] of
    [modules/register] hands such a handle back to its caller without any
    error. *)
Lemma C1_counterexample :
  let stB := CoreRegister.construct Fixtures.empty_page Fixtures.props_B in
  let initB := CoreRegister.init
                 (CoreRegister.Resolved (Some Fixtures.worker_only) false) in
  let stA := ModulesRegister.construct Fixtures.empty_page Fixtures.props_A in
  let load := ModulesRegister.loadResources
                {| ModulesRegister.resources := [];
                   ModulesRegister.disposeOnComplete := None;
                   ModulesRegister.onMainThread := None;
                   ModulesRegister.immediateLoad := None;
                   ModulesRegister.onProgress := None;
                   ModulesRegister.onProgressComplete := None |}
                (ModulesRegister.Resolved Fixtures.worker_only) in
  Pool.complete Fixtures.worker_only = false
  /\ fst (initB stB) = Returned tt
  /\ CoreRegister.getThread (exec initB stB) = None
  /\ CoreRegister.getWorker (exec initB stB) = Some 1%nat
  /\ In (CoreRegister.service_init (Some 1%nat) None)
        (CoreRegister.effects (exec initB stB))
  /\ fst (load stA) = Returned Fixtures.worker_only.
Proof.
  cbv zeta. repeat split; try (vm_compute; reflexivity).
  vm_compute. auto 10.
Qed.

(** ** The resize forwarded at start-up *)

Section ResizeForwarding.
Import ModulesRegister.

Lemma forwarded_resizes_app (xs ys : list Effect) :
  forwarded_resizes (xs ++ ys) = forwarded_resizes xs ++ forwarded_resizes ys.
Proof. unfold forwarded_resizes. apply omap_app. Qed.

Lemma initController_effects (st : State) (c : nat) :
  component_canvas st = Some c ->
  fst (_initController st) = Returned tt
  /\ effects (exec _initController st) = effects st ++ ModulesRegister.controller_effects st c.
Proof.
  intros Hc. unfold _initController, ModulesRegister.controller_effects; unfold_monad.
  rewrite Hc. cbn.
  destruct (component_core st) as [[[t|] [w|]]|]; cbn; auto.
  destruct (Pool.exposes_resize t); cbn; rewrite <- ?app_assoc; auto.
Qed.

End ResizeForwarding.

(** C3.  The resize that [_initController] of [modules/register] forwards
    to the worker carries, for width and height, the viewport dimensions
    when [fullScreen] holds and the dimensions of the canvas otherwise;
    [x] repeats [width] and [y] repeats [height]; [top] and [left] are
    those of the bounding rectangle of the canvas.  It is the only resize
    the method forwards. *)
Theorem C3_resize_payload
    (st : ModulesRegister.State) (c : nat) (surface : Dom.HTMLElement) :
  ModulesRegister.component_canvas st = Some c ->
  Dom.elements (ModulesRegister.document st) !! c = Some surface ->
  let doc := ModulesRegister.document st in
  let full := JS.truthy (ModulesRegister.fullScreen (ModulesRegister.registerProps st)) in
  let p := ModulesRegister.resize_payload st c in
  (exists sent,
      ModulesRegister.forwarded_resizes
        (ModulesRegister.effects (exec ModulesRegister._initController st))
      = ModulesRegister.forwarded_resizes (ModulesRegister.effects st) ++ sent
      /\ (sent = [] \/ sent = [p])
      /\ (forall t w,
            ModulesRegister.core st
              = Some {| Pool.thread := Some t; Pool.worker := Some w |} ->
            Pool.exposes_resize t = true ->
            sent = [p]))
  /\ ModulesRegister.type p = "resize"
  /\ (full = true ->
      ModulesRegister.width p = Dom.innerWidth doc
      /\ ModulesRegister.height p = Dom.innerHeight doc)
  /\ (full = false ->
      ModulesRegister.width p = Dom.width surface
      /\ ModulesRegister.height p = Dom.height surface)
  /\ ModulesRegister.x p = ModulesRegister.width p
  /\ ModulesRegister.y p = ModulesRegister.height p
  /\ ModulesRegister.top p = Dom.top (Dom.layout doc c)
  /\ ModulesRegister.left p = Dom.left (Dom.layout doc c).
Proof.
  intros Hc Hs doc full p.
  split.
  - destruct (initController_effects st c Hc) as [_ He].
    rewrite He, forwarded_resizes_app.
    eexists. split; [reflexivity|].
    unfold ModulesRegister.controller_effects, ModulesRegister.core.
    destruct (ModulesRegister.component_core st) as [[[t|] [w|]]|]; cbn;
      try (split; [now left | intros ? ? ?; discriminate]).
    destruct (Pool.exposes_resize t) eqn:Hr; cbn.
    + split; [now right | reflexivity].
    + split; [now left|]. intros t' w' Heq Hr'. injection Heq as <- <-. congruence.
  - subst p full doc. unfold ModulesRegister.resize_payload. cbn.
    rewrite Hs. cbn.
    destruct (JS.truthy _); repeat split; try discriminate; reflexivity.
Qed.

(** The two examples of the specification: full screen on a 1280 by 720
    viewport, and an 800 by 600 surface without full screen. *)
Lemma C3_resize_payload_witness :
  (let p := ModulesRegister.resize_payload (ResizeFixtures.ready 300 150 true) 0 in
   ModulesRegister.forwarded_resizes
     (ModulesRegister.effects
        (exec ModulesRegister._initController (ResizeFixtures.ready 300 150 true)))
   = [p]
   /\ ModulesRegister.width p = 1280%Z /\ ModulesRegister.height p = 720%Z
   /\ ModulesRegister.x p = 1280%Z /\ ModulesRegister.y p = 720%Z)
  /\ (let p := ModulesRegister.resize_payload (ResizeFixtures.ready 800 600 false) 0 in
      ModulesRegister.forwarded_resizes
        (ModulesRegister.effects
           (exec ModulesRegister._initController (ResizeFixtures.ready 800 600 false)))
      = [p]
      /\ ModulesRegister.width p = 800%Z /\ ModulesRegister.height p = 600%Z).
Proof.
  split.
  - destruct (C3_resize_payload (ResizeFixtures.ready 300 150 true) 0 _
                eq_refl eq_refl)
      as ((sent & Hsent & _ & Hone) & _ & Hfull & _ & Hx & Hy & _).
    cbv zeta. rewrite Hx, Hy.
    destruct (Hfull eq_refl) as [Hw Hh]. rewrite Hw, Hh.
    rewrite Hsent, (Hone _ _ eq_refl eq_refl). repeat split; reflexivity.
  - destruct (C3_resize_payload (ResizeFixtures.ready 800 600 false) 0 _
                eq_refl eq_refl)
      as ((sent & Hsent & _ & Hone) & _ & _ & Hsurface & _).
    cbv zeta. destruct (Hsurface eq_refl) as [Hw Hh]. rewrite Hw, Hh.
    rewrite Hsent, (Hone _ _ eq_refl eq_refl). repeat split; reflexivity.
Defined.

(** ** The options of [loadResources] *)

Section LoaderOptions.
Import ModulesRegister.





End LoaderOptions.



(** ** Releasing the surface on disposal *)

Section SurfaceRelease.
Import CoreRegister.

Lemma dispose_kept (st : State) :
  (forall c, service_canvas st = Some c -> marked c (document st) = false) ->
  dispose st = (Returned tt, CoreRegister.disposed (document st) (service_canvas st) st).
Proof.
  intros Hm. unfold dispose, CoreRegister.disposed, CoreRegister.dispose_effects; unfold_monad. cbn.
  destruct (service_canvas st) as [c|] eqn:Hc.
  - rewrite (Hm c eq_refl).
    destruct (service_offscreenCanvas st); cbn; rewrite <- ?app_assoc; reflexivity.
  - destruct (service_offscreenCanvas st); cbn; rewrite <- ?app_assoc; reflexivity.
Qed.





End SurfaceRelease.




(** ** Validation and defaults at the entry point *)

Section EntryPoint.
Import ModulesRegister RegisterEntry.

Lemma boolean_field (default_ : bool) (v : JS.value) :
  (if JS.is_undefined v || negb (JS.is_boolean v)
   then JS.Boolean default_ else v)
  = JS.boolean_or default_ v.
Proof. destruct v; reflexivity. Qed.

Lemma locates_iff (v : JS.value) :
  JS.locates v <-> negb (JS.is_string v) && negb (JS.instanceof_URL v) = false.
Proof.
  unfold JS.locates. destruct v; cbn; split; intros H;
    try discriminate; try reflexivity; eauto;
    destruct H as [[? H] | [? H]]; discriminate.
Qed.

End EntryPoint.

(** C10, as amended.  [register] of [modules/register] throws exactly when
    the props are missing or their [location] is neither a string nor a
    URL.  Otherwise the props it registers keep [canvas] and [location],
    have [startTimer] and [fullScreen] replaced by [true] and
    [withMiniCamera] by [false] unless they are booleans, and have
    [defaultCamera] replaced by [DefaultCameraType.PERSPECTIVE] unless it
    is truthy and a property key of the [DefaultCameraType] enum object;
    [isUndefined] and [isBoolean] are taken to be the tests [=== undefined]
    and [typeof _ === "boolean"].  The earlier [register] of
    [src/unnamed/part_000] throws exactly when the props are missing or
    their [location] is falsy; otherwise it keeps [canvas] and [location],
    replaces an undefined [useDefaultCamera] or [startTimer] by [true] and
    turns [withMiniCamera] into the boolean [!!withMiniCamera]. *)
Theorem C10_register_validates
    (DefaultCameraType : list (string * JS.value))
    (isUndefined isBoolean : JS.value -> bool)
    (props : option ModulesRegister.RegisterPropsModel) :
  (forall v, isUndefined v = JS.is_undefined v) ->
  (forall v, isBoolean v = JS.is_boolean v) ->
  let register :=
    RegisterEntry.register DefaultCameraType isUndefined isBoolean in
  ((exists e, register props = Thrown e) <->
   ~ (exists p, props = Some p /\ JS.locates (ModulesRegister.location p)))
  /\ (forall p,
        props = Some p ->
        JS.locates (ModulesRegister.location p) ->
        exists r,
          register props = Returned r
          /\ ModulesRegister.canvas r = ModulesRegister.canvas p
          /\ ModulesRegister.location r = ModulesRegister.location p
          /\ ModulesRegister.startTimer r
             = JS.boolean_or true (ModulesRegister.startTimer p)
          /\ ModulesRegister.fullScreen r
             = JS.boolean_or true (ModulesRegister.fullScreen p)
          /\ ModulesRegister.withMiniCamera r
             = JS.boolean_or false (ModulesRegister.withMiniCamera p)
          /\ ModulesRegister.defaultCamera r
             = (if JS.truthy (ModulesRegister.defaultCamera p)
                   && RegisterEntry.in_DefaultCameraType DefaultCameraType
                        (ModulesRegister.defaultCamera p)
                then ModulesRegister.defaultCamera p
                else RegisterEntry.PERSPECTIVE DefaultCameraType))
  /\ (forall dto : option EarlierEntry.RegisterDto,
        ((exists e, EarlierEntry.register dto = Thrown e) <->
         ~ (exists p, dto = Some p /\ JS.truthy (EarlierEntry.location p) = true))
        /\ (forall p,
              dto = Some p ->
              JS.truthy (EarlierEntry.location p) = true ->
              exists r,
                EarlierEntry.register dto = Returned r
                /\ EarlierEntry.canvas r = EarlierEntry.canvas p
                /\ EarlierEntry.location r = EarlierEntry.location p
                /\ EarlierEntry.useDefaultCamera r
                   = (if JS.is_undefined (EarlierEntry.useDefaultCamera p)
                      then JS.Boolean true else EarlierEntry.useDefaultCamera p)
                /\ EarlierEntry.withMiniCamera r
                   = JS.Boolean (JS.truthy (EarlierEntry.withMiniCamera p))
                /\ EarlierEntry.startTimer r
                   = (if JS.is_undefined (EarlierEntry.startTimer p)
                      then JS.Boolean true else EarlierEntry.startTimer p))).
Proof.
  intros Hundefined Hboolean register. subst register.
  split; [|split].
  3:{ intros dto. unfold EarlierEntry.register. split.
      - destruct dto as [p|]; cbn.
        + destruct (JS.truthy (EarlierEntry.location p)) eqn:E; cbn.
          * split; [intros [e He]; discriminate|].
            intros Hn. exfalso. apply Hn. eauto.
          * split; [|eauto]. intros _ (p' & Hp & Hl). injection Hp as <-.
            congruence.
        + split; [|eauto]. intros _ (p' & Hp & _). discriminate.
      - intros p -> Hl. rewrite Hl. cbn. eexists. split; [reflexivity|].
        cbn. auto 10. }
  - unfold RegisterEntry.register. destruct props as [p|]; cbn.
    + destruct (negb (JS.is_string (ModulesRegister.location p))
                && negb (JS.instanceof_URL (ModulesRegister.location p))) eqn:E.
      * split; [|eauto]. intros _ (p' & Hp & Hl). injection Hp as <-.
        apply locates_iff in Hl. congruence.
      * split; [intros [e He]; discriminate|].
        intros Hn. exfalso. apply Hn. exists p. split; [reflexivity|].
        now apply locates_iff.
    + split; [|eauto]. intros _ (p' & Hp & _). discriminate.
  - intros p -> Hl. unfold RegisterEntry.register. cbn.
    apply locates_iff in Hl. rewrite Hl.
    eexists. split; [reflexivity|]. cbn.
    rewrite !Hundefined, !Hboolean, !boolean_field.
    repeat split.
    destruct (JS.truthy (ModulesRegister.defaultCamera p)
              && RegisterEntry.in_DefaultCameraType DefaultCameraType
                   (ModulesRegister.defaultCamera p)); reflexivity.
Qed.

Lemma C10_register_validates_witness :
  exists r,
    RegisterEntry.register EntryFixtures.cameras JS.is_undefined JS.is_boolean
      (Some EntryFixtures.bare)
    = Returned r
    /\ ModulesRegister.canvas r = JS.Undefined
    /\ ModulesRegister.location r = JS.Url "http://localhost:5173/src/main.worker.ts"
    /\ ModulesRegister.startTimer r = JS.Boolean true
    /\ ModulesRegister.fullScreen r = JS.Boolean false
    /\ ModulesRegister.withMiniCamera r = JS.Boolean false
    /\ ModulesRegister.defaultCamera r = JS.String "ORTHOGRAPHIC".
Proof.
  refine (proj1 (proj2 (C10_register_validates EntryFixtures.cameras
                          JS.is_undefined JS.is_boolean (Some EntryFixtures.bare)
                          (fun _ => eq_refl) (fun _ => eq_refl)))
            EntryFixtures.bare eq_refl _).
  right. eexists. reflexivity.
Defined.

(** C10, as the specification states it, fails on the earlier entry point
    ([src/unnamed/part_000]): it throws on an empty string for location,
    accepts a number for it, keeps a [startTimer] that is not a boolean,
    turns a truthy [withMiniCamera] into [true], and sets no [fullScreen]. *)
Lemma C10_counterexample :
  (exists e,
      EarlierEntry.register
        (Some (EntryFixtures.earlier (JS.String "") JS.Undefined JS.Undefined))
      = Thrown e)
  /\ (exists r,
      EarlierEntry.register
        (Some (EntryFixtures.earlier (JS.Number 42) (JS.String "yes") (JS.Number 1)))
      = Returned r
      /\ ~ JS.locates (EarlierEntry.location r)
      /\ EarlierEntry.startTimer r = JS.String "yes"
      /\ EarlierEntry.withMiniCamera r = JS.Boolean true).
Proof.
  split.
  - eexists. reflexivity.
  - eexists. split; [reflexivity|]. cbn. repeat split.
    intros [[s H] | [h H]]; discriminate.
Qed.

(** ** The round trip through the graph serializer *)

Section GraphRoundTrip.
Import GraphSerializer.
Context {Transform Geometry Material Clip : Type}.

Let Object3D : Type := GraphSerializer.Object3D Transform.

(** Induction on a tree, with the property at hand for the children *)
Lemma Object3D_forall_ind (P : Object3D -> Prop) :
  (forall kind transform g m children,
      Forall P children -> P (object3D kind transform g m children)) ->
  forall t, P t.
Proof.
  intros Hnode. fix IH 1. intros [kind transform g m children].
  apply Hnode. induction children as [|c children IHc].
  - constructor.
  - constructor; [apply IH | exact IHc].
Qed.

Lemma mapM_map_ext {A B C} (f : B -> option C) (g : A -> B) (h : A -> option C)
    (xs : list A) :
  Forall (fun x => f (g x) = h x) xs ->
  mapM f (List.map g xs) = mapM h xs.
Proof.
  induction 1 as [|x xs Hx _ IH]; cbn; [reflexivity|].
  now rewrite Hx, IH.
Qed.

Lemma mapM_map_Some {A B} (f : A -> option B) (g : A -> B) (xs : list A) :
  Forall (fun x => f x = Some (g x)) xs ->
  mapM f xs = Some (List.map g xs).
Proof.
  induction 1 as [|x xs Hx _ IH]; cbn; [reflexivity|].
  now rewrite Hx, IH.
Qed.

Lemma map_map_ext {A B C} (f : B -> C) (g : A -> B) (h : A -> C) (xs : list A) :
  Forall (fun x => f (g x) = h x) xs ->
  List.map f (List.map g xs) = List.map h xs.
Proof.
  induction 1 as [|x xs Hx _ IH]; cbn; [reflexivity|].
  now rewrite Hx, IH.
Qed.

(** *** The nodes *)

Lemma rename_preorder_kinds (ga ma : gmap nat nat) (t : Object3D) :
  preorder_kinds (rename ga ma t) = preorder_kinds t.
Proof.
  induction t as [kind transform g m children IH] using Object3D_forall_ind.
  cbn. f_equal. f_equal. now apply map_map_ext.
Qed.

Lemma rename_shape (ga ma : gmap nat nat) (t : Object3D) :
  shape_of (rename ga ma t) = shape_of t.
Proof.
  induction t as [kind transform g m children IH] using Object3D_forall_ind.
  cbn. f_equal. now apply map_map_ext.
Qed.

Lemma covers_mono (renaming : gmap nat nat) (X Y : gset nat) :
  X ⊆ Y -> GraphSerializer.covers renaming Y -> GraphSerializer.covers renaming X.
Proof. intros HXY HY r Hr. apply HY. set_solver. Qed.

Lemma resolve_ref_rename (renaming : gmap nat nat) (r : option nat) :
  GraphSerializer.covers renaming (ref_set r) ->
  resolve_ref renaming r = Some (rename_ref renaming r).
Proof.
  destruct r as [a|]; cbn; [|reflexivity].
  intros H. destruct (H a) as [b Hb]; [set_solver|]. now rewrite Hb.
Qed.

Lemma children_refs_subseteq (f : Object3D -> gset nat) (children : list Object3D)
    (c : Object3D) :
  In c children -> f c ⊆ ⋃ (List.map f children).
Proof.
  induction children as [|c' children IH]; cbn; [tauto|].
  intros [-> | Hin]; [set_solver|]. specialize (IH Hin). set_solver.
Qed.

Lemma decode_encode_node (ga ma : gmap nat nat) (t : Object3D) :
  GraphSerializer.covers ga (geometry_refs t) ->
  GraphSerializer.covers ma (material_refs t) ->
  decode_node ga ma (encode_node t) = Some (rename ga ma t).
Proof.
  induction t as [kind transform g m children IH] using Object3D_forall_ind.
  cbn [geometry_refs material_refs encode_node decode_node rename].
  intros Hg Hm.
  rewrite (resolve_ref_rename ga g)
    by (eapply covers_mono; [|exact Hg]; set_solver).
  rewrite (resolve_ref_rename ma m)
    by (eapply covers_mono; [|exact Hm]; set_solver).
  cbn.
  assert (Hc : mapM (decode_node ga ma) (List.map encode_node children)
               = Some (List.map (rename ga ma) children)).
  { rewrite (mapM_map_ext _ _ (fun c => Some (rename ga ma c))).
    - apply mapM_map_Some. apply Forall_forall. reflexivity.
    - apply Forall_forall. intros c Hc.
      rewrite Forall_forall in IH. apply list_elem_of_In in Hc.
      apply IH; [now apply list_elem_of_In| |].
      + eapply covers_mono; [|exact Hg].
        pose proof (children_refs_subseteq geometry_refs children c Hc).
        set_solver.
      + eapply covers_mono; [|exact Hm].
        pose proof (children_refs_subseteq material_refs children c Hc).
        set_solver. }
  rewrite Hc. reflexivity.
Qed.

(** *** The shared data *)

Lemma transports_mono {D : Type} (renaming : gmap nat nat)
    (src old dst : gmap nat D) (X Y : gset nat) :
  X ⊆ Y -> GraphSerializer.transports renaming src old dst Y -> GraphSerializer.transports renaming src old dst X.
Proof. intros HXY HY r Hr. apply HY. set_solver. Qed.

Lemma transports_covers {D : Type} (renaming : gmap nat nat)
    (src old dst : gmap nat D) (X : gset nat) :
  GraphSerializer.transports renaming src old dst X -> GraphSerializer.covers renaming X.
Proof. intros H r Hr. destruct (H r Hr) as (a & d & Ha & _). eauto. Qed.

Lemma dereference_rename {D : Type} (renaming : gmap nat nat)
    (src old dst : gmap nat D) (r : option nat) :
  GraphSerializer.transports renaming src old dst (ref_set r) ->
  dereference dst (rename_ref renaming r) = dereference src r
  /\ is_Some (dereference src r).
Proof.
  destruct r as [r|]; cbn; [|eauto].
  intros H. destruct (H r) as (a & d & Ha & Hs & Hd & _); [set_solver|].
  rewrite Ha. cbn. rewrite Hs, Hd. cbn. eauto.
Qed.

Lemma resolve_rename (ga ma : gmap nat nat)
    (sender old receiver : Heap Geometry Material) (t : Object3D) :
  GraphSerializer.transports ga (geometries sender) (geometries old) (geometries receiver)
    (geometry_refs t) ->
  GraphSerializer.transports ma (materials sender) (materials old) (materials receiver)
    (material_refs t) ->
  resolve receiver (rename ga ma t) = resolve sender t
  /\ is_Some (resolve sender t).
Proof.
  induction t as [kind transform g m children IH] using Object3D_forall_ind.
  cbn [geometry_refs material_refs rename resolve].
  intros Hg Hm.
  destruct (dereference_rename ga (geometries sender) (geometries old)
              (geometries receiver) g) as [Hdg [g' Hg']];
    [eapply transports_mono; [|exact Hg]; set_solver|].
  destruct (dereference_rename ma (materials sender) (materials old)
              (materials receiver) m) as [Hdm [m' Hm']];
    [eapply transports_mono; [|exact Hm]; set_solver|].
  rewrite Hdg, Hdm, Hg', Hm'. cbn.
  assert (Hkids : Forall (fun c => resolve receiver (rename ga ma c) = resolve sender c
                                   /\ is_Some (resolve sender c)) children).
  { apply Forall_forall. intros c Hc.
    rewrite Forall_forall in IH. apply list_elem_of_In in Hc.
    apply IH; [now apply list_elem_of_In| |].
    - eapply transports_mono; [|exact Hg].
      etrans; [exact (children_refs_subseteq geometry_refs children c Hc)|].
      apply union_subseteq_r.
    - eapply transports_mono; [|exact Hm].
      etrans; [exact (children_refs_subseteq material_refs children c Hc)|].
      apply union_subseteq_r. }
  assert (Heq : mapM (resolve receiver) (List.map (rename ga ma) children)
                = mapM (resolve sender) children).
  { apply mapM_map_ext. eapply Forall_impl; [exact Hkids|]. now intros c [H _]. }
  assert (Hsome : is_Some (mapM (resolve sender) children)).
  { clear -Hkids. induction Hkids as [|c cs [_ [rc Hc]] _ [rcs IH]]; cbn.
    - eauto.
    - rewrite Hc, IH. cbn. eauto. }
  rewrite Heq. destruct Hsome as [rcs Hrcs]. rewrite Hrcs. cbn. eauto.
Qed.

Lemma rename_geometry_refs (ga ma : gmap nat nat) (t : Object3D) (a : nat) :
  a ∈ geometry_refs (rename ga ma t) ->
  exists r, r ∈ geometry_refs t /\ ga !! r = Some a.
Proof.
  induction t as [kind transform g m children IH] using Object3D_forall_ind.
  cbn [geometry_refs rename]. rewrite elem_of_union. intros [Ha | Ha].
  - destruct g as [r|]; cbn in Ha; [|set_solver].
    destruct (ga !! r) as [b|] eqn:Hb; cbn in Ha; [|set_solver].
    exists r. split; [set_solver|]. rewrite Hb. f_equal. set_solver.
  - apply elem_of_union_list in Ha as (X & HX & HaX).
    apply list_elem_of_In, in_map_iff in HX as (c' & <- & Hc').
    apply in_map_iff in Hc' as (c & <- & Hc).
    rewrite Forall_forall in IH.
    destruct (IH c (proj2 (list_elem_of_In _ _) Hc) HaX) as (r & Hr & Hga).
    exists r. split; [|exact Hga].
    pose proof (children_refs_subseteq geometry_refs children c Hc).
    set_solver.
Qed.

Lemma rename_material_refs (ga ma : gmap nat nat) (t : Object3D) (a : nat) :
  a ∈ material_refs (rename ga ma t) ->
  exists r, r ∈ material_refs t /\ ma !! r = Some a.
Proof.
  induction t as [kind transform g m children IH] using Object3D_forall_ind.
  cbn [material_refs rename]. rewrite elem_of_union. intros [Ha | Ha].
  - destruct m as [r|]; cbn in Ha; [|set_solver].
    destruct (ma !! r) as [b|] eqn:Hb; cbn in Ha; [|set_solver].
    exists r. split; [set_solver|]. rewrite Hb. f_equal. set_solver.
  - apply elem_of_union_list in Ha as (X & HX & HaX).
    apply list_elem_of_In, in_map_iff in HX as (c' & <- & Hc').
    apply in_map_iff in Hc' as (c & <- & Hc).
    rewrite Forall_forall in IH.
    destruct (IH c (proj2 (list_elem_of_In _ _) Hc) HaX) as (r & Hr & Hma).
    exists r. split; [|exact Hma].
    pose proof (children_refs_subseteq material_refs children c Hc).
    set_solver.
Qed.

(** *** Allocation in the receiving heap *)

Lemma allocate_spec {D : Type} (entries : list (nat * D))
    (heap : gmap nat D) (renaming : gmap nat nat) :
  NoDup (entries.*1) ->
  heap ⊆ (allocate entries heap renaming).1
  /\ (forall r d, (r, d) ∈ entries ->
        exists a, (allocate entries heap renaming).2 !! r = Some a
                  /\ (allocate entries heap renaming).1 !! a = Some d
                  /\ heap !! a = None)
  /\ (forall r, r ∉ entries.*1 ->
        (allocate entries heap renaming).2 !! r = renaming !! r).
Proof.
  revert heap renaming.
  induction entries as [|[r0 d0] entries IH]; intros heap renaming Hnd; cbn.
  - split; [reflexivity|]. split; [|reflexivity].
    intros r d H. now apply elem_of_nil in H.
  - apply NoDup_cons in Hnd as [Hr0 Hnd].
    set (a0 := fresh (dom heap)).
    assert (Ha0 : heap !! a0 = None).
    { apply not_elem_of_dom. apply is_fresh. }
    destruct (IH (<[a0 := d0]> heap) (<[r0 := a0]> renaming) Hnd)
      as (Hsub & Hin & Hout).
    assert (Hheap : heap ⊆ <[a0 := d0]> heap) by now apply insert_subseteq.
    split; [etrans; eassumption|]. split.
    + intros r d Hrd. apply elem_of_cons in Hrd as [Heq | Hrd].
      * injection Heq as -> ->. exists a0.
        rewrite (Hout r0 Hr0), lookup_insert_eq.
        split; [reflexivity|]. split; [|exact Ha0].
        eapply lookup_weaken; [|exact Hsub]. apply lookup_insert_eq.
      * destruct (Hin r d Hrd) as (a & Hra & Hha & Hfree).
        exists a. split; [exact Hra|]. split; [exact Hha|].
        eapply lookup_weaken_None; eassumption.
    + intros r Hr. cbn in Hr. apply not_elem_of_cons in Hr as [Hne Hr].
      rewrite (Hout r Hr). now apply lookup_insert_ne.
Qed.

(** The entries of a side table are those of the sender's heap the tree
    refers to. *)
Lemma table_transports {D : Type} (src old : gmap nat D) (refs : gset nat) :
  refs ⊆ dom src ->
  let table := filter (fun entry : nat * D => entry.1 ∈ refs) src in
  let allocated := allocate (map_to_list table) old ∅ in
  old ⊆ allocated.1
  /\ GraphSerializer.transports allocated.2 src old allocated.1 refs.
Proof.
  intros Hlive table allocated.
  destruct (allocate_spec (map_to_list table) old ∅) as (Hsub & Hin & _).
  { apply NoDup_fst_map_to_list. }
  split; [exact Hsub|].
  intros r Hr.
  assert (Hd : is_Some (src !! r)) by (apply elem_of_dom; set_solver).
  destruct Hd as [d Hd].
  destruct (Hin r d) as (a & Hra & Hha & Hfree).
  { apply elem_of_map_to_list. unfold table.
    apply map_lookup_filter_Some. split; [exact Hd | exact Hr]. }
  exists a, d. auto.
Qed.

End GraphRoundTrip.

(** C4.  Encoding a live scene-graph tree of the sender and decoding the
    result in a receiving context succeeds and gives a tree with the same
    node type tags in pre-order, the same hierarchy shape and, node by
    node, the same transform, geometry and material data, together with
    the same animation clips.  Every shared object the decoded tree refers
    to is a new object of the receiving heap, made from the side tables;
    the objects the receiver had are untouched.  The side tables hold the
    geometries and materials the tree refers to and no others, and what
    else the sender's heap holds does not change the encoding. *)
Theorem C4_graph_round_trip
    {Transform Geometry Material Clip : Type}
    (sender receiver : GraphSerializer.Heap Geometry Material)
    (t : GraphSerializer.Object3D Transform) (clips : list Clip) :
  GraphSerializer.live sender t ->
  let encoded := GraphSerializer.encode sender t clips in
  exists receiver' t',
    GraphSerializer.decode receiver encoded = Some (receiver', t', clips)
    /\ GraphSerializer.preorder_kinds t' = GraphSerializer.preorder_kinds t
    /\ GraphSerializer.shape_of t' = GraphSerializer.shape_of t
    /\ GraphSerializer.resolve receiver' t' = GraphSerializer.resolve sender t
    /\ is_Some (GraphSerializer.resolve sender t)
    /\ (forall a, a ∈ GraphSerializer.geometry_refs t' ->
          GraphSerializer.geometries receiver !! a = None
          /\ is_Some (GraphSerializer.geometries receiver' !! a))
    /\ (forall a, a ∈ GraphSerializer.material_refs t' ->
          GraphSerializer.materials receiver !! a = None
          /\ is_Some (GraphSerializer.materials receiver' !! a))
    /\ GraphSerializer.geometries receiver ⊆ GraphSerializer.geometries receiver'
    /\ GraphSerializer.materials receiver ⊆ GraphSerializer.materials receiver'
    /\ dom (GraphSerializer.geometry_table encoded) = GraphSerializer.geometry_refs t
    /\ dom (GraphSerializer.material_table encoded) = GraphSerializer.material_refs t
    /\ (forall sender2 : GraphSerializer.Heap Geometry Material,
          (forall r, r ∈ GraphSerializer.geometry_refs t ->
             GraphSerializer.geometries sender2 !! r
             = GraphSerializer.geometries sender !! r) ->
          (forall r, r ∈ GraphSerializer.material_refs t ->
             GraphSerializer.materials sender2 !! r
             = GraphSerializer.materials sender !! r) ->
          GraphSerializer.encode sender2 t clips = encoded).
Proof.
  intros [Hlg Hlm] encoded.
  destruct (table_transports (GraphSerializer.geometries sender)
              (GraphSerializer.geometries receiver) _ Hlg) as [Hsubg Htg].
  destruct (table_transports (GraphSerializer.materials sender)
              (GraphSerializer.materials receiver) _ Hlm) as [Hsubm Htm].
  unfold GraphSerializer.decode. subst encoded.
  cbn [GraphSerializer.encode GraphSerializer.geometry_table
       GraphSerializer.material_table GraphSerializer.root
       GraphSerializer.clip_table].
  destruct (GraphSerializer.allocate
              (map_to_list
                 (filter (fun entry : nat * Geometry =>
                            entry.1 ∈ GraphSerializer.geometry_refs t)
                    (GraphSerializer.geometries sender)))
              (GraphSerializer.geometries receiver) ∅) as [hg ga].
  destruct (GraphSerializer.allocate
              (map_to_list
                 (filter (fun entry : nat * Material =>
                            entry.1 ∈ GraphSerializer.material_refs t)
                    (GraphSerializer.materials sender)))
              (GraphSerializer.materials receiver) ∅) as [hm ma].
  cbn [fst snd] in *.
  rewrite decode_encode_node by (eapply transports_covers; eassumption).
  cbn.
  set (receiver' := {| GraphSerializer.geometries := hg;
                       GraphSerializer.materials := hm |}).
  exists receiver', (GraphSerializer.rename ga ma t).
  split; [reflexivity|].
  split; [apply rename_preorder_kinds|].
  split; [apply rename_shape|].
  destruct (resolve_rename ga ma sender receiver receiver' t Htg Htm) as [Hres Hsome].
  split; [exact Hres|]. split; [exact Hsome|].
  split.
  { intros a Ha. apply rename_geometry_refs in Ha as (r & Hr & Hra).
    destruct (Htg r Hr) as (a' & d & Hra' & _ & Hd & Hfree).
    assert (a' = a) by congruence. subst a'. eauto. }
  split.
  { intros a Ha. apply rename_material_refs in Ha as (r & Hr & Hra).
    destruct (Htm r Hr) as (a' & d & Hra' & _ & Hd & Hfree).
    assert (a' = a) by congruence. subst a'. eauto. }
  split; [exact Hsubg|]. split; [exact Hsubm|].
  split.
  { apply set_eq. intros r. rewrite elem_of_dom. split.
    - intros [d Hd]. apply map_lookup_filter_Some in Hd as [_ Hr]. exact Hr.
    - intros Hr. assert (Hd : is_Some (GraphSerializer.geometries sender !! r))
        by (apply elem_of_dom; auto).
      destruct Hd as [d Hd]. exists d. now apply map_lookup_filter_Some. }
  split.
  { apply set_eq. intros r. rewrite elem_of_dom. split.
    - intros [d Hd]. apply map_lookup_filter_Some in Hd as [_ Hr]. exact Hr.
    - intros Hr. assert (Hd : is_Some (GraphSerializer.materials sender !! r))
        by (apply elem_of_dom; auto).
      destruct Hd as [d Hd]. exists d. now apply map_lookup_filter_Some. }
  intros sender2 Hg2 Hm2. unfold GraphSerializer.encode. f_equal.
  - apply map_eq. intros r. apply option_eq. intros d.
    rewrite !map_lookup_filter_Some. cbn. split; intros [Hd Hr];
      (split; [|exact Hr]); [rewrite <- Hg2 | rewrite Hg2]; assumption.
  - apply map_eq. intros r. apply option_eq. intros d.
    rewrite !map_lookup_filter_Some. cbn. split; intros [Hd Hr];
      (split; [|exact Hr]); [rewrite <- Hm2 | rewrite Hm2]; assumption.
Qed.

Lemma C4_graph_round_trip_witness :
  let encoded := GraphSerializer.encode GraphFixtures.sender GraphFixtures.scene
                   GraphFixtures.clips in
  exists receiver' t',
    GraphSerializer.decode GraphFixtures.receiver encoded
      = Some (receiver', t', GraphFixtures.clips)
    /\ GraphSerializer.preorder_kinds t'
       = GraphSerializer.preorder_kinds GraphFixtures.scene
    /\ GraphSerializer.shape_of t' = GraphSerializer.shape_of GraphFixtures.scene
    /\ GraphSerializer.resolve receiver' t'
       = GraphSerializer.resolve GraphFixtures.sender GraphFixtures.scene
    /\ is_Some (GraphSerializer.resolve GraphFixtures.sender GraphFixtures.scene)
    /\ (forall a, a ∈ GraphSerializer.geometry_refs t' ->
          GraphSerializer.geometries GraphFixtures.receiver !! a = None
          /\ is_Some (GraphSerializer.geometries receiver' !! a))
    /\ (forall a, a ∈ GraphSerializer.material_refs t' ->
          GraphSerializer.materials GraphFixtures.receiver !! a = None
          /\ is_Some (GraphSerializer.materials receiver' !! a))
    /\ GraphSerializer.geometries GraphFixtures.receiver
         ⊆ GraphSerializer.geometries receiver'
    /\ GraphSerializer.materials GraphFixtures.receiver
         ⊆ GraphSerializer.materials receiver'
    /\ dom (GraphSerializer.geometry_table encoded)
       = GraphSerializer.geometry_refs GraphFixtures.scene
    /\ dom (GraphSerializer.material_table encoded)
       = GraphSerializer.material_refs GraphFixtures.scene
    /\ (forall sender2 : GraphSerializer.Heap string string,
          (forall r, r ∈ GraphSerializer.geometry_refs GraphFixtures.scene ->
             GraphSerializer.geometries sender2 !! r
             = GraphSerializer.geometries GraphFixtures.sender !! r) ->
          (forall r, r ∈ GraphSerializer.material_refs GraphFixtures.scene ->
             GraphSerializer.materials sender2 !! r
             = GraphSerializer.materials GraphFixtures.sender !! r) ->
          GraphSerializer.encode sender2 GraphFixtures.scene GraphFixtures.clips
          = encoded).
Proof.
  apply (C4_graph_round_trip GraphFixtures.sender GraphFixtures.receiver
           GraphFixtures.scene GraphFixtures.clips).
  split; compute_done.
Defined.

(** The same round trip, computed: the meshes still share one geometry,
    now at a new address of the receiver. *)
Example graph_round_trip_computed :
  GraphSerializer.decode GraphFixtures.receiver
    (GraphSerializer.encode GraphFixtures.sender GraphFixtures.scene
       GraphFixtures.clips)
  = Some
      ({| GraphSerializer.geometries :=
            {[ 0%nat := "PlaneGeometry"; 1%nat := "TorusKnotGeometry" ]};
          GraphSerializer.materials :=
            {[ 0%nat := "MeshNormalMaterial"; 1%nat := "MeshBasicMaterial" ]} |},
       GraphSerializer.object3D "Scene" (0, 0, 0)%Z None None
         [ GraphSerializer.object3D "Mesh" (1, 0, 0)%Z (Some 1%nat) (Some 0%nat) [];
           GraphSerializer.object3D "Group" (0, 2, 0)%Z None None
             [ GraphSerializer.object3D "Mesh" (0, 0, 3)%Z (Some 1%nat) (Some 1%nat) [];
               GraphSerializer.object3D "PerspectiveCamera" (0, 0, 10)%Z None None [] ] ],
       ["Walk"; "Run"]).
Proof. vm_compute. reflexivity. Qed.

(** * Further properties of the sources *)

(** ** Frames through the monad *)

Section Frames.
Context {S : Type} (R : S -> S -> Prop) `{!Reflexive R} `{!Transitive R}.

Lemma keeps_ret {A} (a : A) : keeps R (ret a).
Proof. intros s. apply reflexivity. Qed.

Lemma keeps_throw {A} (e : string) : keeps R (@throw S A e).
Proof. intros s. apply reflexivity. Qed.

Lemma keeps_get : keeps R (@get S).
Proof. intros s. apply reflexivity. Qed.

Lemma keeps_modify (f : S -> S) : (forall s, R s (f s)) -> keeps R (modify f).
Proof. intros Hf s. apply Hf. Qed.

Lemma keeps_bind {A B} (m : M S A) (k : A -> M S B) :
  keeps R m -> (forall a, keeps R (k a)) -> keeps R (bind m k).
Proof.
  intros Hm Hk s. specialize (Hm s). unfold exec, bind in *.
  destruct (m s) as [[a|e] s']; cbn in *; [|exact Hm].
  etransitivity; [exact Hm|]. apply Hk.
Qed.

Lemma keeps_try_catch {A} (body : M S A) (handler : string -> M S A) :
  keeps R body -> (forall e, keeps R (handler e)) -> keeps R (try_catch body handler).
Proof.
  intros Hb Hh s. specialize (Hb s). unfold exec, try_catch in *.
  destruct (body s) as [[a|e] s']; cbn in *; [exact Hb|].
  etransitivity; [exact Hb|]. apply Hh.
Qed.

Lemma keeps_when (b : bool) (m : M S unit) : keeps R m -> keeps R (when b m).
Proof. intros Hm. destruct b; [exact Hm | apply keeps_ret]. Qed.

End Frames.

(** The outcome of a sequence, by the outcome of its first part *)
Lemma bind_cases {S A B} (m : M S A) (k : A -> M S B) (s : S) :
  (exists a, fst (m s) = Returned a /\ bind m k s = k a (exec m s))
  \/ (exists e, fst (m s) = Thrown e /\ bind m k s = (Thrown e, exec m s)).
Proof.
  unfold bind, exec. destruct (m s) as [[a|e] s']; cbn; eauto.
Qed.

(** Structural descent through a computation, for a relation with the
    lemmas of its primitives in the hint database [frames] *)
Create HintDb frames discriminated.

Ltac frame_step :=
  lazymatch goal with
  | |- keeps _ (bind _ _) => apply keeps_bind; [try typeclasses eauto ..| |intros ?]
  | |- keeps _ (try_catch _ _) =>
      apply keeps_try_catch; [try typeclasses eauto ..| |intros ?]
  | |- keeps _ (when _ _) => apply keeps_when; [try typeclasses eauto ..|]
  | |- keeps _ (ret _) => apply keeps_ret; try typeclasses eauto
  | |- keeps _ (throw _) => apply keeps_throw; try typeclasses eauto
  | |- keeps _ get => apply keeps_get; try typeclasses eauto
  | |- keeps _ (match ?x with _ => _ end) => destruct x
  | |- keeps _ (if ?b then _ else _) => destruct b
  | |- keeps _ _ => solve [eauto with frames]
  end.

Ltac frame := repeat frame_step.

#[global] Instance same_reflexive {S T} (f : S -> T) : Reflexive (same f).
Proof. intros s. reflexivity. Qed.

#[global] Instance same_transitive {S T} (f : S -> T) : Transitive (same f).
Proof. intros a b c H1 H2. unfold same in *. congruence. Qed.

#[global] Instance on_reflexive {S T} (f : S -> T) (R : T -> T -> Prop) :
  Reflexive R -> Reflexive (on f R).
Proof. intros HR s. apply HR. Qed.

#[global] Instance on_transitive {S T} (f : S -> T) (R : T -> T -> Prop) :
  Transitive R -> Transitive (on f R).
Proof. intros HR a b c. apply HR. Qed.

(** A primitive step on a field it does not write, by computation *)
Ltac frame_leaf :=
  intros ?; unfold same, exec, ModulesRegister.dom, CoreRegister.dom;
  repeat match goal with |- context [let (_, _) := ?x in _] => destruct x end;
  cbn; reflexivity.

#[global] Hint Extern 5 (keeps (same _) _) => frame_leaf : frames.

(** ** The document only grows *)

Section PageEvolves.

#[global] Instance persists_reflexive : Reflexive Page.persists.
Proof. intros e. unfold Page.persists. auto. Qed.

#[global] Instance persists_transitive : Transitive Page.persists.
Proof.
  intros a b c (H1 & H2 & H3 & H4) (H1' & H2' & H3' & H4').
  unfold Page.persists. repeat split; try congruence. auto.
Qed.

#[global] Instance evolves_reflexive : Reflexive Page.evolves.
Proof.
  intros doc. unfold Page.evolves. repeat split; try reflexivity.
  intros id e He. exists e. split; [exact He | reflexivity].
Qed.

#[global] Instance evolves_transitive : Transitive Page.evolves.
Proof.
  intros a b c (H1 & H2 & H3 & H4 & H5 & H6) (H1' & H2' & H3' & H4' & H5' & H6').
  unfold Page.evolves. repeat split; try congruence.
  intros id e He. destruct (H6 id e He) as (e' & He' & Hp).
  destruct (H6' id e' He') as (e'' & He'' & Hp').
  exists e''. split; [exact He''|]. etransitivity; eassumption.
Qed.

Lemma evolves_alter (f : Dom.HTMLElement -> Dom.HTMLElement) (id : nat)
    (doc : Dom.Document) :
  (forall e, Page.persists e (f e)) ->
  Page.evolves doc (Dom.with_elements (alter f id (Dom.elements doc)) doc).
Proof.
  intros Hf. unfold Page.evolves. cbn. repeat split; try reflexivity.
  intros i e He. destruct (decide (i = id)) as [->|Hne].
  - exists (f e). rewrite lookup_alter_eq, He. split; [reflexivity | apply Hf].
  - exists e. rewrite lookup_alter_ne by congruence. split; [exact He | reflexivity].
Qed.

Lemma evolves_createElement : keeps Page.evolves Dom.createElement_canvas.
Proof.
  intros doc. unfold exec, Dom.createElement_canvas, Page.evolves. cbn.
  repeat split; try reflexivity.
  intros i e He. exists e. split; [|reflexivity].
  rewrite lookup_insert_ne; [exact He|].
  intros <-. pose proof (is_fresh (dom (Dom.elements doc))) as Hfr.
  apply not_elem_of_dom in Hfr. congruence.
Qed.

Lemma evolves_querySelector (selector : string) :
  keeps Page.evolves (Dom.querySelector selector).
Proof.
  intros doc. unfold exec, Dom.querySelector.
  destruct (Dom.selectors doc selector); reflexivity.
Qed.

Lemma evolves_body_appendChild (id : nat) : keeps Page.evolves (Dom.body_appendChild id).
Proof.
  intros doc. unfold exec, Dom.body_appendChild.
  destruct (Dom.has_body doc); cbn; [|reflexivity].
  apply evolves_alter. intros e. unfold Page.persists. cbn. auto.
Qed.

Lemma evolves_body_removeChild (id : nat) : keeps Page.evolves (Dom.body_removeChild id).
Proof.
  intros doc. unfold exec, Dom.body_removeChild.
  destruct (Dom.has_body doc); cbn; [|reflexivity].
  destruct (Dom.parent_of id doc) as [[|]|]; cbn; try reflexivity.
  apply evolves_alter. intros e. unfold Page.persists. cbn. auto.
Qed.

Lemma evolves_remove (id : nat) : keeps Page.evolves (Dom.remove id).
Proof.
  intros doc. unfold exec, Dom.remove. cbn.
  apply evolves_alter. intros e. unfold Page.persists. cbn. auto.
Qed.

Lemma evolves_set_data (id : nat) (k v : string) : keeps Page.evolves (Dom.set_data id k v).
Proof.
  intros doc. unfold exec, Dom.set_data. cbn.
  apply evolves_alter. intros e. unfold Page.persists. cbn. auto.
Qed.

Lemma evolves_transferControlToOffscreen (id : nat) :
  keeps Page.evolves (Dom.transferControlToOffscreen id).
Proof.
  intros doc. unfold exec, Dom.transferControlToOffscreen.
  destruct (Dom.elements doc !! id) as [e|]; [|reflexivity].
  destruct (Dom.transferred e); cbn; [reflexivity|].
  apply evolves_alter. intros e'. unfold Page.persists. cbn. auto.
Qed.

Lemma keeps_dom_A {A} (R : Dom.Document -> Dom.Document -> Prop) (m : M Dom.Document A) :
  keeps R m -> keeps (on ModulesRegister.document R) (ModulesRegister.dom m).
Proof.
  intros Hm st. specialize (Hm (ModulesRegister.document st)).
  unfold on, exec, ModulesRegister.dom in *.
  destruct (m (ModulesRegister.document st)); exact Hm.
Qed.

Lemma keeps_dom_B {A} (R : Dom.Document -> Dom.Document -> Prop) (m : M Dom.Document A) :
  keeps R m -> keeps (on CoreRegister.document R) (CoreRegister.dom m).
Proof.
  intros Hm st. specialize (Hm (CoreRegister.document st)).
  unfold on, exec, CoreRegister.dom in *.
  destruct (m (CoreRegister.document st)); exact Hm.
Qed.

End PageEvolves.

#[global] Hint Resolve evolves_createElement evolves_querySelector
  evolves_body_appendChild evolves_body_removeChild evolves_remove
  evolves_set_data evolves_transferControlToOffscreen keeps_dom_A keeps_dom_B
  : frames.

(** A step that leaves the document alone *)
Ltac frame_document_leaf :=
  intros ?; unfold on, exec; cbn; reflexivity.

#[global] Hint Extern 6 (keeps (on _ _) _) => frame_document_leaf : frames.

(** The element objects of the document *)
Lemma transferControlToOffscreen_dom (id : nat) :
  keeps (same (fun doc => dom (Dom.elements doc))) (Dom.transferControlToOffscreen id).
Proof.
  intros doc. unfold same, exec, Dom.transferControlToOffscreen.
  destruct (Dom.elements doc !! id) as [e|]; [|reflexivity].
  destruct (Dom.transferred e); cbn; [reflexivity|]. now rewrite dom_alter_L.
Qed.

Lemma body_removeChild_dom (id : nat) :
  keeps (same (fun doc => dom (Dom.elements doc))) (Dom.body_removeChild id).
Proof.
  intros doc. unfold same, exec, Dom.body_removeChild.
  destruct (Dom.has_body doc); [|reflexivity].
  destruct (Dom.parent_of id doc) as [[|]|]; cbn; try reflexivity.
  now rewrite dom_alter_L.
Qed.

Lemma remove_dom (id : nat) :
  keeps (same (fun doc => dom (Dom.elements doc))) (Dom.remove id).
Proof. intros doc. unfold same, exec, Dom.remove. cbn. now rewrite dom_alter_L. Qed.

#[global] Hint Resolve transferControlToOffscreen_dom body_removeChild_dom remove_dom
  : frames.

(** ** The core module: what a history sets up and tears down *)

Section CoreHistories.
Import CoreModule.

Lemma setup_trace_app (xs ys : list SubsystemCall) :
  CoreTrace.setup_trace (xs ++ ys) = CoreTrace.setup_trace xs ++ CoreTrace.setup_trace ys.
Proof. unfold CoreTrace.setup_trace. apply List.filter_app. Qed.

Lemma setup_trace_setup (props : CoreModuleMessageEventData) (c : OffscreenCanvas) :
  CoreTrace.setup_trace (setup_calls props c) = setup_calls props c.
Proof. reflexivity. Qed.

(** One operation, by whether it is the one that initialises *)
Lemma perform_setup (op : Op) (st : State) :
  let st' := exec (perform op) st in
  match CoreTrace.brought op with
  | Some (props, c) =>
      if initialized st
      then initialized st' = true
           /\ CoreTrace.setup_trace (calls st') = CoreTrace.setup_trace (calls st)
      else initialized st' = true
           /\ calls st' = calls st ++ setup_calls props c
  | None =>
      initialized st' = initialized st
      /\ CoreTrace.setup_trace (calls st') = CoreTrace.setup_trace (calls st)
  end.
Proof.
  destruct op as [props | [[d|]] | |]; cbn [perform CoreTrace.brought data].
  - destruct (canvas props) as [c|] eqn:Hc; cbn [fmap option_fmap option_map].
    + destruct (initialized st) eqn:Hi.
      * unfold exec. rewrite init_when_initialized by exact Hi. cbn. auto.
      * unfold init; unfold_monad. rewrite Hc, Hi. cbn.
        rewrite <- !app_assoc. auto.
    + unfold exec. rewrite init_without_canvas by exact Hc. cbn. auto.
  - destruct (canvas d) as [c|] eqn:Hc; cbn [fmap option_fmap option_map].
    + destruct (initialized st) eqn:Hi.
      * unfold _onMessage; unfold_monad. cbn. rewrite Hc, Hi. cbn. auto.
      * unfold _onMessage, init; unfold_monad. cbn. rewrite Hc, Hi. cbn.
        rewrite Hi. cbn. rewrite <- !app_assoc. auto.
    + unfold _onMessage; unfold_monad. cbn. rewrite Hc. cbn. auto.
  - unfold _onMessage; unfold_monad. cbn. auto.
  - unfold tick; unfold_monad. destruct (initialized st) eqn:Hi; cbn; auto.
    rewrite setup_trace_app. cbn. now rewrite app_nil_r.
  - unfold dispose; unfold_monad. cbn.
    rewrite <- !app_assoc, setup_trace_app. cbn. now rewrite app_nil_r.
Qed.

Lemma after_initialized_setup (ops : list Op) (st : State) :
  initialized st = true ->
  initialized (after ops st) = true
  /\ CoreTrace.setup_trace (calls (after ops st)) = CoreTrace.setup_trace (calls st).
Proof.
  revert st. induction ops as [|op ops IH]; intros st Hi; [auto|].
  rewrite after_cons.
  pose proof (perform_setup op st) as Hop. cbv zeta in Hop. rewrite Hi in Hop.
  destruct (CoreTrace.brought op) as [[props c]|];
    destruct Hop as [Hi' Hs];
    destruct (IH _ Hi') as [Hi'' Hs'']; rewrite Hs'', Hs; auto.
Qed.

Lemma after_setup (ops : list Op) (st : State) :
  initialized st = false ->
  CoreTrace.setup_trace (calls (after ops st))
  = CoreTrace.setup_trace (calls st) ++ CoreTrace.first_setup ops
  /\ initialized (after ops st) = bool_decide (is_Some (head (omap CoreTrace.brought ops))).
Proof.
  revert st. induction ops as [|op ops IH]; intros st Hi.
  - cbn. rewrite app_nil_r, Hi. split; reflexivity.
  - rewrite after_cons.
    pose proof (perform_setup op st) as Hop. cbv zeta in Hop. rewrite Hi in Hop.
    unfold CoreTrace.first_setup. cbn [omap list_omap].
    destruct (CoreTrace.brought op) as [[props c]|]; cbn [head].
    + destruct Hop as [Hi' Hc].
      destruct (after_initialized_setup ops _ Hi') as [Hi'' Hs].
      rewrite Hs, Hc, setup_trace_app, setup_trace_setup, Hi''.
      split; [reflexivity|]. symmetry. apply bool_decide_eq_true. eauto.
    + destruct Hop as [Hi' Hs].
      destruct (IH _ Hi') as [IH1 IH2]. rewrite IH1, Hs, IH2. auto.
Qed.

Lemma after_repeat_dispose (k : nat) (st : State) :
  calls (after (repeat Dispose k) st)
  = calls st ++ concat (repeat CoreTrace.disposal_calls k)
  /\ initialized (after (repeat Dispose k) st) = initialized st
  /\ component_canvas (after (repeat Dispose k) st) = component_canvas st
  /\ (forall k', k = Datatypes.S k' ->
      lifecycle'' (after (repeat Dispose k) st)
      = Rx.complete (Rx.next DISPOSED (lifecycle'' st))).
Proof.
  revert st. induction k as [|k IH]; intros st.
  - cbn. rewrite app_nil_r. repeat split; auto. discriminate.
  - cbn [repeat]. rewrite after_cons.
    destruct (IH (exec (perform Dispose) st)) as (Hc & Hi & Hcv & Hl).
    assert (Hd : exec (perform Dispose) st
                 = {| initialized := initialized st;
                      component_canvas := component_canvas st;
                      lifecycle'' := Rx.complete (Rx.next DISPOSED (lifecycle'' st));
                      calls := calls st ++ CoreTrace.disposal_calls |}).
    { cbn [perform]. unfold dispose; unfold_monad; cbn -[Rx.next Rx.complete].
      rewrite <- !app_assoc. reflexivity. }
    rewrite Hd in *. rewrite Hc, Hi, Hcv.
    cbn [calls initialized component_canvas concat].
    rewrite <- app_assoc. repeat split.
    intros k' _. destruct k as [|k].
    + reflexivity.
    + rewrite (Hl k eq_refl). cbn [lifecycle''].
      unfold Rx.complete, Rx.next. cbn. reflexivity.
Qed.

End CoreHistories.

(** X1.  In any history of [init] calls, messages, update ticks and
    [dispose] calls on a core module, the subsystem setup ([sizes],
    [timer], [camera], [world], [renderer], [debug], in this order) is run
    at most once: with the props and the surface of the first operation
    that brings a surface, also when [dispose] came first, and never with
    those of a later one.  The module reports itself initialised exactly
    when some operation has brought a surface. *)
Theorem X1_core_setup_runs_once (ops : list CoreModule.Op) :
  let st := CoreModule.after ops CoreModule.fresh in
  CoreTrace.setup_trace (CoreModule.calls st) = CoreTrace.first_setup ops
  /\ CoreModule.isInitialized st
     = bool_decide (is_Some (head (omap CoreTrace.brought ops))).
Proof.
  cbv zeta. destruct (after_setup ops CoreModule.fresh eq_refl) as [Hs Hi].
  split; [exact Hs | exact Hi].
Qed.

(** X2.  [dispose] of the core module has no guard of its own: called
    [k+1] times in a row, it disposes of the five subsystems [k+1] times
    (timer, camera, renderer, sizes, world), while the lifecycle stream
    gets at most one DISPOSED, the one of the first call if the stream was
    still open, and is completed; the [initialized] flag and the canvas of
    the component are not reset. *)
Theorem X2_core_dispose_is_not_guarded (k : nat) (st : CoreModule.State) :
  let st' := CoreModule.after (repeat CoreModule.Dispose (S k)) st in
  CoreModule.calls st'
  = CoreModule.calls st ++ concat (repeat CoreTrace.disposal_calls (S k))
  /\ CoreModule.lifecycle' st'
     = CoreModule.lifecycle' st
         ++ (if Rx.closed (CoreModule.lifecycle'' st) then [] else [CoreModule.DISPOSED])
  /\ Rx.closed (CoreModule.lifecycle'' st') = true
  /\ CoreModule.isInitialized st' = CoreModule.isInitialized st
  /\ CoreModule.component_canvas st' = CoreModule.component_canvas st.
Proof.
  cbv zeta. destruct (after_repeat_dispose (S k) st) as (Hc & Hi & Hcv & Hl).
  specialize (Hl k eq_refl).
  unfold CoreModule.lifecycle', CoreModule.isInitialized. rewrite Hc, Hi, Hcv, Hl.
  repeat split; try reflexivity.
  unfold Rx.next. destruct (Rx.closed (CoreModule.lifecycle'' st)); cbn;
    [now rewrite app_nil_r | reflexivity].
Qed.

(** ** The earlier core module *)

Section EarlierCore.
Import EarlierCoreModule.

Lemma after_snoc (ops : list Op) (op : Op) (st : State) :
  after (ops ++ [op]) st = exec (perform op) (after ops st).
Proof. unfold after. now rewrite fold_left_app. Qed.

Lemma perform_appends (op : Op) (st : State) :
  exists new,
    exec (perform op) st = st ++ new
    /\ rendered new = option_list (CoreModule.with_style <$> surface_of op)
    /\ resized new = option_list (size_of op).
Proof.
  destruct op as [[[d|]] | e]; cbn [perform surface_of size_of CoreModule.data].
  - unfold onmessage. cbn [CoreModule.data mbind option_bind].
    destruct (CoreModule.canvas d) as [c|]; cbn.
    + unfold init, setSize, call; unfold_monad. cbn.
      rewrite <- !app_assoc. eexists. split; [reflexivity|]. cbn. auto.
    + exists []. now rewrite app_nil_r.
  - exists []. cbn. now rewrite app_nil_r.
  - destruct e; cbn [exposed];
      unfold setSize, setPointerLock, mouseMove, keyEvent, call; unfold_monad; cbn;
      try (eexists; split; [reflexivity|]; cbn; auto).
    exists []. now rewrite app_nil_r.
Qed.

End EarlierCore.

(** X3.  The earlier core module initialises on every message that
    carries a canvas, with no guard: after any history of messages and
    remote calls, the renderer has been set up once per such message, in
    order, each time with the canvas of the message carrying the [style]
    made of its size; the controller has been told, in order, the size of
    each of these canvases and the sizes given to [setSize].  What the
    worker exposes as [init] does nothing. *)
Theorem X3_earlier_core_reinitialises (ops : list EarlierCoreModule.Op)
    (st : EarlierCoreModule.State) :
  EarlierCoreModule.rendered (EarlierCoreModule.after ops [])
  = CoreModule.with_style <$> omap EarlierCoreModule.surface_of ops
  /\ EarlierCoreModule.resized (EarlierCoreModule.after ops [])
     = omap EarlierCoreModule.size_of ops
  /\ EarlierCoreModule.perform (EarlierCoreModule.Remote EarlierCoreModule.exposed_init) st
     = (Returned tt, st).
Proof.
  split; [|split; [|reflexivity]].
  - induction ops as [|op ops IH] using rev_ind; [reflexivity|].
    rewrite after_snoc.
    destruct (perform_appends op (EarlierCoreModule.after ops [])) as (new & -> & Hr & _).
    unfold EarlierCoreModule.rendered in *. rewrite omap_app, IH, Hr.
    rewrite omap_app, fmap_app. f_equal. cbn.
    destruct (EarlierCoreModule.surface_of op); reflexivity.
  - induction ops as [|op ops IH] using rev_ind; [reflexivity|].
    rewrite after_snoc.
    destruct (perform_appends op (EarlierCoreModule.after ops [])) as (new & -> & _ & Hr).
    unfold EarlierCoreModule.resized in *. rewrite omap_app, IH, Hr.
    rewrite omap_app. reflexivity.
Qed.

(** ** The core controller *)

(** X4.  [resize$] of the core controller delivers the values given to
    [resize], all of them and in call order, after what it had delivered
    before; [resize] never touches the lifecycle stream and completes
    neither stream. *)
Theorem X4_controller_resize_stream {Vector2Like : Type}
    (sizes : list Vector2Like) (st : CoreController.State Vector2Like) :
  Rx.closed (CoreController.resize'' st) = false ->
  let st' := fold_left (fun st s => exec (CoreController.resize s) st) sizes st in
  CoreController.resize' st' = CoreController.resize' st ++ sizes
  /\ Rx.closed (CoreController.resize'' st') = false
  /\ CoreController.lifecycle'' st' = CoreController.lifecycle'' st.
Proof.
  cbv zeta. revert st. induction sizes as [|s sizes IH]; intros st Hcl.
  - cbn. now rewrite app_nil_r.
  - cbn [fold_left].
    assert (Hst : exec (CoreController.resize s) st
                  = {| CoreController.lifecycle'' := CoreController.lifecycle'' st;
                       CoreController.resize'' :=
                         {| Rx.emitted := Rx.emitted (CoreController.resize'' st) ++ [s];
                            Rx.closed := false |} |}).
    { unfold CoreController.resize; unfold_monad. cbn. unfold Rx.next. now rewrite Hcl. }
    rewrite Hst.
    match goal with |- context [fold_left _ sizes ?st1] =>
      destruct (IH st1 eq_refl) as (H1 & H2 & H3) end.
    rewrite H1, H2, H3. unfold CoreController.resize'. cbn.
    now rewrite <- app_assoc.
Qed.

Lemma X4_controller_resize_stream_witness :
  CoreController.resize'
    (fold_left (fun st s => exec (CoreController.resize s) st) [(800, 600); (1280, 720)]%Z
       CoreController.new)
  = [(800, 600); (1280, 720)]%Z.
Proof.
  exact (proj1 (X4_controller_resize_stream [(800, 600); (1280, 720)]%Z
                  CoreController.new eq_refl)).
Defined.

(** ** The register module of [modules/register]: starting and restarting *)

Section ModulesRegisterRuns.
Import ModulesRegister ModulesRegisterUse.

Lemma designated_element (supplied : JS.value) (doc : Dom.Document) (c : nat) :
  Surface.designated supplied doc = Some c ->
  exists e, Dom.elements doc !! c = Some e /\ Dom.is_canvas e = true.
Proof.
  unfold Surface.designated, Dom.is_canvas_element.
  destruct supplied as [ | | | | |selector| |id| ]; try discriminate.
  - destruct (Dom.selectors doc selector) as [[id|]|]; try discriminate.
    destruct (Dom.elements doc !! id) as [e|] eqn:He; [|discriminate].
    destruct (Dom.is_canvas e) eqn:Hc; [|discriminate].
    intros [= <-]. eauto.
  - destruct (Dom.elements doc !! id) as [e|] eqn:He; [|discriminate].
    destruct (Dom.is_canvas e) eqn:Hc; [|discriminate].
    intros [= <-]. eauto.
Qed.

Lemma designated_not_fresh (supplied : JS.value) (doc : Dom.Document) (c : nat) :
  Surface.designated supplied doc = Some c -> c <> Surface.next_element doc.
Proof.
  intros Hd Heq. apply designated_element in Hd as (e & He & _).
  rewrite Heq, next_element_fresh in He. discriminate.
Qed.

Lemma selector_failure_designated (supplied : JS.value) (doc : Dom.Document) (e : string) :
  Surface.selector_failure supplied doc = Some e ->
  Surface.designated supplied doc = None.
Proof.
  unfold Surface.selector_failure, Surface.designated.
  destruct supplied; try discriminate.
  destruct (Dom.selectors doc s) as [[id|]|]; try discriminate. reflexivity.
Qed.

(** What [_initCanvas] leaves for the stages that follow *)
Lemma initCanvas_A_settles (st : State) :
  let st2 := exec _initCanvas st in
  let c := resolved_canvas st in
  component_canvas st2 = Some c
  /\ is_Some (Dom.elements (document st2) !! c)
  /\ Page.transferable c (document st2) = Page.transferable c (document st)
  /\ Dom.layout (document st2) = Dom.layout (document st)
  /\ registerProps st2 = registerProps st
  /\ component_core st2 = component_core st
  /\ lifecycle'' st2 = lifecycle'' st
  /\ base.dom (Dom.elements (document st2))
     = {[Surface.next_element (document st)]} ∪ base.dom (Dom.elements (document st))
  /\ exists log,
       effects st2 = effects st ++ log
       /\ (log = [] \/ exists m, log = [console_error m]).
Proof.
  cbv zeta. unfold exec. rewrite initCanvas_A. unfold resolved_canvas, Page.transferable.
  set (doc := document st). set (c0 := Surface.next_element doc).
  pose proof (next_element_fresh doc) as Hfresh. fold c0 in Hfresh.
  destruct (Surface.selector_failure _ _) as [e|] eqn:Hf.
  { rewrite (selector_failure_designated _ _ _ Hf). cbn.
    rewrite lookup_insert_eq, Hfresh. cbn.
    repeat split; eauto; try (rewrite ?dom_alter_L, dom_insert_L; reflexivity). }
  destruct (Surface.designated _ _) as [c|] eqn:Hd; cbn [default from_option id].
  - destruct (designated_element _ _ _ Hd) as (e & He & _).
    pose proof (designated_not_fresh _ _ _ Hd) as Hne. fold doc c0 in Hne.
    fold doc in He. rewrite He.
    destruct (Dom.attached c _); cbn.
    + rewrite lookup_insert_ne, He by congruence.
      repeat split; eauto; try (rewrite ?dom_alter_L, dom_insert_L; reflexivity). exists []. rewrite app_nil_r. auto.
    + unfold Dom.body_appendChild. cbn. destruct (Dom.has_body doc); cbn.
      * rewrite lookup_alter_eq, lookup_insert_ne, He by congruence. cbn.
        repeat split; eauto; try (rewrite ?dom_alter_L, dom_insert_L; reflexivity). exists []. rewrite app_nil_r. auto.
      * rewrite lookup_insert_ne, He by congruence.
        repeat split; eauto; try (rewrite ?dom_alter_L, dom_insert_L; reflexivity).
  - rewrite Hfresh.
    pose proof (fresh_canvas_detached doc) as Hdet. fold c0 in Hdet. rewrite Hdet.
    unfold Dom.body_appendChild. cbn. destruct (Dom.has_body doc); cbn.
    + rewrite lookup_alter_eq, lookup_insert_eq. cbn.
      repeat split; eauto; try (rewrite ?dom_alter_L, dom_insert_L; reflexivity). exists []. rewrite app_nil_r. auto.
    + rewrite lookup_insert_eq. cbn. repeat split; eauto; try (rewrite ?dom_alter_L, dom_insert_L; reflexivity).
Qed.




Lemma init_A_props (answer : RunResult) : keeps (same registerProps) (init answer).
Proof.
  unfold init, _initCanvas, _initCore, _initComponent, _initController. frame.
Qed.

(** [init], once the canvas is settled *)
Lemma init_A_stages (answer : RunResult) (st : State) :
  init answer st
  = (step _initCore answer;
     step _initComponent;
     step _initController;
     lifecycle_next INITIALIZED)%js
      (exec _initCanvas (exec (effect registerSerializer_object3D) st)).
Proof.
  unfold init. rewrite (bind_returned _ _ st tt) by reflexivity.
  rewrite (bind_returned _ _ _ tt) by apply initCanvas_A_returns.
  reflexivity.
Qed.

(** Every [init] makes one more element object, used or not *)
Lemma init_A_dom (answer : RunResult) (st : State) :
  base.dom (Dom.elements (document (exec (init answer) st)))
  = {[Surface.next_element (document st)]} ∪ base.dom (Dom.elements (document st)).
Proof.
  unfold exec at 1. rewrite init_A_stages.
  set (st0 := exec (effect registerSerializer_object3D) st).
  destruct (initCanvas_A_settles st0) as (_ & _ & _ & _ & _ & _ & _ & Hdom & _).
  change (document st0) with (document st) in Hdom. rewrite <- Hdom.
  assert (Hk : keeps (on document (same (fun doc => base.dom (Dom.elements doc))))
                 (step _initCore answer;
                  step _initComponent;
                  step _initController;
                  lifecycle_next INITIALIZED)%js).
  { unfold _initCore, _initComponent, _initController. frame. }
  apply (Hk (exec _initCanvas st0)).
Qed.

(** The three ways [init] can end, with what it leaves *)
Lemma init_A_outcome (answer : RunResult) (st : State) :
  let c := resolved_canvas st in
  let st' := exec (init answer) st in
  let spawn := spawn_request (registerProps st) (Page.offscreen_of (document st) c) in
  exists log,
    (log = [] \/ exists m, log = [console_error m])
    /\ if Page.transferable c (document st) then
         match answer with
         | Resolved h =>
             if Pool.complete h then
               fst (init answer st) = Returned tt
               /\ component_canvas st' = Some c
               /\ component_core st' = Some h
               /\ lifecycle'' st' = Rx.next INITIALIZED (lifecycle'' st)
               /\ Page.transferable c (document st') = false
               /\ effects st'
                  = effects st
                      ++ registerSerializer_object3D :: log
                      ++ [spawn; component_init (Some h)]
                      ++ controller_effects st' c
             else
               fst (init answer st) = Thrown "Unable to retrieve core info."
               /\ component_core st' = component_core st
               /\ lifecycle'' st' = lifecycle'' st
               /\ effects st'
                  = effects st ++ registerSerializer_object3D :: log ++ [spawn]
         | Rejected message =>
             fst (init answer st) = Thrown message
             /\ component_core st' = component_core st
             /\ lifecycle'' st' = lifecycle'' st
             /\ effects st'
                = effects st ++ registerSerializer_object3D :: log ++ [spawn]
         end
       else
         fst (init answer st)
         = Thrown "Cannot transfer control from a canvas for more than one time."
         /\ component_core st' = component_core st
         /\ lifecycle'' st' = lifecycle'' st
         /\ effects st' = effects st ++ registerSerializer_object3D :: log.
Proof.
  cbv zeta. unfold exec at 1 2 3 4 5 6 7 8 9 10 11 12 13 14 15.
  rewrite init_A_stages.
  set (st0 := exec (effect registerSerializer_object3D) st).
  destruct (initCanvas_A_settles st0)
    as (Hc & [e He] & Htr & Hlay & Hprops & Hcore & Hlc & _ & log & Heff & Hlog).
  change (resolved_canvas st0) with (resolved_canvas st) in *.
  change (document st0) with (document st) in *.
  change (registerProps st0) with (registerProps st) in *.
  change (component_core st0) with (component_core st) in *.
  change (lifecycle'' st0) with (lifecycle'' st) in *.
  change (effects st0) with (effects st ++ [registerSerializer_object3D]) in *.
  set (c := resolved_canvas st) in *.
  set (st2 := exec _initCanvas st0) in *.
  exists log. split; [exact Hlog|].
  rewrite <- Htr. unfold Page.transferable. rewrite He.
  unfold _initCore, _initComponent, _initController, ModulesRegister.dom,
    Dom.transferControlToOffscreen, controller_effects, spawn_request, Page.offscreen_of.
  unfold_monad. rewrite Hc. cbn. rewrite He.
  destruct (Dom.transferred e) eqn:Ht; cbn.
  { rewrite Hcore, Hlc, Heff, <- app_assoc. repeat split; reflexivity. }
  rewrite Hlay, Hprops.
  destruct answer as [h|message]; cbn.
  - destruct h as [[t|] [w|]]; cbn; rewrite ?Hc; cbn;
      [|rewrite ?Hcore, ?Hlc, ?Heff, <- ?app_assoc; cbn; rewrite <- ?app_assoc;
        repeat split; reflexivity ..].
    destruct (Pool.exposes_resize t) eqn:Hex; cbn;
      rewrite ?lookup_alter_eq, ?He; cbn; rewrite ?Hex; cbn;
      rewrite ?Hlc, ?Hcore, ?Heff, <- ?app_assoc; cbn; rewrite <- ?app_assoc; cbn;
      repeat split; reflexivity.
  - rewrite ?Hcore, ?Hlc, ?Heff, <- ?app_assoc; cbn; rewrite <- ?app_assoc.
    repeat split; reflexivity.
Qed.

Lemma designated_stable (supplied : JS.value) (doc doc' : Dom.Document) (c : nat) :
  Page.evolves doc doc' ->
  Surface.designated supplied doc = Some c ->
  Surface.designated supplied doc' = Some c.
Proof.
  intros (_ & Hsel & _ & _ & _ & Hel) Hd.
  assert (Hcan : forall id, Dom.is_canvas_element id doc = true ->
                            Dom.is_canvas_element id doc' = true).
  { intros id. unfold Dom.is_canvas_element.
    destruct (Dom.elements doc !! id) as [e|] eqn:He; [|discriminate].
    destruct (Hel id e He) as (e' & -> & Hc & _). congruence. }
  unfold Surface.designated in *. rewrite Hsel.
  destruct supplied as [ | | | | |selector| |id| ]; try discriminate.
  - destruct (Dom.selectors doc selector) as [[id|]|]; try discriminate.
    destruct (Dom.is_canvas_element id doc) eqn:Hc; [|discriminate].
    now rewrite (Hcan id Hc).
  - destruct (Dom.is_canvas_element id doc) eqn:Hc; [|discriminate].
    now rewrite (Hcan id Hc).
Qed.

Lemma no_canvas_input_designated (supplied : JS.value) (doc : Dom.Document) :
  Page.no_canvas_input supplied = true -> Surface.designated supplied doc = None.
Proof. destruct supplied; try discriminate; reflexivity. Qed.

Lemma spawn_requests_app (xs ys : list Effect) :
  spawn_requests (xs ++ ys) = (spawn_requests xs + spawn_requests ys)%nat.
Proof. unfold spawn_requests. now rewrite List.filter_app, length_app. Qed.

Lemma spawn_requests_log (log : list Effect) :
  log = [] \/ (exists m, log = [console_error m]) -> spawn_requests log = 0%nat.
Proof. intros [-> | [m ->]]; reflexivity. Qed.

Lemma spawn_requests_controller (st : State) (c : nat) :
  spawn_requests (controller_effects st c) = 0%nat.
Proof.
  unfold controller_effects.
  destruct (component_core st) as [[[t|] [w|]]|]; try reflexivity.
  destruct (Pool.exposes_resize t); reflexivity.
Qed.

Lemma fresh_transferable (doc : Dom.Document) :
  Page.transferable (Surface.next_element doc) doc = true.
Proof. unfold Page.transferable. now rewrite next_element_fresh. Qed.

Lemma loadResources_lifecycle (props : LoadProps) (answer : RunResult) :
  keeps (same lifecycle'') (loadResources props answer).
Proof. unfold loadResources. frame. Qed.

Lemma perform_stream (c : Call) (st : State) :
  Rx.closed (lifecycle'' st) = false ->
  Rx.emitted (lifecycle'' (exec (perform c) st))
  = Rx.emitted (lifecycle'' st) ++ option_list (announced c (fst (perform c st)))
  /\ Rx.closed (lifecycle'' (exec (perform c) st)) = false.
Proof.
  intros Hcl. destruct c as [answer | props answer |]; cbn [perform].
  - destruct (init_A_outcome answer st) as (log & _ & H). cbv zeta in H.
    destruct (Page.transferable _ _).
    + destruct answer as [h|message].
      * destruct (Pool.complete h).
        -- destruct H as (-> & _ & _ & -> & _). cbn.
           unfold Rx.next. rewrite Hcl. auto.
        -- destruct H as (-> & _ & -> & _). cbn. now rewrite app_nil_r.
      * destruct H as (-> & _ & -> & _). cbn. now rewrite app_nil_r.
    + destruct H as (-> & _ & -> & _). cbn. now rewrite app_nil_r.
  - assert (Hk : keeps (same lifecycle'')
                   (step loadResources props answer; ret tt)%js).
    { pose proof (loadResources_lifecycle props answer). frame. }
    rewrite (Hk st).
    assert (Hn : announced (LoadResources props answer)
                   (fst ((step loadResources props answer; ret tt)%js st)) = None).
    { destruct (fst _); reflexivity. }
    rewrite Hn. cbn. now rewrite app_nil_r.
  - unfold dispose; unfold_monad. cbn. unfold Rx.next. rewrite Hcl. auto.
Qed.

End ModulesRegisterRuns.

(** X5.  [init] of the register module of [modules/register] returns
    normally exactly when the canvas it settles on (the designated one,
    else the one it creates) has not yet given its control to an offscreen
    canvas and the pool resolves with a handle that has both a thread and
    a worker.  Neither a selector that throws nor a document without body
    makes it fail. *)
Theorem X5_modules_register_init_succeeds_iff
    (answer : ModulesRegister.RunResult) (st : ModulesRegister.State) :
  fst (ModulesRegister.init answer st) = Returned tt
  <-> Page.transferable (ModulesRegisterUse.resolved_canvas st)
        (ModulesRegister.document st) = true
      /\ exists h,
           answer = ModulesRegister.Resolved h
           /\ is_Some (Pool.thread h) /\ is_Some (Pool.worker h).
Proof.
  destruct (init_A_outcome answer st) as (log & _ & H). cbv zeta in H.
  destruct (Page.transferable _ _).
  - destruct answer as [h|message].
    + destruct (Pool.complete h) eqn:Hh.
      * destruct H as (Hret & _). apply complete_iff in Hh. split; eauto.
      * destruct H as (Hret & _). split.
        -- rewrite Hret. discriminate.
        -- intros (_ & h' & [= <-] & Ht & Hw).
           assert (Pool.complete h = true) by (apply complete_iff; auto). congruence.
    + destruct H as (Hret & _). split.
      * rewrite Hret. discriminate.
      * intros (_ & h' & [=] & _).
  - destruct H as (Hret & _). split.
    + rewrite Hret. discriminate.
    + intros [[=] _].
Qed.






Section ModulesRegisterHistories.
Import ModulesRegister ModulesRegisterUse.

Lemma init_A_size (answer : RunResult) (st : State) :
  size (Dom.elements (document (exec (init answer) st)))
  = S (size (Dom.elements (document st))).
Proof.
  rewrite <- !size_dom, init_A_dom, size_union, size_singleton; [reflexivity|].
  apply disjoint_singleton_l. unfold Surface.next_element. apply is_fresh.
Qed.

Lemma init_A_fallback (h : Pool.WorkerThread) (st : State) :
  Page.no_canvas_input (canvas (registerProps st)) = true ->
  Pool.complete h = true ->
  let st' := exec (init (Resolved h)) st in
  fst (init (Resolved h) st) = Returned tt
  /\ component_canvas st' = Some (Surface.next_element (document st))
  /\ lifecycle'' st' = Rx.next INITIALIZED (lifecycle'' st)
  /\ spawn_requests (effects st') = S (spawn_requests (effects st)).
Proof.
  intros Hno Hh. cbv zeta.
  destruct (init_A_outcome (Resolved h) st) as (log & Hlog & H). cbv zeta in H.
  unfold resolved_canvas in H.
  rewrite (no_canvas_input_designated _ _ Hno) in H. cbn [default from_option id] in H.
  rewrite fresh_transferable, Hh in H.
  destruct H as (Hret & Hc & _ & Hl & _ & He).
  repeat split; try assumption.
  rewrite He, spawn_requests_app.
  change (registerSerializer_object3D :: log ++ ?x)
    with ([registerSerializer_object3D] ++ log ++ x).
  rewrite !spawn_requests_app, (spawn_requests_log log Hlog),
    spawn_requests_controller. cbn. lia.
Qed.

Lemma after_cons_A (c : Call) (calls : list Call) (st : State) :
  after (c :: calls) st = after calls (exec (perform c) st).
Proof. reflexivity. Qed.

End ModulesRegisterHistories.

(** X8.  When the caller names no canvas, every [init] of
    [modules/register] that gets a handle with a thread and a worker
    starts the module anew: [n] calls in a row all return, create [n]
    canvas elements, ask the pool [n] times and emit INITIALIZED [n]
    times. *)
Theorem X8_modules_register_starts_anew
    (hs : list Pool.WorkerThread) (st : ModulesRegister.State) :
  Page.no_canvas_input
    (ModulesRegister.canvas (ModulesRegister.registerProps st)) = true ->
  Forall (fun h => Pool.complete h = true) hs ->
  Rx.closed (ModulesRegister.lifecycle'' st) = false ->
  let st' := ModulesRegisterUse.after
               ((fun h => ModulesRegisterUse.Init (ModulesRegister.Resolved h)) <$> hs) st in
  Rx.emitted (ModulesRegister.lifecycle'' st')
  = Rx.emitted (ModulesRegister.lifecycle'' st)
      ++ repeat ModulesRegister.INITIALIZED (length hs)
  /\ ModulesRegister.spawn_requests (ModulesRegister.effects st')
     = (ModulesRegister.spawn_requests (ModulesRegister.effects st) + length hs)%nat
  /\ size (Dom.elements (ModulesRegister.document st'))
     = (size (Dom.elements (ModulesRegister.document st)) + length hs)%nat.
Proof.
  intros Hno Hhs Hcl. cbv zeta. revert st Hno Hcl.
  induction Hhs as [|h hs Hh Hhs IH]; intros st Hno Hcl.
  - cbn. rewrite app_nil_r. repeat split; lia.
  - cbn [fmap list_fmap]. rewrite after_cons_A. cbn [ModulesRegisterUse.perform].
    destruct (init_A_fallback h st Hno Hh) as (_ & _ & Hl & Hs).
    pose proof (init_A_props (ModulesRegister.Resolved h) st) as Hp. unfold same in Hp.
    pose proof (init_A_size (ModulesRegister.Resolved h) st) as Hsz.
    set (st1 := exec (ModulesRegister.init (ModulesRegister.Resolved h)) st) in *.
    assert (Hcl1 : Rx.closed (ModulesRegister.lifecycle'' st1) = false).
    { rewrite Hl. unfold Rx.next. now rewrite Hcl. }
    destruct (IH st1) as (IH1 & IH2 & IH3); [now rewrite Hp | exact Hcl1 |].
    rewrite IH1, IH2, IH3, Hl, Hs, Hsz. unfold Rx.next. rewrite Hcl. cbn.
    rewrite <- app_assoc. repeat split; lia.
Qed.

Lemma X8_modules_register_starts_anew_witness :
  let st := ModulesRegister.construct Fixtures.empty_page Fixtures.props_A in
  let st' := ModulesRegisterUse.after
               [ModulesRegisterUse.Init (ModulesRegister.Resolved Fixtures.a_handle);
                ModulesRegisterUse.Init (ModulesRegister.Resolved Fixtures.a_handle);
                ModulesRegisterUse.Init (ModulesRegister.Resolved Fixtures.a_handle)] st in
  Rx.emitted (ModulesRegister.lifecycle'' st')
  = [ModulesRegister.INITIALIZED; ModulesRegister.INITIALIZED; ModulesRegister.INITIALIZED]
  /\ ModulesRegister.spawn_requests (ModulesRegister.effects st') = 3%nat
  /\ size (Dom.elements (ModulesRegister.document st')) = 3%nat.
Proof.
  cbv zeta.
  pose proof (X8_modules_register_starts_anew
                [Fixtures.a_handle; Fixtures.a_handle; Fixtures.a_handle]
                (ModulesRegister.construct Fixtures.empty_page Fixtures.props_A)
                eq_refl
                ltac:(repeat constructor)
                eq_refl) as H.
  exact H.
Defined.

(** X9.  The lifecycle stream of the register module of
    [modules/register] is the log of what was done to it: one INITIALIZED
    for each [init] that returned, none for an [init] that threw, one
    DISPOSED for each [dispose], nothing for [loadResources], in call
    order.  No method completes the stream, so DISPOSED is not final:
    whatever is called later is still announced. *)
Theorem X9_modules_register_stream
    (calls : list ModulesRegisterUse.Call) (st : ModulesRegister.State) :
  Rx.closed (ModulesRegister.lifecycle'' st) = false ->
  let st' := ModulesRegisterUse.after calls st in
  Rx.emitted (ModulesRegister.lifecycle'' st')
  = Rx.emitted (ModulesRegister.lifecycle'' st)
      ++ ModulesRegisterUse.announcements calls st
  /\ Rx.closed (ModulesRegister.lifecycle'' st') = false.
Proof.
  cbv zeta. revert st. induction calls as [|c calls IH]; intros st Hcl.
  - cbn. now rewrite app_nil_r.
  - rewrite after_cons_A. cbn [ModulesRegisterUse.announcements].
    destruct (perform_stream c st Hcl) as [He Hcl1].
    destruct (IH _ Hcl1) as [IH1 IH2].
    rewrite IH1, He, <- app_assoc. auto.
Qed.

Lemma X9_modules_register_stream_witness :
  let answer := ModulesRegister.Resolved Fixtures.a_handle in
  let st := ModulesRegister.construct Fixtures.empty_page Fixtures.props_A in
  Rx.emitted
    (ModulesRegister.lifecycle''
       (ModulesRegisterUse.after
          [ModulesRegisterUse.Dispose;
           ModulesRegisterUse.Init answer;
           ModulesRegisterUse.Init (ModulesRegister.Resolved Fixtures.worker_only);
           ModulesRegisterUse.Dispose;
           ModulesRegisterUse.Init answer] st))
  = [ModulesRegister.DISPOSED; ModulesRegister.INITIALIZED;
     ModulesRegister.DISPOSED; ModulesRegister.INITIALIZED].
Proof.
  cbv zeta.
  exact (proj1 (X9_modules_register_stream
                  [ModulesRegisterUse.Dispose;
                   ModulesRegisterUse.Init (ModulesRegister.Resolved Fixtures.a_handle);
                   ModulesRegisterUse.Init (ModulesRegister.Resolved Fixtures.worker_only);
                   ModulesRegisterUse.Dispose;
                   ModulesRegisterUse.Init (ModulesRegister.Resolved Fixtures.a_handle)]
                  (ModulesRegister.construct Fixtures.empty_page Fixtures.props_A)
                  eq_refl)).
Defined.

(** X10.  [loadResources] touches nothing of the module but its
    collaborators: the document, the props, the canvas, the core handle
    and the lifecycle stream are as they were.  It always asks the pool
    for a loader worker first; a rejection of the pool is thrown on, and
    a resolved handle is always returned, never refused: with no thread
    in it, nothing is subscribed, loaded or read. *)
Theorem X10_load_resources_frame
    (props : ModulesRegister.LoadProps) (answer : ModulesRegister.RunResult)
    (st : ModulesRegister.State) :
  let st' := exec (ModulesRegister.loadResources props answer) st in
  (ModulesRegister.document st' = ModulesRegister.document st
   /\ ModulesRegister.registerProps st' = ModulesRegister.registerProps st
   /\ ModulesRegister.canvas_ st' = ModulesRegister.canvas_ st
   /\ ModulesRegister.core st' = ModulesRegister.core st
   /\ ModulesRegister.lifecycle'' st' = ModulesRegister.lifecycle'' st)
  /\ (exists rest,
        ModulesRegister.effects st'
        = ModulesRegister.effects st
            ++ ModulesRegister.workerPool_run_loader (ModulesRegister.resources props)
               :: rest)
  /\ match answer with
     | ModulesRegister.Rejected message =>
         fst (ModulesRegister.loadResources props answer st) = Thrown message
         /\ ModulesRegister.effects st'
            = ModulesRegister.effects st
                ++ [ModulesRegister.workerPool_run_loader (ModulesRegister.resources props)]
     | ModulesRegister.Resolved h =>
         fst (ModulesRegister.loadResources props answer st) = Returned h
         /\ (Pool.thread h = None ->
             ModulesRegister.effects st'
             = ModulesRegister.effects st
                 ++ [ModulesRegister.workerPool_run_loader
                       (ModulesRegister.resources props)])
     end.
Proof.
  cbv zeta. unfold ModulesRegister.loadResources, ModulesRegister.canvas_,
    ModulesRegister.core; unfold_monad.
  destruct answer as [[[t|] w]|message]; cbn.
  - destruct (JS.true_or_unset (ModulesRegister.immediateLoad props)); cbn;
      rewrite <- !app_assoc; cbn; repeat split; eauto; discriminate.
  - repeat split; eauto.
  - repeat split; eauto.
Qed.

(** ** The register module of [core/register]: starting, stopping, restarting *)

Section CoreRegisterRuns.
Import CoreRegister CoreRegisterUse.

Lemma init_B_stages (answer : RunResult) (st : State) :
  initialized st = false ->
  init answer st = later_stages answer (onReady (props st)) (exec _initCanvas st).
Proof.
  intros Hi. unfold init, later_stages.
  rewrite (bind_returned _ _ st st) by reflexivity.
  change (exec get st) with st. rewrite Hi.
  rewrite (bind_returned _ _ st tt) by apply initCanvas_B_returns.
  reflexivity.
Qed.

(** The stages after the canvas stage, on a module that holds a canvas *)
Lemma later_stages_B (answer : RunResult) (st : State) (c : nat) (e : Dom.HTMLElement) :
  service_canvas st = Some c ->
  Dom.elements (document st) !! c = Some e ->
  let off := Page.offscreen_of (document st) c in
  later_stages answer (onReady (props st)) st
  = if Dom.transferred e then
      (Thrown "Cannot transfer control from a canvas for more than one time.", st)
    else
      match accepted answer with
      | Some h =>
          (Returned tt,
           {| document := transferred_document c (document st);
              props := props st;
              initialized := initialized st;
              service_canvas := Some c;
              service_offscreenCanvas := Some off;
              service_worker := Pool.worker h;
              service_thread := Pool.thread h;
              effects := effects st ++ started_effects (props st) c off h |})
      | None =>
          (Thrown (refusal answer),
           {| document := transferred_document c (document st);
              props := props st;
              initialized := initialized st;
              service_canvas := Some c;
              service_offscreenCanvas := Some off;
              service_worker := service_worker st;
              service_thread := service_thread st;
              effects := effects st
                           ++ [workerPool_run (location (props st)) off [off]] |})
      end.
Proof.
  destruct st as [doc p ini cc off0 w0 t0 effs]. cbn. intros -> He.
  unfold later_stages, _initWorkerThread, _initService, _initController,
    _initObservableProxyEvents, _initLoader, CoreRegister.dom,
    Dom.transferControlToOffscreen, started_effects, transferred_document,
    Page.offscreen_of.
  unfold_monad. cbn. rewrite He.
  destruct (Dom.transferred e); cbn; [reflexivity|].
  destruct answer as [[h|] [|] | message]; cbn; try reflexivity.
  destruct h as [[t|] [w|]]; cbn;
    destruct (onReady p); cbn;
    try (destruct (JS.truthy (fullScreen p)); cbn);
    unfold effect; unfold_monad; cbn;
    rewrite <- ?app_assoc; cbn; reflexivity.
Qed.

Lemma later_stages_no_canvas (answer : RunResult) (ready : option nat) (st : State) :
  service_canvas st = None ->
  later_stages answer ready st = (Thrown "Canvas element is not initialized.", st).
Proof.
  intros Hc. unfold later_stages, _initWorkerThread; unfold_monad. now rewrite Hc.
Qed.

(** What the canvas stage leaves *)
Lemma initCanvas_B_fields (st : State) :
  held st ->
  let st2 := exec _initCanvas st in
  service_canvas st2 = settled st
  /\ effects st2 = effects st ++ canvas_log st
  /\ props st2 = props st
  /\ initialized st2 = initialized st
  /\ service_offscreenCanvas st2 = service_offscreenCanvas st
  /\ service_worker st2 = service_worker st
  /\ service_thread st2 = service_thread st
  /\ Dom.layout (document st2) = Dom.layout (document st)
  /\ (forall c, settled st = Some c ->
      exists e, Dom.elements (document st2) !! c = Some e
                /\ Dom.transferred e = negb (Page.transferable c (document st))).
Proof.
  intros Hheld. cbv zeta. unfold exec. rewrite initCanvas_B.
  unfold settled, canvas_log, Page.transferable.
  destruct st as [doc p ini cc off w t effs]. unfold held in Hheld. cbn in *.
  set (c0 := Surface.next_element doc).
  pose proof (next_element_fresh doc) as Hfresh. fold c0 in Hfresh.
  destruct (Surface.selector_failure _ _) as [err|]; cbn.
  { repeat split; try reflexivity.
    intros c ->. destruct (Hheld c eq_refl) as [e He]. rewrite He.
    exists e. split; [reflexivity|]. now rewrite negb_involutive. }
  destruct (Surface.designated _ _) as [c|] eqn:Hd; cbn.
  { rewrite app_nil_r. repeat split; try reflexivity.
    intros c' [= <-]. destruct (designated_element _ _ _ Hd) as (e & He & _).
    rewrite He. exists e. split; [reflexivity|]. now rewrite negb_involutive. }
  destruct cc as [x|]; cbn.
  { rewrite app_nil_r. repeat split; try reflexivity.
    intros c' [= <-]. destruct (Hheld x eq_refl) as [e He]. rewrite He.
    exists e. split; [reflexivity|]. now rewrite negb_involutive. }
  fold c0.
  destruct (Dom.has_body doc); cbn.
  - rewrite app_nil_r. repeat split; try reflexivity; try discriminate.
    intros c' [= <-]. rewrite lookup_insert_eq, Hfresh. eexists. split; reflexivity.
  - repeat split; try reflexivity; try discriminate.
    intros c' [= <-]. rewrite lookup_insert_eq, Hfresh. eexists. split; reflexivity.
Qed.

Lemma initCanvas_B_document (st : State) :
  document (exec _initCanvas st) = canvas_document st.
Proof.
  unfold exec. rewrite initCanvas_B. unfold canvas_document.
  destruct (Surface.selector_failure _ _); [reflexivity|].
  destruct (Surface.designated _ _); [reflexivity|].
  destruct (service_canvas st); [reflexivity|].
  destruct (Dom.has_body _); reflexivity.
Qed.

(** The ways [init] can end, with the state it leaves *)
Lemma init_B_outcome (answer : RunResult) (st : State) :
  initialized st = false ->
  held st ->
  let st2 := exec _initCanvas st in
  match settled st with
  | None => init answer st = (Thrown "Canvas element is not initialized.", st2)
  | Some c =>
      let off := Page.offscreen_of (document st) c in
      if Page.transferable c (document st) then
        match accepted answer with
        | Some h =>
            init answer st
            = (Returned tt,
               {| document := transferred_document c (document st2);
                  props := props st;
                  initialized := false;
                  service_canvas := Some c;
                  service_offscreenCanvas := Some off;
                  service_worker := Pool.worker h;
                  service_thread := Pool.thread h;
                  effects := effects st ++ canvas_log st
                               ++ started_effects (props st) c off h |})
        | None =>
            init answer st
            = (Thrown (refusal answer),
               {| document := transferred_document c (document st2);
                  props := props st;
                  initialized := false;
                  service_canvas := Some c;
                  service_offscreenCanvas := Some off;
                  service_worker := service_worker st;
                  service_thread := service_thread st;
                  effects := effects st ++ canvas_log st
                               ++ [workerPool_run (location (props st)) off [off]] |})
        end
      else
        init answer st
        = (Thrown "Cannot transfer control from a canvas for more than one time.", st2)
  end.
Proof.
  intros Hi Hheld. cbv zeta. rewrite (init_B_stages answer st Hi).
  destruct (initCanvas_B_fields st Hheld)
    as (Hc & He & Hp & Hi2 & Hoff & Hw & Ht & Hlay & Hel).
  set (st2 := exec _initCanvas st) in *.
  destruct (settled st) as [c|].
  2:{ now apply later_stages_no_canvas. }
  destruct (Hel c eq_refl) as (e & Helem & Htr).
  rewrite <- Hp, (later_stages_B answer st2 c e Hc Helem), Htr.
  unfold Page.offscreen_of. rewrite Hlay, Hp, Hi2, Hi, Hw, Ht, He.
  destruct (Page.transferable c (document st)); cbn;
    [destruct (accepted answer)|]; rewrite <- ?app_assoc; reflexivity.
Qed.

Lemma set_canvas_held (st : State) (c : nat) :
  service_canvas st = Some c -> exec (set_canvas (Some c)) st = st.
Proof. destruct st. cbn. now intros ->. Qed.

Lemma designated_inv (supplied : JS.value) (doc doc' : Dom.Document) (c : nat) :
  Dom.selectors doc' = Dom.selectors doc ->
  Surface.designated supplied doc' = Some c ->
  Dom.is_canvas_element c doc = true ->
  Surface.designated supplied doc = Some c.
Proof.
  intros Hsel Hd Hc. unfold Surface.designated in *. rewrite Hsel in Hd.
  destruct supplied as [ | | | | |selector| |id| ]; try discriminate.
  - destruct (Dom.selectors doc selector) as [[id|]|]; try discriminate.
    destruct (Dom.is_canvas_element id doc') eqn:Hc'; [|discriminate].
    injection Hd as ->. now rewrite Hc.
  - destruct (Dom.is_canvas_element id doc') eqn:Hc'; [|discriminate].
    injection Hd as ->. now rewrite Hc.
Qed.

Lemma selector_failure_stable (supplied : JS.value) (doc doc' : Dom.Document) :
  Dom.selectors doc' = Dom.selectors doc ->
  Surface.selector_failure supplied doc' = Surface.selector_failure supplied doc.
Proof. intros Hsel. unfold Surface.selector_failure. now rewrite Hsel. Qed.

Lemma construct_held (doc : Dom.Document) (p : RegisterPropsBlueprint) :
  held (construct doc p).
Proof. intros c. discriminate. Qed.

Lemma construct_settled (doc : Dom.Document) (p : RegisterPropsBlueprint) :
  settled (construct doc p)
  = match Surface.selector_failure (canvas p) doc with
    | Some _ => None
    | None => Some (default (Surface.next_element doc)
                            (Surface.designated (canvas p) doc))
    end.
Proof.
  unfold settled. cbn.
  destruct (Surface.selector_failure _ _); [reflexivity|].
  destruct (Surface.designated _ _); reflexivity.
Qed.

Lemma init_B_initialized (answer : RunResult) : keeps (same initialized) (init answer).
Proof.
  unfold init, _initCanvas, _initWorkerThread, _initService, _initController,
    _initObservableProxyEvents, _initLoader. frame.
Qed.

Lemma dispose_B_initialized (st : State) :
  initialized st = false -> initialized (exec dispose st) = false.
Proof.
  intros Hi. unfold dispose, CoreRegister.dom, Dom.body_removeChild, Dom.remove.
  unfold_monad. cbn.
  destruct (service_offscreenCanvas st); cbn;
    (destruct (service_canvas st) as [c|]; cbn; [|reflexivity]);
    (destruct (marked c (document st)); cbn; [|reflexivity]);
    (destruct (Dom.has_body (document st)); cbn; [|exact Hi]);
    destruct (Dom.parent_of c (document st)) as [[|]|]; cbn;
    first [reflexivity | exact Hi].
Qed.

Lemma after_cons_B (c : Call) (calls : list Call) (st : State) :
  after (c :: calls) st = after calls (exec (perform c) st).
Proof. reflexivity. Qed.

(** A module that holds a canvas which gave its control away: [init]
    fails at once and leaves the module as it was. *)
Lemma init_B_stuck (answer : RunResult) (st : State) (c : nat) :
  initialized st = false ->
  service_canvas st = Some c ->
  Page.transferable c (document st) = false ->
  Surface.selector_failure (canvas (props st)) (document st) = None ->
  (forall c', Surface.designated (canvas (props st)) (document st) = Some c' -> c' = c) ->
  init answer st
  = (Thrown "Cannot transfer control from a canvas for more than one time.", st).
Proof.
  intros Hi Hc Htr Hf Hd.
  assert (Hheld : held st).
  { intros c' Hc'. rewrite Hc in Hc'. injection Hc' as <-.
    unfold Page.transferable in Htr.
    destruct (Dom.elements (document st) !! c); [eauto | discriminate]. }
  assert (Hset : settled st = Some c).
  { unfold settled. rewrite Hf, Hc.
    destruct (Surface.designated _ _) as [c'|] eqn:E; [|reflexivity].
    now rewrite (Hd c' eq_refl). }
  assert (Hst : exec _initCanvas st = st).
  { unfold exec. rewrite initCanvas_B, Hf, Hc.
    destruct (Surface.designated _ _) as [c'|] eqn:E; [|reflexivity].
    rewrite (Hd c' eq_refl). cbn [snd]. now apply set_canvas_held. }
  pose proof (init_B_outcome answer st Hi Hheld) as H. cbv zeta in H.
  now rewrite Hset, Htr, Hst in H.
Qed.

(** The module, right after a successful first [init] *)
Lemma started_B (doc : Dom.Document) (p : RegisterPropsBlueprint) (answer : RunResult) :
  let st0 := construct doc p in
  let st1 := exec (init answer) st0 in
  let c := default (Surface.next_element doc) (Surface.designated (canvas p) doc) in
  fst (init answer st0) = Returned tt ->
  initialized st1 = false
  /\ props st1 = p
  /\ service_canvas st1 = Some c
  /\ document st1 = transferred_document c (canvas_document st0)
  /\ Surface.selector_failure (canvas p) doc = None
  /\ Page.transferable c doc = true.
Proof.
  cbv zeta. intros Hret.
  pose proof (init_B_outcome answer (construct doc p) eq_refl (construct_held doc p)) as H.
  cbv zeta in H. rewrite construct_settled, initCanvas_B_document in H.
  change (document (construct doc p)) with doc in H.
  destruct (Surface.selector_failure _ _) as [e|].
  { rewrite H in Hret. discriminate. }
  destruct (Page.transferable _ doc).
  - unfold exec. destruct (accepted answer); rewrite H in *; [|discriminate].
    cbn. auto 10.
  - rewrite H in Hret. discriminate.
Qed.

Lemma started_B_designated (doc : Dom.Document) (p : RegisterPropsBlueprint) (c' : nat) :
  let st0 := construct doc p in
  let c := default (Surface.next_element doc) (Surface.designated (canvas p) doc) in
  Surface.selector_failure (canvas p) doc = None ->
  Surface.designated (canvas p) (transferred_document c (canvas_document st0)) = Some c' ->
  c' = c.
Proof.
  cbv zeta. intros Hf Hd.
  unfold canvas_document in Hd. cbn [document props service_canvas construct] in Hd.
  rewrite Hf in Hd.
  destruct (Surface.designated (canvas p) doc) as [c|] eqn:E; cbn [default from_option id] in *.
  - assert (Hev : Page.evolves doc (transferred_document c doc)).
    { apply evolves_alter. intros e. unfold Page.persists. cbn. auto. }
    rewrite (designated_stable _ _ _ c Hev E) in Hd. congruence.
  - destruct (decide (c' = Surface.next_element doc)) as [->|Hne]; [reflexivity|].
    exfalso.
    destruct (designated_element _ _ _ Hd) as (e & He & Hcan).
    unfold transferred_document in He. cbn in He.
    rewrite lookup_alter_ne, lookup_insert_ne in He by congruence.
    assert (Hc : Dom.is_canvas_element c' doc = true).
    { unfold Dom.is_canvas_element. now rewrite He. }
    assert (Hd0 : Surface.designated (canvas p) doc = Some c').
    { eapply designated_inv; [|exact Hd|exact Hc]. reflexivity. }
    congruence.
Qed.

End CoreRegisterRuns.




(** X13.  The [initialized] flag of the register module of
    [core/register] is never raised: whatever [init] and [dispose] calls a
    freshly constructed module goes through, with whatever answers of the
    pool, [isInitialized] answers false, so the guard at the head of
    [init] never ends a call. *)
Theorem X13_core_register_never_initialized
    (calls : list CoreRegisterUse.Call)
    (doc : Dom.Document) (p : CoreRegister.RegisterPropsBlueprint) :
  CoreRegister.isInitialized
    (CoreRegisterUse.after calls (CoreRegister.construct doc p)) = false.
Proof.
  unfold CoreRegister.isInitialized.
  assert (H : forall st, CoreRegister.initialized st = false ->
                         CoreRegister.initialized (CoreRegisterUse.after calls st) = false).
  { induction calls as [|c calls IH]; intros st Hi; [exact Hi|].
    rewrite after_cons_B. apply IH. destruct c as [answer|]; cbn [CoreRegisterUse.perform].
    - rewrite (init_B_initialized answer st). exact Hi.
    - now apply dispose_B_initialized. }
  now apply H.
Qed.

(** X14.  A second [init] of the register module of [core/register],
    right after a first one that succeeded, always fails: the canvas the
    module settled on cannot give its control again.  The failed call
    leaves the module exactly as it was: nothing is asked of the pool,
    nothing is logged, [onReady] is not called. *)
Theorem X14_core_register_second_init_fails
    (doc : Dom.Document) (p : CoreRegister.RegisterPropsBlueprint)
    (first again : CoreRegister.RunResult) :
  let st0 := CoreRegister.construct doc p in
  fst (CoreRegister.init first st0) = Returned tt ->
  let st1 := exec (CoreRegister.init first) st0 in
  CoreRegister.init again st1
  = (Thrown "Cannot transfer control from a canvas for more than one time.", st1).
Proof.
  cbv zeta. intros Hret.
  destruct (started_B doc p first Hret) as (Hi & Hp & Hc & Hdoc & Hf & Htr).
  set (st1 := exec (CoreRegister.init first) (CoreRegister.construct doc p)) in *.
  set (c := default (Surface.next_element doc)
                    (Surface.designated (CoreRegister.canvas p) doc)) in *.
  destruct (initCanvas_B_fields (CoreRegister.construct doc p) (construct_held doc p))
    as (_ & _ & _ & _ & _ & _ & _ & _ & Hel).
  rewrite construct_settled, Hf, initCanvas_B_document in Hel.
  destruct (Hel c eq_refl) as (e & He & _).
  apply (init_B_stuck again st1 c Hi Hc).
  - rewrite Hdoc. unfold Page.transferable, CoreRegisterUse.transferred_document. cbn.
    now rewrite lookup_alter_eq, He.
  - rewrite Hp, Hdoc, (selector_failure_stable _ doc); [exact Hf|].
    unfold CoreRegisterUse.canvas_document. cbn. rewrite Hf.
    destruct (Surface.designated _ _); reflexivity.
  - rewrite Hp, Hdoc. intros c'. now apply started_B_designated.
Qed.

Lemma X14_core_register_second_init_fails_witness :
  let answer := CoreRegister.Resolved (Some Fixtures.a_handle) false in
  let st1 := exec (CoreRegister.init answer)
               (CoreRegister.construct Fixtures.empty_page Fixtures.props_B) in
  CoreRegister.init answer st1
  = (Thrown "Cannot transfer control from a canvas for more than one time.", st1).
Proof.
  cbv zeta.
  exact (X14_core_register_second_init_fails Fixtures.empty_page Fixtures.props_B
           (CoreRegister.Resolved (Some Fixtures.a_handle) false)
           (CoreRegister.Resolved (Some Fixtures.a_handle) false) eq_refl).
Defined.



Section CoreRegisterRestarts.
Import CoreRegister CoreRegisterUse.






End CoreRegisterRestarts.



Section CoreRegisterSupplied.
Import CoreRegister CoreRegisterUse.

(** A module stuck on a canvas that is not its own: what every call
    keeps *)
Lemma stuck_perform (c : nat) (call : Call) (st : State) :
  initialized st = false ->
  service_canvas st = Some c ->
  Page.transferable c (document st) = false ->
  Surface.selector_failure (canvas (props st)) (document st) = None ->
  Surface.designated (canvas (props st)) (document st) = Some c ->
  marked c (document st) = false ->
  let st' := exec (perform call) st in
  initialized st' = false
  /\ service_canvas st' = Some c
  /\ document st' = document st
  /\ props st' = props st.
Proof.
  intros Hi Hc Htr Hf Hd Hm. cbv zeta. destruct call as [answer|]; cbn [perform].
  - unfold exec. rewrite (init_B_stuck answer st c Hi Hc Htr Hf); [cbn; auto|].
    intros c' Hd'. congruence.
  - unfold exec. rewrite dispose_kept.
    + cbn. auto.
    + intros c' Hc'. congruence.
Qed.

End CoreRegisterSupplied.

(** X17.  A register module of [core/register] that was started on a
    canvas of the caller (an element, or a selector that resolves to one)
    which does not carry the mark [reactive = "true"] cannot be started
    again, whatever [init] and [dispose] calls come in between: [dispose]
    leaves that canvas in the service, and every later [init] fails on
    the second transfer of its control, leaving the module as it was. *)
Theorem X17_core_register_supplied_canvas_starts_once
    (doc : Dom.Document) (p : CoreRegister.RegisterPropsBlueprint) (c : nat)
    (first again : CoreRegister.RunResult) (calls : list CoreRegisterUse.Call) :
  Surface.designated (CoreRegister.canvas p) doc = Some c ->
  CoreRegister.marked c doc = false ->
  fst (CoreRegister.init first (CoreRegister.construct doc p)) = Returned tt ->
  let st := CoreRegisterUse.after calls
              (exec (CoreRegister.init first) (CoreRegister.construct doc p)) in
  CoreRegister.getCanvas st = Some c
  /\ CoreRegister.init again st
     = (Thrown "Cannot transfer control from a canvas for more than one time.", st).
Proof.
  intros Hd Hm Hret. cbv zeta.
  destruct (started_B doc p first Hret) as (Hi & Hp & Hc & Hdoc & Hf & Htr).
  rewrite Hd in Hc, Hdoc, Htr. cbn [default from_option id] in Hc, Hdoc, Htr.
  assert (Hcd : CoreRegisterUse.canvas_document (CoreRegister.construct doc p) = doc).
  { unfold CoreRegisterUse.canvas_document. cbn. now rewrite Hf, Hd. }
  rewrite Hcd in Hdoc.
  destruct (designated_element _ _ _ Hd) as (e & He & _).
  assert (Hev : Page.evolves doc (CoreRegisterUse.transferred_document c doc)).
  { apply evolves_alter. intros e'. unfold Page.persists. cbn. auto. }
  set (st1 := exec (CoreRegister.init first) (CoreRegister.construct doc p)) in *.
  assert (K : CoreRegister.initialized st1 = false
              /\ CoreRegister.service_canvas st1 = Some c
              /\ Page.transferable c (CoreRegister.document st1) = false
              /\ Surface.selector_failure (CoreRegister.canvas (CoreRegister.props st1))
                   (CoreRegister.document st1) = None
              /\ Surface.designated (CoreRegister.canvas (CoreRegister.props st1))
                   (CoreRegister.document st1) = Some c
              /\ CoreRegister.marked c (CoreRegister.document st1) = false).
  { rewrite Hp, Hdoc.
    split; [exact Hi|]. split; [exact Hc|]. split; [|split; [|split]].
    - unfold Page.transferable, CoreRegisterUse.transferred_document. cbn.
      now rewrite lookup_alter_eq, He.
    - exact Hf.
    - now apply (designated_stable _ doc).
    - unfold CoreRegister.marked, Dom.data_of, CoreRegisterUse.transferred_document in *.
      cbn. rewrite lookup_alter_eq. rewrite He in *. exact Hm. }
  clearbody st1. clear - K.
  revert st1 K. induction calls as [|call calls IH]; intros st1 (Hi & Hc & Htr & Hf & Hd & Hm).
  - cbn. split; [exact Hc|].
    apply (init_B_stuck again st1 c Hi Hc Htr Hf). intros c' Hd'. congruence.
  - rewrite after_cons_B.
    destruct (stuck_perform c call st1 Hi Hc Htr Hf Hd Hm) as (Hi' & Hc' & Hdoc' & Hp').
    apply IH. rewrite Hp', Hdoc'. auto 10.
Qed.

Lemma X17_core_register_supplied_canvas_starts_once_witness :
  let answer := CoreRegister.Resolved (Some Fixtures.a_handle) false in
  let st := CoreRegisterUse.after [CoreRegisterUse.Dispose]
              (exec (CoreRegister.init answer)
                 (CoreRegister.construct CanvasFixtures.page
                    (CanvasFixtures.props_B (JS.String "#app")))) in
  fst (CoreRegister.init answer st)
  = Thrown "Cannot transfer control from a canvas for more than one time.".
Proof.
  cbv zeta.
  pose proof (X17_core_register_supplied_canvas_starts_once
                CanvasFixtures.page (CanvasFixtures.props_B (JS.String "#app")) 0%nat
                (CoreRegister.Resolved (Some Fixtures.a_handle) false)
                (CoreRegister.Resolved (Some Fixtures.a_handle) false)
                [CoreRegisterUse.Dispose] eq_refl eq_refl eq_refl) as H.
  cbv zeta in H. destruct H as [_ H]. now rewrite H.
Defined.

(** ** The loader streams: order, errors and the way from the main thread *)

Section LoaderDeliveries.
Import LoaderController LoaderDelivery.

Context (TOKEN : string) {Object3D AnimationClip AnimationClipJSON : Type}
        (deserializeObject3D : string -> outcome Object3D)
        (AnimationClip_parse : AnimationClipJSON -> outcome AnimationClip).

Let load := load' TOKEN deserializeObject3D AnimationClip_parse.
Let deserialize := deserialize_payload deserializeObject3D AnimationClip_parse.

Lemma map_throwing_spec {A B} (f : A -> outcome B) (xs : list A) (ys : list B) :
  map_throwing f xs = Returned ys <-> Forall2 (fun x y => f x = Returned y) xs ys.
Proof.
  revert ys. induction xs as [|x xs IH]; intros ys; cbn.
  - split.
    + intros [= <-]. constructor.
    + intros H. inversion H. reflexivity.
  - destruct (f x) as [y|e] eqn:Hx.
    + destruct (map_throwing f xs) as [ys'|e] eqn:Hxs.
      * split.
        -- intros [= <-]. constructor; [exact Hx | now apply IH].
        -- intros H. inversion H as [|? y0 ? ys0 Hy Hys]; subst.
           apply IH in Hys. congruence.
      * split; [discriminate|].
        intros H. inversion H as [|? y0 ? ys0 Hy Hys]; subst.
        apply IH in Hys. discriminate.
    + split; [discriminate|].
      intros H. inversion H; subst. congruence.
Qed.

Lemma optional_map_throwing_spec {A B} (f : A -> outcome B)
    (xs : option (list A)) (ys : option (list B)) :
  optional_map_throwing f xs = Returned ys <-> parsed f xs ys.
Proof.
  unfold optional_map_throwing, parsed. destruct xs as [xs|].
  - destruct (map_throwing f xs) as [ys'|e] eqn:H.
    + destruct ys as [ys|].
      * rewrite <- map_throwing_spec, H. split; congruence.
      * split; [discriminate | contradiction].
    + destruct ys as [ys|]; [|split; [discriminate | contradiction]].
      rewrite <- map_throwing_spec, H. split; discriminate.
  - destruct ys; split; try discriminate; try contradiction; auto.
Qed.

Lemma deserialize_progress (p : SerializedLoadedResourcePayload AnimationClipJSON)
    (v : LoadedResourcePayload Object3D AnimationClip AnimationClipJSON) :
  deserialize p = Returned v -> progress_of v = progress_of p.
Proof.
  unfold deserialize, deserialize_payload.
  destruct (_ && _).
  - destruct (optional_map_throwing _ _); [|discriminate].
    destruct (optional_map_throwing _ _); [|discriminate].
    destruct (deserializeObject3D _); [|discriminate].
    destruct (optional_map_throwing _ _); [|discriminate].
    intros [= <-]. reflexivity.
  - intros [= <-]. reflexivity.
Qed.

Lemma accepted_payload (event : MessageEvent AnimationClipJSON) :
  accepted TOKEN event = true -> is_Some (data event ≫= payload).
Proof.
  unfold accepted. destruct (data event) as [envelope|]; [|discriminate]. cbn.
  destruct (payload envelope); [eauto|]. now rewrite andb_false_r.
Qed.

(** One more message, by cases *)
Lemma load_cons (event : MessageEvent AnimationClipJSON)
    (events : list (MessageEvent AnimationClipJSON)) :
  load (event :: events)
  = match admitted TOKEN [event] with
    | [] => load events
    | p :: _ =>
        match deserialize p with
        | Returned v => {| values := v :: values (load events);
                           failure := failure (load events) |}
        | Thrown e => {| values := []; failure := Some e |}
        end
    end.
Proof.
  unfold load, deserialize, admitted. cbn.
  destruct (accepted TOKEN event) eqn:Ha; [|reflexivity].
  destruct (accepted_payload event Ha) as [p Hp]. rewrite Hp. reflexivity.
Qed.

Lemma admitted_cons (event : MessageEvent AnimationClipJSON)
    (events : list (MessageEvent AnimationClipJSON)) :
  admitted TOKEN (event :: events) = admitted TOKEN [event] ++ admitted TOKEN events.
Proof.
  unfold admitted. cbn.
  destruct (if accepted TOKEN event then _ else _); reflexivity.
Qed.

Lemma load_app (xs ys : list (MessageEvent AnimationClipJSON)) :
  load (xs ++ ys)
  = match failure (load xs) with
    | Some _ => load xs
    | None => {| values := values (load xs) ++ values (load ys);
                 failure := failure (load ys) |}
    end.
Proof.
  induction xs as [|x xs IH].
  - cbn. now destruct (load ys).
  - cbn [app]. rewrite !load_cons.
    destruct (admitted TOKEN [x]) as [|p ?]; [exact IH|].
    destruct (deserialize p) as [v|e]; [|reflexivity].
    rewrite IH. cbn. destruct (failure (load xs)) eqn:E; cbn; rewrite ?E; reflexivity.
Qed.

Lemma load_delivers (events : list (MessageEvent AnimationClipJSON)) :
  failure (load events) = None ->
  Forall2 (fun p v => deserialize p = Returned v /\ progress_of v = progress_of p)
    (admitted TOKEN events) (values (load events)).
Proof.
  induction events as [|event events IH]; intros Hf.
  - constructor.
  - rewrite admitted_cons. rewrite load_cons in Hf |- *.
    destruct (admitted TOKEN [event]) as [|p rest] eqn:Ha; [now apply IH|].
    assert (rest = []) as ->.
    { unfold admitted in Ha. cbn in Ha.
      destruct (if accepted TOKEN event then _ else _); now inversion Ha. }
    destruct (deserialize p) as [v|e] eqn:Hd; [|discriminate].
    cbn in *. constructor; [|now apply IH].
    split; [exact Hd | now apply deserialize_progress].
Qed.

End LoaderDeliveries.

(** X18.  As long as no deserialization throws, [load$] delivers one
    payload for each message its filter lets through, in the order of
    arrival: the payload of the message after [map], with the counters
    and the source of the message untouched. *)
Theorem X18_load_delivers_in_order
    (TOKEN : string) (Object3D AnimationClip AnimationClipJSON : Type)
    (deserializeObject3D : string -> outcome Object3D)
    (AnimationClip_parse : AnimationClipJSON -> outcome AnimationClip)
    (events : list (LoaderController.MessageEvent AnimationClipJSON)) :
  let loaded := LoaderController.load' TOKEN deserializeObject3D AnimationClip_parse events in
  LoaderController.failure loaded = None ->
  Forall2
    (fun p v =>
       LoaderController.deserialize_payload deserializeObject3D AnimationClip_parse p
       = Returned v
       /\ LoaderDelivery.progress_of v = LoaderDelivery.progress_of p)
    (LoaderDelivery.admitted TOKEN events)
    (LoaderController.values loaded)
  /\ length (LoaderController.values loaded)
     = length (LoaderDelivery.admitted TOKEN events).
Proof.
  cbv zeta. intros Hf.
  pose proof (load_delivers TOKEN deserializeObject3D AnimationClip_parse events Hf) as H.
  split; [exact H|]. symmetry. exact (Forall2_length _ _ _ H).
Qed.

Lemma X18_load_delivers_in_order_witness :
  length (LoaderController.values
            (LoaderController.load' LoaderFixtures.TOKEN
               LoaderFixtures.deserializeObject3D LoaderFixtures.AnimationClip_parse
               [LoaderFixtures.texture; LoaderFixtures.model]))
  = length (LoaderDelivery.admitted LoaderFixtures.TOKEN
              [LoaderFixtures.texture; LoaderFixtures.model]).
Proof.
  exact (proj2 (X18_load_delivers_in_order LoaderFixtures.TOKEN string string string
                  LoaderFixtures.deserializeObject3D LoaderFixtures.AnimationClip_parse
                  [LoaderFixtures.texture; LoaderFixtures.model] eq_refl)).
Defined.

(** X19.  A message whose deserialization throws ends [load$] and
    [loadCompleted$] with that error: what was delivered before it stays
    delivered, and no message that arrives after it is delivered, however
    well formed. *)
Theorem X19_load_ends_on_error
    (TOKEN : string) (Object3D AnimationClip AnimationClipJSON : Type)
    (deserializeObject3D : string -> outcome Object3D)
    (AnimationClip_parse : AnimationClipJSON -> outcome AnimationClip)
    (before later : list (LoaderController.MessageEvent AnimationClipJSON))
    (bad : LoaderController.MessageEvent AnimationClipJSON)
    (p : Resource.Progressed (LoaderController.SerializedResource AnimationClipJSON))
    (e : string) :
  let load' := LoaderController.load' TOKEN deserializeObject3D AnimationClip_parse in
  let loadCompleted' :=
    LoaderController.loadCompleted' TOKEN deserializeObject3D AnimationClip_parse in
  LoaderController.failure (load' before) = None ->
  LoaderDelivery.admitted TOKEN [bad] = [p] ->
  LoaderController.deserialize_payload deserializeObject3D AnimationClip_parse p = Thrown e ->
  load' (before ++ bad :: later)
  = {| LoaderController.values := LoaderController.values (load' before);
       LoaderController.failure := Some e |}
  /\ loadCompleted' (before ++ bad :: later)
     = {| LoaderController.values := LoaderController.values (loadCompleted' before);
          LoaderController.failure := Some e |}.
Proof.
  cbv zeta. intros Hf Ha Hd.
  assert (H : LoaderController.load' TOKEN deserializeObject3D AnimationClip_parse
                (before ++ bad :: later)
              = {| LoaderController.values :=
                     LoaderController.values
                       (LoaderController.load' TOKEN deserializeObject3D
                          AnimationClip_parse before);
                   LoaderController.failure := Some e |}).
  { rewrite load_app, Hf, load_cons, Ha, Hd. cbn. now rewrite app_nil_r. }
  split; [exact H|].
  unfold LoaderController.loadCompleted'. now rewrite H.
Qed.

Lemma X19_load_ends_on_error_witness :
  LoaderController.load' LoaderFixtures.TOKEN
    LoaderFixtures.deserializeObject3D LoaderFixtures.AnimationClip_parse
    ([LoaderFixtures.texture] ++ LoaderFixtures.sceneless_model :: [LoaderFixtures.model])
  = {| LoaderController.values :=
         LoaderController.values
           (LoaderController.load' LoaderFixtures.TOKEN
              LoaderFixtures.deserializeObject3D LoaderFixtures.AnimationClip_parse
              [LoaderFixtures.texture]);
       LoaderController.failure := Some "Unexpected end of JSON input" |}.
Proof.
  exact (proj1 (X19_load_ends_on_error LoaderFixtures.TOKEN string string string
                  LoaderFixtures.deserializeObject3D LoaderFixtures.AnimationClip_parse
                  [LoaderFixtures.texture] [LoaderFixtures.model]
                  LoaderFixtures.sceneless_model _ _ eq_refl eq_refl eq_refl)).
Defined.

(** X20.  A payload with a truthy resource and the source type
    "gltfModel" is delivered exactly when every part of the resource is
    read: each animation by [AnimationClip.parse], each camera and each
    scene of the list by [deserializeObject3D], and the scene, or the
    empty text when the resource has no scene, by [deserializeObject3D].
    The delivered resource then holds the results one for one and in
    order, a list that was undefined stays undefined, and [userData], the
    counters and the source are untouched.  Any other payload is
    delivered as it came, whatever its resource. *)
Theorem X20_gltf_payload
    (Object3D AnimationClip AnimationClipJSON : Type)
    (deserializeObject3D : string -> outcome Object3D)
    (AnimationClip_parse : AnimationClipJSON -> outcome AnimationClip)
    (p : Resource.Progressed (LoaderController.SerializedResource AnimationClipJSON)) :
  let deserialize :=
    LoaderController.deserialize_payload deserializeObject3D AnimationClip_parse in
  let g := LoaderController.as_gltf (Resource.resource p) in
  (LoaderController.truthy_resource (Resource.resource p) = true
   /\ Resource.type (Resource.source p) = "gltfModel" ->
   forall v,
     deserialize p = Returned v
     <-> exists animations cameras scene scenes,
           LoaderDelivery.parsed AnimationClip_parse
             (LoaderController.animations g) animations
           /\ LoaderDelivery.parsed deserializeObject3D
                (LoaderController.cameras g) cameras
           /\ deserializeObject3D (default "" (LoaderController.scene g)) = Returned scene
           /\ LoaderDelivery.parsed deserializeObject3D
                (LoaderController.scenes g) scenes
           /\ v = LoaderController.with_resource
                    (LoaderController.loaded_gltf
                       {| LoaderController.loaded_animations := animations;
                          LoaderController.loaded_cameras := cameras;
                          LoaderController.loaded_scene := scene;
                          LoaderController.loaded_scenes := scenes;
                          LoaderController.loaded_userData :=
                            LoaderController.userData g |})
                    p)
  /\ (LoaderController.truthy_resource (Resource.resource p) = false
      \/ Resource.type (Resource.source p) <> "gltfModel" ->
      deserialize p
      = Returned (LoaderController.with_resource
                    (LoaderController.as_it_came (Resource.resource p)) p)).
Proof.
  cbv zeta. split.
  - intros [Ht Hty] v. unfold LoaderController.deserialize_payload.
    rewrite Ht, Hty. cbn [andb String.eqb Ascii.eqb Bool.eqb].
    change ("gltfModel" =? "gltfModel")%string with true. cbn match.
    split.
    + destruct (LoaderController.optional_map_throwing AnimationClip_parse _)
        as [animations|] eqn:Ha; [|discriminate].
      destruct (LoaderController.optional_map_throwing deserializeObject3D
                  (LoaderController.cameras _)) as [cameras|] eqn:Hc; [|discriminate].
      destruct (deserializeObject3D _) as [scene|] eqn:Hs; [|discriminate].
      destruct (LoaderController.optional_map_throwing deserializeObject3D
                  (LoaderController.scenes _)) as [scenes|] eqn:Hss; [|discriminate].
      intros [= <-]. exists animations, cameras, scene, scenes.
      rewrite <- !optional_map_throwing_spec. auto.
    + intros (animations & cameras & scene & scenes & Ha & Hc & Hs & Hss & ->).
      apply optional_map_throwing_spec in Ha, Hc, Hss.
      now rewrite Ha, Hc, Hs, Hss.
  - intros Hnot. unfold LoaderController.deserialize_payload.
    destruct Hnot as [-> | Hne]; [reflexivity|].
    destruct (Resource.type (Resource.source p) =? "gltfModel")%string eqn:E.
    + apply String.eqb_eq in E. contradiction.
    + now rewrite andb_false_r.
Qed.

Lemma X20_gltf_payload_witness :
  exists v,
    LoaderController.deserialize_payload
      LoaderFixtures.deserializeObject3D LoaderFixtures.AnimationClip_parse
      {| Resource.resource :=
           LoaderController.gltf
             {| LoaderController.animations := Some ["Walk"; "Run"];
                LoaderController.cameras := None;
                LoaderController.scene := Some "Scene";
                LoaderController.scenes := Some ["Scene"];
                LoaderController.userData := JS.Undefined |};
         Resource.loadedCount := 2;
         Resource.toLoadCount := 3;
         Resource.source := LoaderFixtures.source "gltfModel" |}
    = Returned v.
Proof.
  eexists.
  apply (proj1 (X20_gltf_payload string string string
                  LoaderFixtures.deserializeObject3D LoaderFixtures.AnimationClip_parse
                  {| Resource.resource :=
                       LoaderController.gltf
                         {| LoaderController.animations := Some ["Walk"; "Run"];
                            LoaderController.cameras := None;
                            LoaderController.scene := Some "Scene";
                            LoaderController.scenes := Some ["Scene"];
                            LoaderController.userData := JS.Undefined |};
                     Resource.loadedCount := 2;
                     Resource.toLoadCount := 3;
                     Resource.source := LoaderFixtures.source "gltfModel" |})
           (conj eq_refl eq_refl)).
  exists (Some ["Walk"; "Run"]), None, "Scene", (Some ["Scene"]).
  cbn. repeat split; repeat constructor.
Defined.

Section LoaderBridge.
Import LoaderController LoaderDelivery.

Context (TOKEN : string) {AnimationClipJSON : Type}.

Lemma admitted_posted (w : nat) (p : Resource.Progressed (MainResource AnimationClipJSON)) :
  admitted TOKEN (received <$> option_list (on_serializedLoad TOKEN (Some w) p))
  = option_list (carried p).
Proof.
  unfold on_serializedLoad, carried, admitted, accepted.
  destruct p as [[id|r] loaded toLoad source]; cbn; [reflexivity|].
  rewrite String.eqb_refl. cbn.
  destruct (truthy_resource r); reflexivity.
Qed.

Lemma admitted_app (xs ys : list (MessageEvent AnimationClipJSON)) :
  admitted TOKEN (xs ++ ys) = admitted TOKEN xs ++ admitted TOKEN ys.
Proof. unfold admitted. apply omap_app. Qed.

End LoaderBridge.

(** X21.  What the subscriber of [_initLoader] in [core/register] posts
    reaches [load$] of the worker as follows: a payload whose resource is
    an [ArrayBuffer] is posted alone, with itself as the transfer list,
    and never passes the filter of [load$]; any other payload is posted
    under the loader token, and passes the filter exactly when its
    resource is truthy; payloads are neither reordered nor duplicated.
    Without a worker nothing is posted. *)
Theorem X21_serialized_loads_reach_the_worker
    (TOKEN : string) (AnimationClipJSON : Type) (w : nat)
    (payloads : list (Resource.Progressed (LoaderDelivery.MainResource AnimationClipJSON))) :
  LoaderDelivery.admitted TOKEN
    (LoaderDelivery.received
       <$> omap (@LoaderDelivery.on_serializedLoad TOKEN AnimationClipJSON (Some w))
             payloads)
  = omap LoaderDelivery.carried payloads
  /\ omap (@LoaderDelivery.on_serializedLoad TOKEN AnimationClipJSON None) payloads = []
  /\ (forall (p : Resource.Progressed (LoaderDelivery.MainResource AnimationClipJSON)) id,
        Resource.resource p = LoaderDelivery.array_buffer id ->
        LoaderDelivery.on_serializedLoad TOKEN (Some w) p
        = Some (LoaderDelivery.buffer_alone id [id])).
Proof.
  split; [|split].
  - induction payloads as [|p payloads IH]; [reflexivity|].
    cbn [omap list_omap].
    pose proof (admitted_posted TOKEN w p) as Hp.
    destruct (LoaderDelivery.on_serializedLoad TOKEN (Some w) p) as [m|].
    + change (LoaderDelivery.admitted TOKEN [LoaderDelivery.received m]
              = option_list (LoaderDelivery.carried p)) in Hp.
      change (LoaderDelivery.received <$> m :: ?l)
        with ([LoaderDelivery.received m] ++ (LoaderDelivery.received <$> l)).
      rewrite admitted_app, IH, Hp. destruct (LoaderDelivery.carried p); reflexivity.
    + change ([] = option_list (LoaderDelivery.carried p)) in Hp.
      destruct (LoaderDelivery.carried p); [discriminate Hp | exact IH].
  - induction payloads as [|p payloads IH]; [reflexivity | exact IH].
  - intros p id Hr. unfold LoaderDelivery.on_serializedLoad. now rewrite Hr.
Qed.

(** ** The entry points: registered props are a fixed point *)

(** X22.  The props [register] of [modules/register] registers are
    already in the form it gives: the three flags are booleans, and
    [register] applied to them accepts them and changes nothing.
    [isUndefined] and [isBoolean] are taken to be the tests
    [=== undefined] and [typeof _ === "boolean"]. *)
Theorem X22_register_is_idempotent
    (DefaultCameraType : list (string * JS.value))
    (isUndefined isBoolean : JS.value -> bool)
    (props registered : ModulesRegister.RegisterPropsModel) :
  (forall v, isUndefined v = JS.is_undefined v) ->
  (forall v, isBoolean v = JS.is_boolean v) ->
  let register := RegisterEntry.register DefaultCameraType isUndefined isBoolean in
  register (Some props) = Returned registered ->
  register (Some registered) = Returned registered
  /\ JS.is_boolean (ModulesRegister.withMiniCamera registered) = true
  /\ JS.is_boolean (ModulesRegister.startTimer registered) = true
  /\ JS.is_boolean (ModulesRegister.fullScreen registered) = true.
Proof.
  intros Hu Hb register. subst register. unfold RegisterEntry.register.
  cbn [fmap option_fmap option_map default from_option id].
  destruct (negb (JS.is_string (ModulesRegister.location props))
            && negb (JS.instanceof_URL (ModulesRegister.location props))) eqn:Hloc;
    [discriminate|].
  intros [= <-]. cbn. rewrite Hloc, !Hu, !Hb.
  destruct props as [cv loc cam mini timer full]. cbn.
  repeat split.
  - f_equal. f_equal.
    + destruct (JS.truthy cam && RegisterEntry.in_DefaultCameraType DefaultCameraType cam)
        eqn:E; cbn; [now rewrite E|].
      destruct (JS.truthy (RegisterEntry.PERSPECTIVE DefaultCameraType)
                && RegisterEntry.in_DefaultCameraType DefaultCameraType
                     (RegisterEntry.PERSPECTIVE DefaultCameraType)); reflexivity.
    + destruct mini; reflexivity.
    + destruct timer; reflexivity.
    + destruct full; reflexivity.
  - destruct mini; reflexivity.
  - destruct timer; reflexivity.
  - destruct full; reflexivity.
Qed.

Lemma X22_register_is_idempotent_witness :
  exists registered,
    RegisterEntry.register EntryFixtures.cameras JS.is_undefined JS.is_boolean
      (Some EntryFixtures.bare) = Returned registered
    /\ RegisterEntry.register EntryFixtures.cameras JS.is_undefined JS.is_boolean
         (Some registered) = Returned registered.
Proof.
  eexists. split; [reflexivity|].
  exact (proj1 (X22_register_is_idempotent EntryFixtures.cameras
                  JS.is_undefined JS.is_boolean EntryFixtures.bare _
                  (fun _ => eq_refl) (fun _ => eq_refl) eq_refl)).
Defined.

(** X23.  The props the earlier [register] ([src/unnamed/part_000])
    registers are a fixed point of it as well: applied to them it accepts
    them and changes nothing, and their [withMiniCamera] is a boolean. *)
Theorem X23_earlier_register_is_idempotent
    (props registered : EarlierEntry.RegisterDto) :
  EarlierEntry.register (Some props) = Returned registered ->
  EarlierEntry.register (Some registered) = Returned registered
  /\ JS.is_boolean (EarlierEntry.withMiniCamera registered) = true
  /\ JS.is_undefined (EarlierEntry.useDefaultCamera registered) = false
  /\ JS.is_undefined (EarlierEntry.startTimer registered) = false.
Proof.
  unfold EarlierEntry.register.
  destruct (negb (JS.truthy (EarlierEntry.location props))) eqn:Hloc; [discriminate|].
  intros [= <-]. cbn. rewrite Hloc.
  destruct props as [cv loc cam mini timer]. cbn.
  repeat split.
  - destruct cam, timer; reflexivity.
  - destruct cam; reflexivity.
  - destruct timer; reflexivity.
Qed.

Lemma X23_earlier_register_is_idempotent_witness :
  exists registered,
    EarlierEntry.register
      (Some (EntryFixtures.earlier (JS.String "./main.worker.ts") JS.Undefined (JS.Number 1)))
    = Returned registered
    /\ EarlierEntry.register (Some registered) = Returned registered.
Proof.
  eexists. split; [reflexivity|].
  exact (proj1 (X23_earlier_register_is_idempotent
                  (EntryFixtures.earlier (JS.String "./main.worker.ts") JS.Undefined
                     (JS.Number 1)) _ eq_refl)).
Defined.

(** ** A failed start leaves nothing half done *)


